(** * Use Case Library: the REST API and the CSV importer

    A shallow embedding of the backend of the use-case catalog
    (the Express server and the CSV import script) together with the
    properties of its specification.

    Modelling conventions.
    - JavaScript strings are [string]s; a character is a code unit below
      256, and case folding acts on the letters A to Z (the database folds
      other letters according to its locale).
    - JavaScript numbers that hold counts, ids, pages and timestamps are
      integers of [Z].  They are exact up to 2^53 - 1; a larger number is
      rounded by JavaScript to the nearest double, which the model does not
      do, so the statements that mention a parsed page or id bound it.
    - The relational table is the list of its rows in insertion order, next
      to the value of the id sequence.  Prisma's client and the PostgreSQL
      server behind it are not part of the repository; they are modelled
      by what they do with the calls the program makes: [mode:
      'insensitive'] is the operator ILIKE, whose right operand is a
      pattern; a text with a zero character cannot be sent; ids are 32-bit
      integers; [skip] is a 64-bit integer.  Failures of the environment
      (a lost connection, a full disk) are not modelled.
    - Handlers are functions from the configuration, the store and the
      request to the new store and the response. *)

From Stdlib Require Import ZArith Ascii String List Lia DecimalString.
From stdpp Require Import base list strings sorting.

Local Open Scope Z_scope.

(* ===================================================================== *)
(** ** JavaScript string primitives *)
(* ===================================================================== *)

Module Str.

(** [WhiteSpace] and [LineTerminator] code units below 256: the characters
    removed by [String.prototype.trim] and matched by [\s]. *)
Definition isWhiteSpace (c : ascii) : bool :=
  match c with
  | "009" | "010" | "011" | "012" | "013" | " " | "160" => true
  | _ => false
  end%char.

Fixpoint trimStart (s : string) : string :=
  match s with
  | EmptyString => EmptyString
  | String c s' => if isWhiteSpace c then trimStart s' else s
  end.

Fixpoint trimEnd (s : string) : string :=
  match s with
  | EmptyString => EmptyString
  | String c s' =>
      match trimEnd s' with
      | EmptyString => if isWhiteSpace c then EmptyString else String c EmptyString
      | t => String c t
      end
  end.

(** [s.trim()] *)
Definition trim (s : string) : string := trimEnd (trimStart s).

Definition is_upper (c : ascii) : bool :=
  (Nat.leb 65 (nat_of_ascii c) && Nat.leb (nat_of_ascii c) 90)%bool.
Definition is_lower (c : ascii) : bool :=
  (Nat.leb 97 (nat_of_ascii c) && Nat.leb (nat_of_ascii c) 122)%bool.
Definition is_digit (c : ascii) : bool :=
  (Nat.leb 48 (nat_of_ascii c) && Nat.leb (nat_of_ascii c) 57)%bool.

Definition lower_char (c : ascii) : ascii :=
  if is_upper c then ascii_of_nat (nat_of_ascii c + 32) else c.
Definition upper_char (c : ascii) : ascii :=
  if is_lower c then ascii_of_nat (nat_of_ascii c - 32) else c.

Fixpoint map_chars (f : ascii -> ascii) (s : string) : string :=
  match s with
  | EmptyString => EmptyString
  | String c s' => String (f c) (map_chars f s')
  end.

(** [s.toLowerCase()] and [s.toUpperCase()] *)
Definition toLowerCase : string -> string := map_chars lower_char.
Definition toUpperCase : string -> string := map_chars upper_char.

Fixpoint startsWith (p s : string) : bool :=
  match p, s with
  | EmptyString, _ => true
  | String a p', String b s' => (Ascii.eqb a b && startsWith p' s')%bool
  | String _ _, EmptyString => false
  end.

(** [s.includes(p)] *)
Fixpoint includes (p s : string) : bool :=
  (startsWith p s ||
     match s with
     | EmptyString => false
     | String _ s' => includes p s'
     end)%bool.

Fixpoint skip (n : nat) (s : string) : string :=
  match n, s with
  | O, _ => s
  | S n', String _ s' => skip n' s'
  | S _, EmptyString => EmptyString
  end.

(** [s.replace(p, r)] with a string pattern: the first occurrence only. *)
Fixpoint replace (p r s : string) : string :=
  if startsWith p s then String.append r (skip (String.length p) s)
  else match s with
       | EmptyString => EmptyString
       | String c s' => String c (replace p r s')
       end.

(** [s + c] for a single character [c]. *)
Definition snoc (s : string) (c : ascii) : string :=
  String.append s (String c EmptyString).

(** A JavaScript string is falsy exactly when it is empty. *)
Definition truthy (s : string) : bool :=
  match s with EmptyString => false | _ => true end.


Definition len (s : string) : Z := Z.of_nat (String.length s).

(** Every character of [s] passes [f]. *)
Fixpoint every (f : ascii -> bool) (s : string) : bool :=
  match s with
  | EmptyString => true
  | String c s' => (f c && every f s')%bool
  end.

(** Template-literal rendering of an integer. *)
Definition of_Z (n : Z) : string := NilZero.string_of_int (Z.to_int n).

End Str.

(* ===================================================================== *)
(** ** Integers read from strings *)
(* ===================================================================== *)

Module Num.

(** [Number.MAX_SAFE_INTEGER], 2^53 - 1. *)
Definition MAX_SAFE_INTEGER : Z := 9007199254740991.

Definition digit_value (c : ascii) : Z := Z.of_nat (nat_of_ascii c) - 48.

(** The longest prefix of decimal digits, read with accumulator [acc];
    [seen] records whether a digit was read. *)
Fixpoint digits (acc : Z) (seen : bool) (s : string) : option Z :=
  match s with
  | String c s' =>
      if Str.is_digit c then digits (10 * acc + digit_value c) true s'
      else if seen then Some acc else None
  | EmptyString => if seen then Some acc else None
  end.

Definition is_minus (c : ascii) : bool := Ascii.eqb c "-".
Definition is_plus (c : ascii) : bool := Ascii.eqb c "+".

Definition signed (s : string) : option Z :=
  match s with
  | String c s' =>
      if is_minus c then Z.opp <$> digits 0 false s'
      else if is_plus c then digits 0 false s'
      else digits 0 false s
  | EmptyString => None
  end.

(** [parseInt(s, 10)]: leading white space, an optional sign and the
    longest run of digits; [None] stands for [NaN].  The result is the
    integer the digits denote; JavaScript returns the nearest double,
    which is that integer up to [MAX_SAFE_INTEGER]. *)
Definition parseInt (s : string) : option Z := signed (Str.trimStart s).

Fixpoint all_digits (s : string) : bool :=
  match s with
  | EmptyString => true
  | String c s' => (Str.is_digit c && all_digits s')%bool
  end.

(** validator.js [isInt]'s shape test: an optional sign, then one or
    more digits up to the end of the string. *)
Definition int_shape (s : string) : bool :=
  match s with
  | String c s' =>
      if (is_minus c || is_plus c)%bool then (Str.truthy s' && all_digits s')%bool
      else all_digits s
  | EmptyString => false
  end.

(** [Number(s)] on a string of that shape. *)
Definition toNumber (s : string) : Z :=
  match s with
  | String c s' =>
      if is_minus c then - default 0 (digits 0 false s')
      else if is_plus c then default 0 (digits 0 false s')
      else default 0 (digits 0 false s)
  | EmptyString => 0
  end.

(** validator.js [isInt(s, {min, max})] as express-validator calls it. *)
Definition isInt (min : Z) (max : option Z) (s : string) : bool :=
  (int_shape s && (min <=? toNumber s) &&
     match max with Some m => toNumber s <=? m | None => true end)%bool.

End Num.

(* ===================================================================== *)
(** ** Regular expressions *)
(* ===================================================================== *)

Module Regex.

(** The fragment of JavaScript patterns the program uses has no
    back-references and no look-around, so [re.test(s)] of an anchored
    pattern is membership of [s] in the language of the pattern. *)
Inductive re : Type :=
| Void : re
| Eps : re
| Class (p : ascii -> bool) : re
| Alt (a b : re) : re
| Seq (a b : re) : re
| Star (a : re) : re.

Fixpoint nullable (r : re) : bool :=
  match r with
  | Void => false
  | Eps => true
  | Class _ => false
  | Alt a b => (nullable a || nullable b)%bool
  | Seq a b => (nullable a && nullable b)%bool
  | Star _ => true
  end.

Definition alt (a b : re) : re :=
  match a, b with
  | Void, _ => b
  | _, Void => a
  | _, _ => Alt a b
  end.

Definition seq (a b : re) : re :=
  match a, b with
  | Void, _ => Void
  | _, Void => Void
  | Eps, _ => b
  | _, _ => Seq a b
  end.

(** Brzozowski derivative. *)
Fixpoint deriv (c : ascii) (r : re) : re :=
  match r with
  | Void => Void
  | Eps => Void
  | Class p => if p c then Eps else Void
  | Alt a b => alt (deriv c a) (deriv c b)
  | Seq a b =>
      if nullable a then alt (seq (deriv c a) b) (deriv c b)
      else seq (deriv c a) b
  | Star a => seq (deriv c a) (Star a)
  end.

Fixpoint test (r : re) (s : string) : bool :=
  match s with
  | EmptyString => nullable r
  | String c s' => test (deriv c r) s'
  end.

Definition opt (a : re) : re := Alt a Eps.
Definition plus (a : re) : re := Seq a (Star a).

(** [a{lo,lo+extra}] *)
Fixpoint upto (extra : nat) (a : re) : re :=
  match extra with
  | O => Eps
  | S n => opt (Seq a (upto n a))
  end.
Fixpoint times (lo extra : nat) (a : re) : re :=
  match lo with
  | O => upto extra a
  | S n => Seq a (times n extra a)
  end.

(** A literal character under the [i] flag. *)
Definition chr_i (c : ascii) : re :=
  Class (fun x => Ascii.eqb (Str.lower_char x) (Str.lower_char c)).

Fixpoint lit_i (s : string) : re :=
  match s with
  | EmptyString => Eps
  | String c s' => Seq (chr_i c) (lit_i s')
  end.

Definition is_letter (c : ascii) : bool := (Str.is_lower c || Str.is_upper c)%bool.
Definition is_char (c x : ascii) : bool := Ascii.eqb x c.

(** The host class: digits, letters, dot and dash (flag [i]). *)
Definition host_char (c : ascii) : bool :=
  (Str.is_digit c || is_letter c || is_char "." c || is_char "-" c)%bool.
(** The top-level class: letters and dot (flag [i]). *)
Definition tld_char (c : ascii) : bool := (is_letter c || is_char "." c)%bool.
(** The path class: slash, word characters, space, dot and dash. *)
Definition path_char (c : ascii) : bool :=
  (is_char "/" c || is_letter c || Str.is_digit c || is_char "_" c
   || is_char " " c || is_char "." c || is_char "-" c)%bool.

(** The URL pattern shared by the server and the importer, flag [i]:
    an optional scheme http or https, a host of one or more host
    characters, a dot, two to six top-level characters, any number of
    runs of path characters and an optional final slash. *)
Definition urlRegex : re :=
  Seq (opt (Seq (lit_i "http") (Seq (opt (chr_i "s")) (lit_i "://"))))
    (Seq (plus (Class host_char))
       (Seq (chr_i ".")
          (Seq (times 2 4 (Class tld_char))
             (Seq (Star (Star (Class path_char)))
                (opt (chr_i "/")))))).

End Regex.


(* ===================================================================== *)
(** ** The record store *)
(* ===================================================================== *)

Module Db.

(** A row of the use-case table. *)
Record UseCase : Type := mkUseCase {
  id : Z;
  useCase : string;
  conceptDescription : string;
  concreteImplementation : option string;
  benefit : option string;
  industry : option string;
  department : option string;
  valueChainStep : option string;
  url : option string;
  createdAt : Z;
  updatedAt : Z
}.

(** The [data] argument of [prisma.useCase.create]. *)
Record CreateInput : Type := mkCreateInput {
  data_useCase : string;
  data_conceptDescription : string;
  data_concreteImplementation : option string;
  data_benefit : option string;
  data_industry : option string;
  data_department : option string;
  data_valueChainStep : option string;
  data_url : option string
}.

(** The table in insertion order and the next value of the id sequence. *)
Record t : Type := mkDb { table : list UseCase; next_id : Z }.

Definition empty : t := {| table := []; next_id := 1 |}.

Inductive Column : Type :=
| ColUseCase | ColConceptDescription | ColConcreteImplementation | ColBenefit
| ColIndustry | ColDepartment | ColValueChainStep | ColUrl.

Definition column (c : Column) (r : UseCase) : option string :=
  match c with
  | ColUseCase => Some (useCase r)
  | ColConceptDescription => Some (conceptDescription r)
  | ColConcreteImplementation => concreteImplementation r
  | ColBenefit => benefit r
  | ColIndustry => industry r
  | ColDepartment => department r
  | ColValueChainStep => valueChainStep r
  | ColUrl => url r
  end.

(** *** What a call can fail with *)

(** The error classes of the client: a call whose arguments it refuses,
    a database error it knows by code, and any other database error.
    (The client wraps the database's message in a longer text of its own,
    which is not reproduced.) *)
Inductive ClientError : Type :=
| ClientValidationError (message : string)
| ClientKnownRequestError (code : string) (message : string)
| ClientUnknownRequestError (message : string).

Definition client_message (e : ClientError) : string :=
  match e with
  | ClientValidationError m => m
  | ClientKnownRequestError _ m => m
  | ClientUnknownRequestError m => m
  end.

(** The id column is a 32-bit integer; the client passes integer
    arguments as 64-bit integers. *)
Definition INT4_MAX : Z := 2147483647.
Definition INT8_MAX : Z := 9223372036854775807.

(** A text value can be sent to the database when it holds no zero
    character. *)
Definition is_nul (c : ascii) : bool := Ascii.eqb c "000".
Definition storable (s : string) : bool := Str.every (fun c => negb (is_nul c)) s.

Definition invalid_byte_sequence : ClientError :=
  ClientUnknownRequestError "invalid byte sequence for encoding UTF8: 0x00".
Definition pattern_ends_with_escape : ClientError :=
  ClientUnknownRequestError "LIKE pattern must not end with escape character".
Definition out_of_int4 : ClientError :=
  ClientUnknownRequestError "Unable to fit integer value into an INT4 (32-bit signed integer)".
Definition out_of_int8 : ClientError :=
  ClientValidationError "Unable to fit integer value into a 64 Bit signed integer".
Definition sequence_exhausted : ClientError :=
  ClientUnknownRequestError "nextval: reached maximum value of sequence".

(** *** The operator ILIKE *)

(** In a pattern the percent sign stands for any run of characters, the
    underscore for any one character, and the backslash takes the next
    character literally.  The matcher follows the one of PostgreSQL: it
    answers true, false, abort (the text is too short for the pattern,
    so no later start can match either), or raises an error when it
    reaches a backslash that ends the pattern. *)
Inductive Like : Type := LIKE_TRUE | LIKE_FALSE | LIKE_ABORT | LIKE_ERROR.

Definition is_percent (c : ascii) : bool := Ascii.eqb c "%".
Definition is_underscore (c : ascii) : bool := Ascii.eqb c "_".
Definition is_backslash (c : ascii) : bool := Ascii.eqb c "\".

(** After a percent sign: further percent signs are skipped, and every
    underscore takes one character of the text. *)
Fixpoint skip_wild (t p : string) : option (string * string) :=
  match p with
  | String c p' =>
      if is_percent c then skip_wild t p'
      else if is_underscore c then
        match t with
        | EmptyString => None
        | String _ t' => skip_wild t' p'
        end
      else Some (t, p)
  | EmptyString => Some (t, p)
  end.

(** The first character the rest of a pattern has to match. *)
Definition first_pattern_char (p : string) : option ascii :=
  match p with
  | String c p' =>
      if is_backslash c then
        match p' with
        | String q _ => Some q
        | EmptyString => None
        end
      else Some c
  | EmptyString => None
  end.

(** The search for a start of the text at which the rest of the pattern
    matches. *)
Fixpoint scan (rest : string -> Like) (firstpat : ascii) (t : string) : Like :=
  match t with
  | EmptyString => LIKE_ABORT
  | String a t' =>
      if Ascii.eqb a firstpat then
        match rest t with
        | LIKE_FALSE => scan rest firstpat t'
        | matched => matched
        end
      else scan rest firstpat t'
  end.

(** At the end of the text the rest of the pattern must be percent
    signs. *)
Definition at_end_of_text (p : string) : Like :=
  if Str.every is_percent p then LIKE_TRUE else LIKE_ABORT.

(** [depth] bounds the nesting of the calls; one more than the length of
    the pattern is enough, since every call shortens the pattern. *)
Fixpoint MatchText (depth : nat) (t p : string) : Like :=
  match depth with
  | O => LIKE_ABORT
  | S depth' =>
      match p with
      | EmptyString =>
          match t with
          | EmptyString => LIKE_TRUE
          | String _ _ => LIKE_FALSE
          end
      | String c p' =>
          match t with
          | EmptyString => at_end_of_text p
          | String a t' =>
              if is_backslash c then
                match p' with
                | EmptyString => LIKE_ERROR
                | String q p'' =>
                    if Ascii.eqb q a then MatchText depth' t' p'' else LIKE_FALSE
                end
              else if is_percent c then
                match skip_wild t p' with
                | None => LIKE_ABORT
                | Some (_, EmptyString) => LIKE_TRUE
                | Some (t1, p1) =>
                    match first_pattern_char p1 with
                    | None => LIKE_ERROR
                    | Some firstpat => scan (fun x => MatchText depth' x p1) firstpat t1
                    end
                end
              else if is_underscore c then MatchText depth' t' p'
              else if Ascii.eqb c a then MatchText depth' t' p'
              else LIKE_FALSE
          end
      end
  end.

(** [text ILIKE pattern]: both sides are folded to lower case, then
    matched. *)
Definition ilike (pattern text : string) : ClientError + bool :=
  match MatchText (S (String.length pattern)) (Str.toLowerCase text)
          (Str.toLowerCase pattern) with
  | LIKE_TRUE => inr true
  | LIKE_FALSE | LIKE_ABORT => inr false
  | LIKE_ERROR => inl pattern_ends_with_escape
  end.

(** *** Filters *)

(** String filters; the program always asks for [mode: 'insensitive'],
    for which the client compares with ILIKE: [equals] with the value as
    the pattern, [contains] with the value between two percent signs.
    The value is not escaped. *)
Inductive StringFilter : Type :=
| Equals (v : string)
| Contains (v : string).

Definition filter_value (f : StringFilter) : string :=
  match f with Equals v | Contains v => v end.

Definition pattern_of (f : StringFilter) : string :=
  match f with
  | Equals v => v
  | Contains v => String "%" (String.append v "%")
  end.

(** A filter on a null column holds for no row. *)
Definition filter_holds (f : StringFilter) (v : option string) : ClientError + bool :=
  match v with
  | None => inr false
  | Some s => ilike (pattern_of f) s
  end.

Definition Cond : Type := Column * StringFilter.
Definition cond_holds (r : UseCase) (c : Cond) : ClientError + bool :=
  filter_holds (snd c) (column (fst c) r).

(** A conjunction and a disjunction of conditions, evaluated from the
    left as far as needed. *)
Fixpoint all_hold (r : UseCase) (cs : list Cond) : ClientError + bool :=
  match cs with
  | [] => inr true
  | c :: cs' =>
      match cond_holds r c with
      | inl e => inl e
      | inr true => all_hold r cs'
      | inr false => inr false
      end
  end.

Fixpoint any_holds (r : UseCase) (cs : list Cond) : ClientError + bool :=
  match cs with
  | [] => inr false
  | c :: cs' =>
      match cond_holds r c with
      | inl e => inl e
      | inr true => inr true
      | inr false => any_holds r cs'
      end
  end.

(** [UseCaseWhereInput]: the column filters set on the object hold
    together, and when [OR] is set one of its members holds. *)
Record WhereInput : Type := mkWhere {
  where_columns : list Cond;
  where_OR : option (list Cond)
}.

Definition where_holds (w : WhereInput) (r : UseCase) : ClientError + bool :=
  match all_hold r (where_columns w) with
  | inl e => inl e
  | inr false => inr false
  | inr true =>
      match where_OR w with
      | None => inr true
      | Some cs => any_holds r cs
      end
  end.

Fixpoint rows_where (w : WhereInput) (rows : list UseCase) : ClientError + list UseCase :=
  match rows with
  | [] => inr []
  | r :: rest =>
      match where_holds w r with
      | inl e => inl e
      | inr b =>
          match rows_where w rest with
          | inl e => inl e
          | inr l => inr (if b then r :: l else l)
          end
      end
  end.

(** The values the query carries as parameters. *)
Definition parameters (w : WhereInput) : list string :=
  map (fun c : Cond => filter_value (snd c)) (where_columns w ++ default [] (where_OR w)).

(** The rows a [where] object selects: the parameters are sent first,
    then every row is compared. *)
Definition select (w : WhereInput) (rows : list UseCase) : ClientError + list UseCase :=
  if forallb storable (parameters w) then rows_where w rows
  else inl invalid_byte_sequence.

(** [orderBy: { createdAt: 'desc' }].  The database fixes no order among
    rows of equal [createdAt]; the model keeps them in insertion order. *)
Definition created_desc (a b : UseCase) : Prop := createdAt b <= createdAt a.
#[global] Instance created_desc_dec (a b : UseCase) : Decision (created_desc a b) :=
  decide (createdAt b <= createdAt a).
Definition orderBy_createdAt_desc : list UseCase -> list UseCase :=
  merge_sort created_desc.

(** *** The calls *)

(** Store computations: a state monad over the store with exceptions. *)
Definition M (E A : Type) : Type := t -> t * (E + A).
Definition ret {E A} (a : A) : M E A := fun db => (db, inr a).
Definition throw {E A} (e : E) : M E A := fun db => (db, inl e).
Definition bind {E A B} (m : M E A) (k : A -> M E B) : M E B :=
  fun db =>
    match m db with
    | (db', inl e) => (db', inl e)
    | (db', inr a) => k a db'
    end.

#[global] Instance M_ret {E} : MRet (M E) := fun A => @ret E A.
#[global] Instance M_bind {E} : MBind (M E) := fun A B k m => bind m k.

(** The outcome of a query that reads the table. *)
Definition query {A} (result : t -> ClientError + A) : M ClientError A :=
  fun db => (db, result db).

Definition findFirst (w : WhereInput) : M ClientError (option UseCase) :=
  query (fun db =>
    match select w (table db) with
    | inl e => inl e
    | inr l => inr (head l)
    end).

Definition findUnique (i : Z) : M ClientError (option UseCase) :=
  query (fun db =>
    if INT8_MAX <? i then inl out_of_int8
    else if INT4_MAX <? i then inl out_of_int4
    else inr (head (filter (fun r => id r = i) (table db)))).

(** The handler never passes a negative [skip] or [take]. *)
Definition findMany (w : WhereInput) (skip take : Z) : M ClientError (list UseCase) :=
  query (fun db =>
    if INT8_MAX <? skip then inl out_of_int8
    else
      match select w (table db) with
      | inl e => inl e
      | inr l =>
          inr (firstn (Z.to_nat take) (skipn (Z.to_nat skip) (orderBy_createdAt_desc l)))
      end).

Definition count (w : WhereInput) : M ClientError Z :=
  query (fun db =>
    match select w (table db) with
    | inl e => inl e
    | inr l => inr (Z.of_nat (length l))
    end).

(** [create]: the store assigns the id and both timestamps. *)
Definition new_row (i now : Z) (d : CreateInput) : UseCase :=
  {| id := i;
     useCase := data_useCase d;
     conceptDescription := data_conceptDescription d;
     concreteImplementation := data_concreteImplementation d;
     benefit := data_benefit d;
     industry := data_industry d;
     department := data_department d;
     valueChainStep := data_valueChainStep d;
     url := data_url d;
     createdAt := now;
     updatedAt := now |}.

Definition storable_opt (v : option string) : bool :=
  match v with Some s => storable s | None => true end.

(** Every text of the input can be sent. *)
Definition storable_input (d : CreateInput) : bool :=
  (storable (data_useCase d) && storable (data_conceptDescription d)
   && storable_opt (data_concreteImplementation d) && storable_opt (data_benefit d)
   && storable_opt (data_industry d) && storable_opt (data_department d)
   && storable_opt (data_valueChainStep d) && storable_opt (data_url d))%bool.

Definition create (now : Z) (d : CreateInput) : M ClientError UseCase :=
  fun db =>
    if negb (storable_input d) then (db, inl invalid_byte_sequence)
    else if INT4_MAX <? next_id db then (db, inl sequence_exhausted)
    else
      let row := new_row (next_id db) now d in
      ({| table := table db ++ [row]; next_id := next_id db + 1 |}, inr row).

End Db.

(* ===================================================================== *)
(** ** The HTTP API *)
(* ===================================================================== *)

Module Http.
Import Db.

(** Values read from the environment when the process starts. *)
Record Config : Type := mkConfig { API_KEY : string; NODE_ENV : string }.

Record ValidationError : Type := mkVErr { path : string; msg : string }.

(** The error classes of the server, the two Prisma error classes the
    error handler looks for, and any other [Error]. *)
Inductive Error : Type :=
| AppError (message : string) (statusCode : Z)
| ValidationAppError (errors : list ValidationError)
| NotFoundError (resource : string) (i : Z)
| UnauthorizedError
| PrismaClientKnownRequestError (code : string) (message : string)
| PrismaClientValidationError (message : string)
| OtherError (message : string).

Definition message (e : Error) : string :=
  match e with
  | AppError m _ => m
  | ValidationAppError _ => "Validation failed"
  | NotFoundError resource i =>
      String.append resource
        (String.append " with id " (String.append (Str.of_Z i) " not found"))
  | UnauthorizedError => "Unauthorized: Invalid or missing API key"
  | PrismaClientKnownRequestError _ m => m
  | PrismaClientValidationError m => m
  | OtherError m => m
  end.

(** An error of the store client as the handlers catch it. *)
Definition of_client (e : ClientError) : Error :=
  match e with
  | ClientValidationError m => PrismaClientValidationError m
  | ClientKnownRequestError c m => PrismaClientKnownRequestError c m
  | ClientUnknownRequestError m => OtherError m
  end.

(** [await prisma.useCase.f(...)] inside a handler. *)
Definition prisma {A} (call : M ClientError A) : M Error A :=
  fun db =>
    match call db with
    | (db', inl e) => (db', inl (of_client e))
    | (db', inr a) => (db', inr a)
    end.

(** [statusCode] of an [AppError] or of one of its subclasses. *)
Definition statusCode (e : Error) : option Z :=
  match e with
  | AppError _ c => Some c
  | ValidationAppError _ => Some 400
  | NotFoundError _ _ => Some 404
  | UnauthorizedError => Some 401
  | _ => None
  end.

(** [error.constructor.name] *)
Definition constructor_name (e : Error) : string :=
  match e with
  | AppError _ _ => "AppError"
  | ValidationAppError _ => "ValidationAppError"
  | NotFoundError _ _ => "NotFoundError"
  | UnauthorizedError => "UnauthorizedError"
  | PrismaClientKnownRequestError _ _ => "PrismaClientKnownRequestError"
  | PrismaClientValidationError _ => "PrismaClientValidationError"
  | OtherError _ => "Error"
  end.

Record Pagination : Type := mkPagination {
  page : Z;
  limit : Z;
  total : Z;
  totalPages : Z;
  hasNext : bool;
  hasPrev : bool
}.

Record Filters : Type := mkFilters {
  filters_industry : option string;
  filters_valueChainStep : option string;
  filters_department : option string;
  filters_search : option string
}.

Record PaginatedResponse : Type := mkPaginated {
  data : list UseCase;
  pagination : Pagination;
  filters : Filters
}.

Record ErrorDetail : Type := mkDetail { field : string; detail_message : string }.

Inductive Body : Type :=
| HealthBody (timestamp : Z)
| ListBody (r : PaginatedResponse)
| FilterOptionsBody (industries valueChainSteps departments : list string)
| ItemBody (item : UseCase)
| CreatedBody (created_message : string) (item : UseCase)
| ErrorBody (error : string) (code : string) (details : option (list ErrorDetail)).

Record Response : Type := mkResponse { status : Z; body : Body }.

(** The global error handler. *)
Definition errorHandler (cfg : Config) (e : Error) : Response :=
  match e with
  | PrismaClientKnownRequestError c _ =>
      if String.eqb c "P2002" then
        {| status := 409;
           body := ErrorBody "Duplicate entry: A record with this value already exists"
                     "DUPLICATE_ENTRY" None |}
      else if String.eqb c "P2025" then
        {| status := 404; body := ErrorBody "Record not found" "NOT_FOUND" None |}
      else
        {| status := 500;
           body := ErrorBody
                     (if String.eqb (NODE_ENV cfg) "production"
                      then "An unexpected error occurred" else message e)
                     "INTERNAL_SERVER_ERROR" None |}
  | PrismaClientValidationError _ =>
      {| status := 400; body := ErrorBody "Invalid data provided" "VALIDATION_ERROR" None |}
  | ValidationAppError errors =>
      {| status := 400;
         body := ErrorBody "Validation failed" "VALIDATION_ERROR"
                   (Some (map (fun v => {| field := path v; detail_message := msg v |})
                            errors)) |}
  | AppError _ _ | NotFoundError _ _ | UnauthorizedError =>
      {| status := default 500 (statusCode e);
         body := ErrorBody (message e)
                   (Str.replace "ERROR" "_ERROR" (Str.toUpperCase (constructor_name e)))
                   None |}
  | OtherError _ =>
      {| status := 500;
         body := ErrorBody
                   (if String.eqb (NODE_ENV cfg) "production"
                    then "An unexpected error occurred" else message e)
                   "INTERNAL_SERVER_ERROR" None |}
  end.

(** The outcome of a middleware: what it wrote to the console and the
    error it passed to [next], if any. *)
Record Next : Type := mkNext { console : list string; next_error : option Error }.

Definition truthy_opt (v : option string) : bool :=
  match v with Some s => Str.truthy s | None => false end.

(** API key authentication for POST requests. *)
Definition apiKeyAuthMiddleware (cfg : Config) (method : string)
    (providedApiKey : option string) : Next :=
  if String.eqb method "POST" then
    if negb (Str.truthy (API_KEY cfg)) then
      {| console := ["WARNING: API_KEY is not configured. POST requests are unprotected."];
         next_error := None |}
    else if (negb (truthy_opt providedApiKey)
             || negb (bool_decide (providedApiKey = Some (API_KEY cfg))))%bool then
      {| console := []; next_error := Some UnauthorizedError |}
    else {| console := []; next_error := None |}
  else {| console := []; next_error := None |}.

(** *** Validation rules *)

Definition check (ok : bool) (p m : string) : list ValidationError :=
  if ok then [] else [{| path := p; msg := m |}].

(** validator.js [isLength] *)
Definition isLength (min : Z) (max : Z) (s : string) : bool :=
  ((min <=? Str.len s) && (Str.len s <=? max))%bool.

(** A rule of an [optional()] chain runs only on a present value. *)
Definition optional (v : option string) (rule : string -> list ValidationError)
  : list ValidationError :=
  match v with Some s => rule s | None => [] end.

(** The request body as it arrives: any field may be missing. *)
Record RawBody : Type := mkRawBody {
  raw_useCase : option string;
  raw_conceptDescription : option string;
  raw_concreteImplementation : option string;
  raw_benefit : option string;
  raw_industry : option string;
  raw_department : option string;
  raw_valueChainStep : option string;
  raw_url : option string
}.

(** [UseCaseCreateRequest]: the body after the sanitizers have run. *)
Record UseCaseCreateRequest : Type := mkCreateRequest {
  body_useCase : string;
  body_conceptDescription : string;
  body_concreteImplementation : option string;
  body_benefit : option string;
  body_industry : option string;
  body_department : option string;
  body_valueChainStep : option string;
  body_url : option string
}.

(** The sanitizers of [createUseCaseValidation]: every chain trims; a
    required field that is missing is sanitized to the empty string. *)
Definition sanitizeCreate (b : RawBody) : UseCaseCreateRequest :=
  {| body_useCase := Str.trim (default EmptyString (raw_useCase b));
     body_conceptDescription := Str.trim (default EmptyString (raw_conceptDescription b));
     body_concreteImplementation := Str.trim <$> raw_concreteImplementation b;
     body_benefit := Str.trim <$> raw_benefit b;
     body_industry := Str.trim <$> raw_industry b;
     body_department := Str.trim <$> raw_department b;
     body_valueChainStep := Str.trim <$> raw_valueChainStep b;
     body_url := Str.trim <$> raw_url b |}.

Definition url_rule (value : string) : list ValidationError :=
  check (negb (Str.truthy value && (0 <? Str.len value)
               && negb (Regex.test Regex.urlRegex value)))
    "url" "Invalid URL format".

(** The validators of [createUseCaseValidation], on the sanitized body. *)
Definition createUseCaseValidation (b : UseCaseCreateRequest) : list ValidationError :=
  check (Str.truthy (body_useCase b)) "useCase" "Use case name is required"
  ++ check (isLength 3 500 (body_useCase b)) "useCase"
       "Use case must be between 3 and 500 characters"
  ++ check (Str.truthy (body_conceptDescription b)) "conceptDescription"
       "Concept description is required"
  ++ check (isLength 10 10000 (body_conceptDescription b)) "conceptDescription"
       "Concept description must be between 10 and 10000 characters"
  ++ optional (body_concreteImplementation b) (fun v =>
       check (isLength 0 10000 v) "concreteImplementation"
         "Concrete implementation must not exceed 10000 characters")
  ++ optional (body_benefit b) (fun v =>
       check (isLength 0 5000 v) "benefit" "Benefit must not exceed 5000 characters")
  ++ optional (body_industry b) (fun v =>
       check (isLength 0 200 v) "industry" "Industry must not exceed 200 characters")
  ++ optional (body_department b) (fun v =>
       check (isLength 0 200 v) "department" "Department must not exceed 200 characters")
  ++ optional (body_valueChainStep b) (fun v =>
       check (isLength 0 200 v) "valueChainStep"
         "Value chain step must not exceed 200 characters")
  ++ optional (body_url b) url_rule.

Record PaginationQuery : Type := mkQuery {
  query_page : option string;
  query_limit : option string;
  query_industry : option string;
  query_valueChainStep : option string;
  query_department : option string;
  query_search : option string
}.

Definition sanitizeQuery (q : PaginationQuery) : PaginationQuery :=
  {| query_page := query_page q;
     query_limit := query_limit q;
     query_industry := Str.trim <$> query_industry q;
     query_valueChainStep := Str.trim <$> query_valueChainStep q;
     query_department := Str.trim <$> query_department q;
     query_search := Str.trim <$> query_search q |}.

Definition paginationValidation (q : PaginationQuery) : list ValidationError :=
  optional (query_page q) (fun v =>
    check (Num.isInt 1 None v) "page" "Page must be a positive integer")
  ++ optional (query_limit q) (fun v =>
       check (Num.isInt 1 (Some 100) v) "limit" "Limit must be between 1 and 100")
  ++ optional (query_industry q) (fun v =>
       check (isLength 0 200 v) "industry" "Invalid value")
  ++ optional (query_valueChainStep q) (fun v =>
       check (isLength 0 200 v) "valueChainStep" "Invalid value")
  ++ optional (query_department q) (fun v =>
       check (isLength 0 200 v) "department" "Invalid value")
  ++ optional (query_search q) (fun v =>
       check (isLength 0 500 v) "search" "Invalid value").

Definition idParamValidation (i : string) : list ValidationError :=
  check (Num.isInt 1 None i) "id" "ID must be a positive integer".

Definition handleValidationErrors (errors : list ValidationError) : M Error unit :=
  match errors with
  | [] => ret tt
  | _ => throw (ValidationAppError errors)
  end.

(** *** Route handlers *)

(** [Math.ceil(a / b)] for a count [a] and a positive [b]. *)
Definition ceil_div (a b : Z) : Z := - ((- a) / b).

Definition equals_if_set (c : Column) (v : option string) : list Cond :=
  match v with
  | Some s => if Str.truthy s then [(c, Equals s)] else []
  | None => []
  end.

(** The [where] object the list handler builds from the filters. *)
Definition build_where (industry valueChainStep department search : option string)
  : WhereInput :=
  {| where_columns :=
       equals_if_set ColIndustry industry
       ++ equals_if_set ColValueChainStep valueChainStep
       ++ equals_if_set ColDepartment department;
     where_OR :=
       match search with
       | Some s =>
           if Str.truthy s then
             Some [(ColUseCase, Contains s);
                   (ColConceptDescription, Contains s);
                   (ColBenefit, Contains s)]
           else None
       | None => None
       end |}.

(** GET /api/use-cases, after validation.  A page or limit that does not
    parse is [NaN] and is refused by the client's argument check. *)
Definition listUseCases (q : PaginationQuery) : M Error Response :=
  match Num.parseInt (default "1" (query_page q)),
        Num.parseInt (default "20" (query_limit q)) with
  | Some page, Some limit =>
      let skip := (page - 1) * limit in
      let industry := Str.trim <$> query_industry q in
      let valueChainStep := Str.trim <$> query_valueChainStep q in
      let department := Str.trim <$> query_department q in
      let search := Str.trim <$> query_search q in
      let where_ := build_where industry valueChainStep department search in
      useCases ← prisma (findMany where_ skip limit);
      total ← prisma (count where_);
      let totalPages := ceil_div total limit in
      mret {| status := 200;
              body := ListBody
                {| data := useCases;
                   pagination :=
                     {| page := page;
                        limit := limit;
                        total := total;
                        totalPages := totalPages;
                        hasNext := page <? totalPages;
                        hasPrev := 1 <? page |};
                   filters :=
                     {| filters_industry := industry;
                        filters_valueChainStep := valueChainStep;
                        filters_department := department;
                        filters_search := search |} |} |}
  | _, _ => throw (PrismaClientValidationError "Invalid value for argument")
  end.

(** The distinct non-null values of a column in ascending order, without
    the empty string. *)
Definition distinct_asc (c : Column) (rows : list UseCase) : list string :=
  filter (fun s => Str.truthy s = true)
    (merge_sort String.le (remove_dups (omap (column c) rows))).

(** GET /api/use-cases/filters.  The three queries carry no parameter and
    compare no text. *)
Definition listFilters : M Error Response :=
  fun db =>
    (db, inr {| status := 200;
                body := FilterOptionsBody
                          (distinct_asc ColIndustry (table db))
                          (distinct_asc ColValueChainStep (table db))
                          (distinct_asc ColDepartment (table db)) |}).

(** GET /api/use-cases/:id, after validation. *)
Definition getUseCase (idParam : string) : M Error Response :=
  match Num.parseInt idParam with
  | Some i =>
      useCase ← prisma (findUnique i);
      match useCase with
      | None => throw (NotFoundError "UseCase" i)
      | Some u => mret {| status := 200; body := ItemBody u |}
      end
  | None => throw (PrismaClientValidationError "Invalid value for argument")
  end.

Definition name_equals (name : string) : WhereInput :=
  {| where_columns := [(ColUseCase, Equals name)]; where_OR := None |}.

(** POST /api/use-cases, after validation. *)
Definition createUseCase (now : Z) (b : UseCaseCreateRequest) : M Error Response :=
  existing ← prisma (findFirst (name_equals (Str.trim (body_useCase b))));
  match existing with
  | Some _ => throw (AppError "A use case with this name already exists" 409)
  | None =>
      newUseCase ← prisma (create now
        {| data_useCase := Str.trim (body_useCase b);
           data_conceptDescription := Str.trim (body_conceptDescription b);
           data_concreteImplementation := Str.trim <$> body_concreteImplementation b;
           data_benefit := Str.trim <$> body_benefit b;
           data_industry := Str.trim <$> body_industry b;
           data_department := Str.trim <$> body_department b;
           data_valueChainStep := Str.trim <$> body_valueChainStep b;
           data_url := Str.trim <$> body_url b |});
      mret {| status := 201;
              body := CreatedBody "Use case created successfully" newUseCase |}
  end.

(** *** The application *)

(** A request after the body parsers.  [segments] is the path as it was
    sent, split at the slashes: the path /api/use-cases/7 is the list of
    api, use-cases and 7, and a final slash leaves an empty last segment. *)
Record Request : Type := mkRequest {
  method : string;
  segments : list string;
  x_api_key : option string;       (* the x-api-key header *)
  query : PaginationQuery;
  req_body : RawBody
}.

(** Express compares the fixed parts of a route without regard to case
    and lets a path end in one slash. *)
Definition is_literal (name segment : string) : bool :=
  String.eqb (Str.toLowerCase segment) name.

Fixpoint strip_slash (path : list string) : list string :=
  match path with
  | [] => []
  | [s] => if Str.truthy s then [s] else []
  | s :: rest => s :: strip_slash rest
  end.

(** [decodeURIComponent] on a path parameter.  A percent sign with two
    hexadecimal digits stands for a byte, and the bytes are read as UTF-8.
    [None] is the [URIError] of a malformed sequence, and also a sequence
    for a character above 255, which lies outside the characters of the
    model. *)
Definition hex_value (c : ascii) : option Z :=
  let n := Z.of_nat (nat_of_ascii c) in
  if Str.is_digit c then Some (n - 48)
  else if ((65 <=? n) && (n <=? 70))%bool then Some (n - 55)
  else if ((97 <=? n) && (n <=? 102))%bool then Some (n - 87)
  else None.

Definition escape_byte (h l : ascii) : option Z :=
  match hex_value h, hex_value l with
  | Some a, Some b => Some (16 * a + b)
  | _, _ => None
  end.

Definition chr (n : Z) : ascii := ascii_of_nat (Z.to_nat n).

Definition is_percent_sign (c : ascii) : bool := Ascii.eqb c "%".

Fixpoint decodeURIComponent (s : string) : option string :=
  match s with
  | EmptyString => Some EmptyString
  | String c rest =>
      if is_percent_sign c then
        match rest with
        | String h (String l rest') =>
            match escape_byte h l with
            | Some b =>
                if b <? 128 then String (chr b) <$> decodeURIComponent rest'
                else if ((b =? 194) || (b =? 195))%bool then
                  match rest' with
                  | String p (String h2 (String l2 rest'')) =>
                      if is_percent_sign p then
                        match escape_byte h2 l2 with
                        | Some b2 =>
                            if ((128 <=? b2) && (b2 <=? 191))%bool
                            then String (chr ((b - 192) * 64 + (b2 - 128)))
                                   <$> decodeURIComponent rest''
                            else None
                        | None => None
                        end
                      else None
                  | _ => None
                  end
                else None
            | None => None
            end
        | _ => None
        end
      else String c <$> decodeURIComponent rest
  end.

(** The routes in the order they are registered; an unmatched request
    falls through to the 404 handler.  (The message of the decoding error
    quotes the parameter; the quotation marks are left out.) *)
Definition router (now : Z) (req : Request) : M Error Response :=
  match strip_slash (segments req) with
  | [a] =>
      if (String.eqb (method req) "GET" && is_literal "health" a)%bool
      then mret {| status := 200; body := HealthBody now |}
      else throw (AppError "Route not found" 404)
  | [a; b] =>
      if (is_literal "api" a && is_literal "use-cases" b)%bool then
        if String.eqb (method req) "GET" then
          let q := sanitizeQuery (query req) in
          _ ← handleValidationErrors (paginationValidation q);
          listUseCases q
        else if String.eqb (method req) "POST" then
          let payload := sanitizeCreate (req_body req) in
          _ ← handleValidationErrors (createUseCaseValidation payload);
          createUseCase now payload
        else throw (AppError "Route not found" 404)
      else throw (AppError "Route not found" 404)
  | [a; b; c] =>
      if (is_literal "api" a && is_literal "use-cases" b
          && String.eqb (method req) "GET" && Str.truthy c)%bool then
        if is_literal "filters" c then listFilters
        else
          match decodeURIComponent c with
          | Some idParam =>
              _ ← handleValidationErrors (idParamValidation idParam);
              getUseCase idParam
          | None => throw (OtherError (String.append "Failed to decode param " c))
          end
      else throw (AppError "Route not found" 404)
  | _ => throw (AppError "Route not found" 404)
  end.

Definition under_api (req : Request) : bool :=
  match segments req with
  | a :: _ => is_literal "api" a
  | [] => false
  end.

(** The middleware stack after the body parsers: the API key check on
    /api, then the routes; whatever is passed to [next] as an error
    reaches the error handler. *)
Definition app (cfg : Config) (now : Z) (req : Request) (db : Db.t) : Db.t * Response :=
  let auth :=
    if under_api req then next_error (apiKeyAuthMiddleware cfg (method req) (x_api_key req))
    else None in
  match auth with
  | Some e => (db, errorHandler cfg e)
  | None =>
      match router now req db with
      | (db', inr r) => (db', r)
      | (db', inl e) => (db', errorHandler cfg e)
      end
  end.




Definition no_query : PaginationQuery := mkQuery None None None None None None.
Definition no_body : RawBody := mkRawBody None None None None None None None None.

Definition GET_use_cases (q : PaginationQuery) : Request :=
  {| method := "GET"; segments := ["api"; "use-cases"]; x_api_key := None;
     query := q; req_body := no_body |}.
Definition GET_use_case (i : string) : Request :=
  {| method := "GET"; segments := ["api"; "use-cases"; i]; x_api_key := None;
     query := no_query; req_body := no_body |}.
Definition POST_use_cases (key : option string) (b : RawBody) : Request :=
  {| method := "POST"; segments := ["api"; "use-cases"]; x_api_key := key;
     query := no_query; req_body := b |}.

End Http.

(* ===================================================================== *)
(** ** The CSV importer *)
(* ===================================================================== *)

Module Importer.
Import Db.

(** A parsed record of the file; a column may be missing from a row. *)
Record CsvRow : Type := mkCsvRow {
  csv_Use_Case : option string;
  csv_Concept_description : option string;
  csv_Concrete_implementation : option string;
  csv_Benefit : option string;
  csv_Industry : option string;
  csv_Department : option string;
  csv_Value_Chain_Step : option string;
  csv_URL : option string
}.

Record ErrorDetail : Type := mkErrorDetail { row : Z; reason : string }.

Record ImportStats : Type := mkStats {
  totalRows : Z;
  inserted : Z;
  skipped : Z;
  duplicates : Z;
  errors : Z;
  errorDetails : list ErrorDetail
}.

(** Trimmed value, or null when nothing is left. *)
Definition normalizeValue (value : option string) : option string :=
  match value with
  | None => None
  | Some v =>
      let trimmed := Str.trim v in
      if 0 <? Str.len trimmed then Some trimmed else None
  end.

Definition isValidUrl (url : string) : bool := Regex.test Regex.urlRegex url.

(** The state of a run: the store, the counters and the warnings
    written to the console. *)
Record Run : Type := mkRun {
  store : Db.t;
  stats : ImportStats;
  warnings : list Z                (* the rows with an invalid URL *)
}.

Definition add_skipped (rowNumber : Z) (why : string) (s : ImportStats) : ImportStats :=
  {| totalRows := totalRows s; inserted := inserted s; skipped := skipped s + 1;
     duplicates := duplicates s; errors := errors s;
     errorDetails := errorDetails s ++ [{| row := rowNumber; reason := why |}] |}.
Definition add_duplicate (s : ImportStats) : ImportStats :=
  {| totalRows := totalRows s; inserted := inserted s; skipped := skipped s;
     duplicates := duplicates s + 1; errors := errors s;
     errorDetails := errorDetails s |}.
Definition add_inserted (s : ImportStats) : ImportStats :=
  {| totalRows := totalRows s; inserted := inserted s + 1; skipped := skipped s;
     duplicates := duplicates s; errors := errors s;
     errorDetails := errorDetails s |}.
Definition add_error (rowNumber : Z) (why : string) (s : ImportStats) : ImportStats :=
  {| totalRows := totalRows s; inserted := inserted s; skipped := skipped s;
     duplicates := duplicates s; errors := errors s + 1;
     errorDetails := errorDetails s ++ [{| row := rowNumber; reason := why |}] |}.

(** [await prisma.useCase.f(...)] inside the loop: what the [catch]
    block sees of an error is its message. *)
Definition prisma {A} (call : M ClientError A) : M string A :=
  fun db =>
    match call db with
    | (db', inl e) => (db', inl (client_message e))
    | (db', inr a) => (db', inr a)
    end.

(** The store calls of one row: the existence check, then the insert.
    The result tells whether a row was inserted and whether its URL
    drew a warning. *)
Definition insertUnlessExists (now : Z) (useCase conceptDescription : string)
    (r : CsvRow) : M string (option bool) :=
  existing ← prisma (findFirst (Http.name_equals useCase));
  match existing with
  | Some _ => mret None
  | None =>
      let url := normalizeValue (csv_URL r) in
      let warn := (Http.truthy_opt url && negb (isValidUrl (default EmptyString url)))%bool in
      _ ← prisma (create now
        {| data_useCase := useCase;
           data_conceptDescription := conceptDescription;
           data_concreteImplementation := normalizeValue (csv_Concrete_implementation r);
           data_benefit := normalizeValue (csv_Benefit r);
           data_industry := normalizeValue (csv_Industry r);
           data_department := normalizeValue (csv_Department r);
           data_valueChainStep := normalizeValue (csv_Value_Chain_Step r);
           data_url := url |});
      mret (Some warn)
  end.

(** The body of the loop for the record at index [i].  (The recorded
    reasons name the column without the quotation marks of the source.) *)
Definition processRow (now : Z) (i : nat) (r : CsvRow) (st : Run) : Run :=
  let rowNumber := Z.of_nat i + 2 in
  let useCase := normalizeValue (csv_Use_Case r) in
  let conceptDescription := normalizeValue (csv_Concept_description r) in
  if negb (Http.truthy_opt useCase) then
    {| store := store st;
       stats := add_skipped rowNumber "Empty Use Case field" (stats st);
       warnings := warnings st |}
  else if negb (Http.truthy_opt conceptDescription) then
    {| store := store st;
       stats := add_skipped rowNumber "Empty Concept description field" (stats st);
       warnings := warnings st |}
  else
    match insertUnlessExists now (default EmptyString useCase)
            (default EmptyString conceptDescription) r (store st) with
    | (db, inr None) =>
        {| store := db; stats := add_duplicate (stats st); warnings := warnings st |}
    | (db, inr (Some warn)) =>
        {| store := db; stats := add_inserted (stats st);
           warnings := warnings st ++ (if warn then [rowNumber] else []) |}
    | (db, inl errorMessage) =>
        {| store := db; stats := add_error rowNumber errorMessage (stats st);
           warnings := warnings st |}
    end.

(** The loop over the records from index [i] on; [clock i] is the time
    at which the record at index [i] is processed.  [records] are the
    records the CSV parser yields, in the order of the file. *)
Fixpoint processRows (clock : nat -> Z) (i : nat) (records : list CsvRow) (st : Run) : Run :=
  match records with
  | [] => st
  | r :: rest => processRows clock (S i) rest (processRow (clock i) i r st)
  end.

Definition importUseCases (clock : nat -> Z) (records : list CsvRow) (db : Db.t) : Run :=
  processRows clock 0 records
    {| store := db;
       stats := {| totalRows := Z.of_nat (length records); inserted := 0; skipped := 0;
                   duplicates := 0; errors := 0; errorDetails := [] |};
       warnings := [] |}.


End Importer.

(* ===================================================================== *)
(** ** Sequential operation of the system *)
(* ===================================================================== *)

Module System.

(** What can change the store: an HTTP request served by the
    application at some time, and a run of the importer over a file. *)
Inductive Op : Type :=
| Serve (now : Z) (req : Http.Request)
| RunImport (clock : nat -> Z) (records : list Importer.CsvRow).

Definition step (cfg : Http.Config) (db : Db.t) (op : Op) : Db.t :=
  match op with
  | Serve now req => fst (Http.app cfg now req db)
  | RunImport clock records => Importer.store (Importer.importUseCases clock records db)
  end.

Definition run (cfg : Http.Config) (ops : list Op) (db : Db.t) : Db.t :=
  fold_left (step cfg) ops db.

End System.

(* ===================================================================== *)
(** ** Vocabulary of the properties *)
(* ===================================================================== *)

Module Props.
Import Db Http.

(** The filter the list handler queries the store with. *)
Definition list_where (q : PaginationQuery) : WhereInput :=
  build_where (Str.trim <$> query_industry q) (Str.trim <$> query_valueChainStep q)
    (Str.trim <$> query_department q) (Str.trim <$> query_search q).

(** Equality and containment up to case. *)
Definition ci_equals (a b : string) : bool :=
  String.eqb (Str.toLowerCase a) (Str.toLowerCase b).
Definition ci_contains (needle s : string) : bool :=
  Str.includes (Str.toLowerCase needle) (Str.toLowerCase s).

(** A text that ILIKE takes literally when it is used as a pattern, and
    that can be sent to the database: it holds no percent sign, no
    underscore, no backslash and no zero character. *)
Definition literal_char (c : ascii) : bool :=
  negb (is_percent c || is_underscore c || is_backslash c || is_nul c).
Definition literal (s : string) : bool := Str.every literal_char s.

(** A filter under the literal reading of its value: equality and
    containment up to case. *)
Definition filter_reads (f : StringFilter) (v : option string) : bool :=
  match v with
  | None => false
  | Some s =>
      match f with
      | Equals x => ci_equals s x
      | Contains x => ci_contains x s
      end
  end.
Definition cond_reads (r : UseCase) (c : Cond) : bool :=
  filter_reads (snd c) (column (fst c) r).
Definition where_reads (w : WhereInput) (r : UseCase) : bool :=
  (forallb (cond_reads r) (where_columns w) &&
     match where_OR w with
     | None => true
     | Some cs => existsb (cond_reads r) cs
     end)%bool.

(** The value of the condition is taken literally; a [contains] of the
    program never carries an empty value. *)
Definition literal_cond (c : Cond) : bool :=
  match snd c with
  | Equals v => literal v
  | Contains v => (literal v && Str.truthy v)%bool
  end.
Definition literal_where (w : WhereInput) : bool :=
  forallb literal_cond (where_columns w ++ default [] (where_OR w)).



(** The rows of the table that pass the filters of [q] under the literal
    reading, in the order of the table. *)
Definition matched (q : PaginationQuery) (db : Db.t) : list UseCase :=
  filter (fun r => where_reads (list_where q) r = true) (table db).

(** The rows the filters of [q] select, in the order of the table; none
    when the query fails. *)
Definition selected (q : PaginationQuery) (db : Db.t) : list UseCase :=
  match select (list_where q) (table db) with
  | inr l => l
  | inl _ => []
  end.

(** The rows the filters of [q] select, newest first. *)
Definition matching (q : PaginationQuery) (db : Db.t) : list UseCase :=
  orderBy_createdAt_desc (selected q db).

Definition page_of (q : PaginationQuery) : option Z :=
  Num.parseInt (default "1" (query_page q)).
Definition limit_of (q : PaginationQuery) : option Z :=
  Num.parseInt (default "20" (query_limit q)).

(** The page and the limit are such that [skip] is an integer that
    JavaScript computes exactly. *)
Definition in_range (p l : Z) : Prop := (p - 1) * l <= Num.MAX_SAFE_INTEGER.

(** The answer of the list handler to the query [q] for page [p] and
    limit [l] when the filters select the rows [sel]. *)
Definition list_response (q : PaginationQuery) (p l : Z) (sel : list UseCase) : Response :=
  {| status := 200;
     body := ListBody
       {| data := take (Z.to_nat l)
                    (drop (Z.to_nat ((p - 1) * l)) (orderBy_createdAt_desc sel));
          pagination :=
            {| page := p; limit := l;
               total := Z.of_nat (length sel);
               totalPages := ceil_div (Z.of_nat (length sel)) l;
               hasNext := p <? ceil_div (Z.of_nat (length sel)) l;
               hasPrev := 1 <? p |};
          filters :=
            {| filters_industry := Str.trim <$> query_industry q;
               filters_valueChainStep := Str.trim <$> query_valueChainStep q;
               filters_department := Str.trim <$> query_department q;
               filters_search := Str.trim <$> query_search q |} |} |}.

(** The query [q] asked for another page. *)
Definition with_page (p : string) (q : PaginationQuery) : PaginationQuery :=
  {| query_page := Some p;
     query_limit := query_limit q;
     query_industry := query_industry q;
     query_valueChainStep := query_valueChainStep q;
     query_department := query_department q;
     query_search := query_search q |}.

(** A stored row carries [name] up to case. *)
Definition name_taken (name : string) (db : Db.t) : bool :=
  existsb (fun r => ci_equals (useCase r) name) (table db).

(** The API key check lets a POST with header [key] through. *)
Definition authorized (cfg : Config) (key : option string) : bool :=
  match next_error (apiKeyAuthMiddleware cfg "POST" key) with
  | None => true
  | Some _ => false
  end.

(** The [data] the create endpoint passes to the store for body [b]. *)
Definition create_input (b : RawBody) : CreateInput :=
  {| data_useCase := Str.trim (default EmptyString (raw_useCase b));
     data_conceptDescription := Str.trim (default EmptyString (raw_conceptDescription b));
     data_concreteImplementation := Str.trim <$> raw_concreteImplementation b;
     data_benefit := Str.trim <$> raw_benefit b;
     data_industry := Str.trim <$> raw_industry b;
     data_department := Str.trim <$> raw_department b;
     data_valueChainStep := Str.trim <$> raw_valueChainStep b;
     data_url := Str.trim <$> raw_url b |}.

(** The row the create endpoint stores for body [b]. *)
Definition created_row (now : Z) (b : RawBody) (db : Db.t) : UseCase :=
  {| id := next_id db;
     useCase := Str.trim (default EmptyString (raw_useCase b));
     conceptDescription := Str.trim (default EmptyString (raw_conceptDescription b));
     concreteImplementation := Str.trim <$> raw_concreteImplementation b;
     benefit := Str.trim <$> raw_benefit b;
     industry := Str.trim <$> raw_industry b;
     department := Str.trim <$> raw_department b;
     valueChainStep := Str.trim <$> raw_valueChainStep b;
     url := Str.trim <$> raw_url b;
     createdAt := now;
     updatedAt := now |}.

Definition insert_row (r : UseCase) (db : Db.t) : Db.t :=
  {| table := table db ++ [r]; next_id := next_id db + 1 |}.

(** The texts of a create request can be sent to the database. *)
Definition storable_body (b : RawBody) : bool :=
  (storable_opt (raw_useCase b) && storable_opt (raw_conceptDescription b)
   && storable_opt (raw_concreteImplementation b) && storable_opt (raw_benefit b)
   && storable_opt (raw_industry b) && storable_opt (raw_department b)
   && storable_opt (raw_valueChainStep b) && storable_opt (raw_url b))%bool.

(** What the store guarantees of its primary key: ids are positive,
    distinct, below the next value of the sequence and within the 32 bits
    of the column. *)
Definition db_wf (db : Db.t) : Prop :=
  (1 <= next_id db <= INT4_MAX + 1) /\
  Forall (fun r => 1 <= id r /\ id r < next_id db) (table db) /\
  NoDup (id <$> table db).

(** The two invariants of the data model. *)
Definition required_present (db : Db.t) : Prop :=
  forall r, r ∈ table db ->
    Str.trim (useCase r) <> EmptyString /\ Str.trim (conceptDescription r) <> EmptyString.
Definition names_distinct (db : Db.t) : Prop :=
  forall (i j : nat) (r1 r2 : UseCase),
    table db !! i = Some r1 -> table db !! j = Some r2 -> i <> j ->
    ci_equals (useCase r1) (useCase r2) = false.

(** Two rows may share a name up to case only when the name holds a
    character that ILIKE does not take literally. *)
Definition literal_names_distinct (db : Db.t) : Prop :=
  forall (i j : nat) (r1 r2 : UseCase),
    table db !! i = Some r1 -> table db !! j = Some r2 -> i <> j ->
    ci_equals (useCase r1) (useCase r2) = true ->
    literal (useCase r1) = false /\ literal (useCase r2) = false.

(** A filter parameter as the list handler uses it: trimmed, and not
    applied at all when nothing is left. *)
Definition effective (v : option string) : option string :=
  match v with
  | Some s => if Str.truthy (Str.trim s) then Some (Str.trim s) else None
  | None => None
  end.

Definition equals_filter (param field : option string) : Prop :=
  forall v, effective param = Some v ->
    exists f, field = Some f /\ ci_equals f v = true.

Definition search_filter (param : option string) (r : UseCase) : Prop :=
  forall s, effective param = Some s ->
    ci_contains s (useCase r) = true \/
    ci_contains s (conceptDescription r) = true \/
    (exists b, benefit r = Some b /\ ci_contains s b = true).

(** Every filter parameter that is applied is taken literally. *)
Definition literal_param (param : option string) : Prop :=
  forall v, effective param = Some v -> literal v = true.
Definition literal_query (q : PaginationQuery) : Prop :=
  literal_param (query_industry q) /\ literal_param (query_valueChainStep q) /\
  literal_param (query_department q) /\ literal_param (query_search q).

(** The row [r] passes every filter of the query [q]. *)
Definition satisfies (q : PaginationQuery) (r : UseCase) : Prop :=
  equals_filter (query_industry q) (industry r) /\
  equals_filter (query_valueChainStep q) (valueChainStep r) /\
  equals_filter (query_department q) (department r) /\
  search_filter (query_search q) r.

(** The filter as the specification words it: every supplied parameter
    is compared as it was supplied. *)
Definition stated_equals (param field : option string) : bool :=
  match param with
  | None => true
  | Some v => match field with Some f => ci_equals f v | None => false end
  end.
Definition stated_search (param : option string) (r : UseCase) : bool :=
  match param with
  | None => true
  | Some s =>
      (ci_contains s (useCase r) || ci_contains s (conceptDescription r)
       || match benefit r with Some b => ci_contains s b | None => false end)%bool
  end.
Definition stated_filter (q : PaginationQuery) (r : UseCase) : bool :=
  (stated_equals (query_industry q) (industry r)
   && stated_equals (query_valueChainStep q) (valueChainStep r)
   && stated_equals (query_department q) (department r)
   && stated_search (query_search q) r)%bool.

(** The importer's view of a record: its normalized name and
    description, and whether both are present. *)
Definition row_name (r : Importer.CsvRow) : option string :=
  Importer.normalizeValue (Importer.csv_Use_Case r).
Definition row_description (r : Importer.CsvRow) : option string :=
  Importer.normalizeValue (Importer.csv_Concept_description r).
Definition valid_row (r : Importer.CsvRow) : bool :=
  (truthy_opt (row_name r) && truthy_opt (row_description r))%bool.
Definition valid_count (records : list Importer.CsvRow) : Z :=
  Z.of_nat (length (filter (fun r => valid_row r = true) records)).

(** The [data] the importer passes to the store for the record [r]. *)
Definition import_input (r : Importer.CsvRow) : CreateInput :=
  {| data_useCase := default EmptyString (row_name r);
     data_conceptDescription := default EmptyString (row_description r);
     data_concreteImplementation :=
       Importer.normalizeValue (Importer.csv_Concrete_implementation r);
     data_benefit := Importer.normalizeValue (Importer.csv_Benefit r);
     data_industry := Importer.normalizeValue (Importer.csv_Industry r);
     data_department := Importer.normalizeValue (Importer.csv_Department r);
     data_valueChainStep := Importer.normalizeValue (Importer.csv_Value_Chain_Step r);
     data_url := Importer.normalizeValue (Importer.csv_URL r) |}.

(** The row the importer stores for the record [r]. *)
Definition imported_row (now : Z) (r : Importer.CsvRow) (db : Db.t) : UseCase :=
  {| id := next_id db;
     useCase := default EmptyString (row_name r);
     conceptDescription := default EmptyString (row_description r);
     concreteImplementation :=
       Importer.normalizeValue (Importer.csv_Concrete_implementation r);
     benefit := Importer.normalizeValue (Importer.csv_Benefit r);
     industry := Importer.normalizeValue (Importer.csv_Industry r);
     department := Importer.normalizeValue (Importer.csv_Department r);
     valueChainStep := Importer.normalizeValue (Importer.csv_Value_Chain_Step r);
     url := Importer.normalizeValue (Importer.csv_URL r);
     createdAt := now;
     updatedAt := now |}.

(** The importer warns about the URL of the record [r]. *)
Definition url_warning (r : Importer.CsvRow) : bool :=
  match Importer.normalizeValue (Importer.csv_URL r) with
  | Some u => negb (Importer.isValidUrl u)
  | None => false
  end.

(** The texts of a record can be sent to the database. *)
Definition storable_row (r : Importer.CsvRow) : bool :=
  (storable_opt (Importer.csv_Use_Case r) && storable_opt (Importer.csv_Concept_description r)
   && storable_opt (Importer.csv_Concrete_implementation r)
   && storable_opt (Importer.csv_Benefit r) && storable_opt (Importer.csv_Industry r)
   && storable_opt (Importer.csv_Department r)
   && storable_opt (Importer.csv_Value_Chain_Step r) && storable_opt (Importer.csv_URL r))%bool.


(** A path segment that reaches a route as it is: it is not empty and
    holds no slash, question mark, number sign or percent sign. *)
Definition plain_segment (s : string) : bool :=
  (Str.truthy s &&
   Str.every (fun c => negb (Ascii.eqb c "/" || Ascii.eqb c "?" || Ascii.eqb c "#"
                             || Ascii.eqb c "%")) s)%bool.

(** The invariant of the store in the form that insertion preserves. *)
Definition store_inv (db : Db.t) : Prop :=
  required_present db /\ literal_names_distinct db /\ db_wf db.

End Props.

(* ===================================================================== *)
(** ** Concrete requests, files and stores *)
(* ===================================================================== *)

Module Fixtures.
Import Db Http.

Definition cfg : Config := {| API_KEY := "secret"; NODE_ENV := "production" |}.
Definition open_cfg : Config := {| API_KEY := EmptyString; NODE_ENV := "production" |}.

Definition maintenance : RawBody :=
  mkRawBody (Some "Predictive Maintenance") (Some "Use ML to predict failures")
    None None None None None None.
Definition maintenance_shouted : RawBody :=
  mkRawBody (Some "  PREDICTIVE MAINTENANCE ") (Some "Predict failures before they occur")
    None None None None None None.
Definition maintenance_bad_url : RawBody :=
  mkRawBody (Some "Predictive Maintenance") (Some "Use ML to predict failures")
    None None None None None (Some "not a url").

Definition maintenance_row : UseCase :=
  {| id := 1; useCase := "Predictive Maintenance";
     conceptDescription := "Use ML to predict failures";
     concreteImplementation := None; benefit := None; industry := None;
     department := None; valueChainStep := None; url := None;
     createdAt := 100; updatedAt := 100 |}.

Definition retail_row : UseCase :=
  {| id := 1; useCase := "Dynamic Pricing";
     conceptDescription := "Adjust prices to demand";
     concreteImplementation := None; benefit := None; industry := Some "Retail";
     department := None; valueChainStep := None; url := None;
     createdAt := 100; updatedAt := 100 |}.
Definition retail_db : Db.t := {| table := [retail_row]; next_id := 2 |}.

(** The query string [?industry=]: the parameter is supplied and empty. *)
Definition empty_industry : PaginationQuery :=
  mkQuery None None (Some EmptyString) None None None.
Definition search_pricing : PaginationQuery :=
  mkQuery (Some "1") (Some "10") (Some " retail ") None None (Some "PRICING").

Definition csv_pricing : Importer.CsvRow :=
  Importer.mkCsvRow (Some "Dynamic Pricing") (Some "Adjust prices to demand")
    None None (Some "Retail") None None (Some "see intranet").
Definition csv_pricing_again : Importer.CsvRow :=
  Importer.mkCsvRow (Some " dynamic pricing ") (Some "The same use case once more")
    None None None None None None.
Definition csv_nameless : Importer.CsvRow :=
  Importer.mkCsvRow (Some "   ") (Some "A row without a name") None None None None None None.

(** A file that names the same use case in two rows. *)
Definition csv_file : list Importer.CsvRow := [csv_pricing; csv_pricing_again; csv_nameless].

Definition noon : nat -> Z := fun i => 1000 + Z.of_nat i.
Definition later : nat -> Z := fun i => 2000 + Z.of_nat i.


Definition key : option string := Some "secret".
Definition wrong_key : option string := Some "Secret".

Definition maintenance_db : Db.t := {| table := [maintenance_row]; next_id := 2 |}.


End Fixtures.

(* ===================================================================== *)
(** ** The language of a pattern *)
(* ===================================================================== *)

Module RegexSem.
Import Regex.

(** The strings a pattern denotes. *)
Inductive lang : re -> string -> Prop :=
| lang_eps : lang Eps EmptyString
| lang_class (p : ascii -> bool) (c : ascii) :
    p c = true -> lang (Class p) (String c EmptyString)
| lang_alt_l (a b : re) (s : string) : lang a s -> lang (Alt a b) s
| lang_alt_r (a b : re) (s : string) : lang b s -> lang (Alt a b) s
| lang_seq (a b : re) (s1 s2 : string) :
    lang a s1 -> lang b s2 -> lang (Seq a b) (String.append s1 s2)
| lang_star_nil (a : re) : lang (Star a) EmptyString
| lang_star_step (a : re) (s1 s2 : string) :
    lang a s1 -> lang (Star a) s2 -> lang (Star a) (String.append s1 s2).

(** Every character class of the pattern lies within [P]. *)
Fixpoint classes_in (P : ascii -> bool) (r : re) : Prop :=
  match r with
  | Void | Eps => True
  | Class p => forall c, p c = true -> P c = true
  | Alt a b | Seq a b => classes_in P a /\ classes_in P b
  | Star a => classes_in P a
  end.

Fixpoint all_chars (P : ascii -> bool) (s : string) : bool :=
  match s with
  | EmptyString => true
  | String c s' => (P c && all_chars P s')%bool
  end.

(** The characters that occur in the URL pattern: letters, digits and
    the colon, slash, dot, underscore, dash and space. *)
Definition url_char (c : ascii) : bool :=
  (is_letter c || Str.is_digit c || is_char ":" c || is_char "/" c || is_char "." c
   || is_char "_" c || is_char "-" c || is_char " " c)%bool.

End RegexSem.

(* ===================================================================== *)
(** ** The single-page client *)
(* ===================================================================== *)

Module Client.
Import Http.

(** The state of the creation form: every field is a string. *)
Record FormData : Type := mkFormData {
  form_useCase : string;
  form_conceptDescription : string;
  form_concreteImplementation : string;
  form_benefit : string;
  form_industry : string;
  form_department : string;
  form_valueChainStep : string;
  form_url : string
}.

(** The keys [validateForm] may set on the error object. *)
Record FormErrors : Type := mkFormErrors {
  errors_useCase : option string;
  errors_conceptDescription : option string;
  errors_url : option string
}.

Definition newErrors (formData : FormData) : FormErrors :=
  {| errors_useCase :=
       if negb (Str.truthy (Str.trim (form_useCase formData)))
       then Some "Use case name is required"
       else if Str.len (Str.trim (form_useCase formData)) <? 3
            then Some "Use case name must be at least 3 characters"
            else None;
     errors_conceptDescription :=
       if negb (Str.truthy (Str.trim (form_conceptDescription formData)))
       then Some "Concept description is required"
       else if Str.len (Str.trim (form_conceptDescription formData)) <? 10
            then Some "Description must be at least 10 characters"
            else None;
     errors_url :=
       if Str.truthy (Str.trim (form_url formData))
       then if negb (Regex.test Regex.urlRegex (Str.trim (form_url formData)))
            then Some "Please enter a valid URL"
            else None
       else None |}.

(** [validateForm]: no key was set on the error object. *)
Definition validateForm (formData : FormData) : bool :=
  match newErrors formData with
  | {| errors_useCase := None; errors_conceptDescription := None; errors_url := None |} =>
      true
  | _ => false
  end.

(** [s || undefined] *)
Definition or_undefined (s : string) : option string :=
  if Str.truthy s then Some s else None.

(** The JSON body [handleSubmit] sends; a key whose value is undefined is
    left out. *)
Definition requestBody (formData : FormData) : RawBody :=
  {| raw_useCase := Some (Str.trim (form_useCase formData));
     raw_conceptDescription := Some (Str.trim (form_conceptDescription formData));
     raw_concreteImplementation :=
       or_undefined (Str.trim (form_concreteImplementation formData));
     raw_benefit := or_undefined (Str.trim (form_benefit formData));
     raw_industry := or_undefined (Str.trim (form_industry formData));
     raw_department := or_undefined (Str.trim (form_department formData));
     raw_valueChainStep := or_undefined (Str.trim (form_valueChainStep formData));
     raw_url := or_undefined (Str.trim (form_url formData)) |}.

(** [handleSubmit]: the request that is sent, if the form is valid. *)
Definition handleSubmit (formData : FormData) : option Request :=
  if validateForm formData
  then Some (POST_use_cases (Some "demo-api-key") (requestBody formData))
  else None.

(** The pagination control: the page each button asks for, when the
    button is enabled. *)
Definition previous_page (p : Pagination) : option Z :=
  if hasPrev p then Some (page p - 1) else None.
Definition next_page (p : Pagination) : option Z :=
  if hasNext p then Some (page p + 1) else None.

(** The explore page renders the control below a page that has rows when
    there is more than one page. *)
Definition shows_pagination (r : PaginatedResponse) : bool :=
  (negb (Nat.eqb (length (data r)) 0) && (1 <? totalPages (pagination r)))%bool.

(** The landing page asks for one row and shows the total. *)
Definition stats_query : PaginationQuery := mkQuery None (Some "1") None None None None.
Definition response_ok (r : Response) : bool := ((200 <=? status r) && (status r <=? 299))%bool.
Definition fetchStats (r : Response) : option Z :=
  if response_ok r then
    match body r with
    | ListBody l => Some (total (pagination l))
    | _ => None
    end
  else None.

End Client.

(* ===================================================================== *)
(** ** Further vocabulary *)
(* ===================================================================== *)

Module Terms.
Import Db Http.



Definition GET_filters : Request :=
  {| method := "GET"; segments := ["api"; "use-cases"; "filters"]; x_api_key := None;
     query := no_query; req_body := no_body |}.


(** The texts the error handler answers with when the error is not one
    of the application's own. *)
Definition fixed_error_texts : list string :=
  ["Duplicate entry: A record with this value already exists";
   "Record not found";
   "Invalid data provided";
   "An unexpected error occurred"].

(** The bounds of the create endpoint on a body. *)
Definition within (lo hi : Z) (v : option string) : Prop :=
  forall s, v = Some s -> lo <= Str.len (Str.trim s) <= hi.
Definition required_within (lo hi : Z) (v : option string) : Prop :=
  exists s, v = Some s /\ lo <= Str.len (Str.trim s) <= hi.
Definition url_ok (v : option string) : Prop :=
  forall s, v = Some s ->
    Str.trim s = EmptyString \/ Regex.test Regex.urlRegex (Str.trim s) = true.

(** The upper bounds of the create endpoint, on the fields of the form. *)
Definition form_within_bounds (f : Client.FormData) : Prop :=
  Str.len (Str.trim (Client.form_useCase f)) <= 500 /\
  Str.len (Str.trim (Client.form_conceptDescription f)) <= 10000 /\
  Str.len (Str.trim (Client.form_concreteImplementation f)) <= 10000 /\
  Str.len (Str.trim (Client.form_benefit f)) <= 5000 /\
  Str.len (Str.trim (Client.form_industry f)) <= 200 /\
  Str.len (Str.trim (Client.form_department f)) <= 200 /\
  Str.len (Str.trim (Client.form_valueChainStep f)) <= 200.

(** The texts of the form can be sent to the database. *)
Definition storable_form (f : Client.FormData) : bool :=
  (storable (Client.form_useCase f) && storable (Client.form_conceptDescription f)
   && storable (Client.form_concreteImplementation f) && storable (Client.form_benefit f)
   && storable (Client.form_industry f) && storable (Client.form_department f)
   && storable (Client.form_valueChainStep f) && storable (Client.form_url f))%bool.

(** A blank field of the form is stored as null, any other as its
    trimmed text. *)
Definition stored_optional (field : string) : option string :=
  if Str.truthy (Str.trim field) then Some (Str.trim field) else None.


End Terms.

(* ===================================================================== *)
(** ** Further concrete inputs *)
(* ===================================================================== *)

Module Samples.
Import Db Http.

Definition pricing_stored : UseCase :=
  {| id := 1; useCase := "Dynamic Pricing";
     conceptDescription := "Adjust prices to demand";
     concreteImplementation := None; benefit := None; industry := Some "Retail";
     department := None; valueChainStep := None; url := Some "see intranet";
     createdAt := 1000; updatedAt := 1000 |}.

Definition pricing_shouted : RawBody :=
  mkRawBody (Some " DYNAMIC PRICING ") (Some "Prices that follow demand")
    None None None None None None.


Definition row_at (i t : Z) (name : string) : UseCase :=
  {| id := i; useCase := name; conceptDescription := "A description of the use case";
     concreteImplementation := None; benefit := None; industry := None;
     department := None; valueChainStep := None; url := None;
     createdAt := t; updatedAt := t |}.

(** A table of three rows. *)
Definition three_db : Db.t :=
  {| table := [row_at 1 10 "First use case"; row_at 2 20 "Second use case";
               row_at 3 30 "Third use case"];
     next_id := 4 |}.

Definition first_of_two : PaginationQuery := mkQuery (Some "1") (Some "2") None None None None.
Definition second_of_two : PaginationQuery := mkQuery (Some "2") (Some "2") None None None None.
Definition blank_filters : PaginationQuery :=
  mkQuery None None (Some "  ") None None (Some EmptyString).
Definition search_maintenance : PaginationQuery :=
  mkQuery None None None None None (Some "maintenance").

Definition form : Client.FormData :=
  Client.mkFormData " Predictive Maintenance " "Use ML to predict failures"
    EmptyString "  " "Manufacturing" EmptyString EmptyString EmptyString.

Definition demo_cfg : Config := {| API_KEY := "demo-api-key"; NODE_ENV := "production" |}.


(** A name with a backslash: as a pattern it stands for ACDC. *)
Definition escaped : RawBody :=
  mkRawBody (Some "AC\DC") (Some "A name with a backslash")
    None None None None None None.


Definition third_of_two : PaginationQuery := mkQuery (Some "3") (Some "2") None None None None.

End Samples.

(* ===================================================================== *)
(** * Properties *)
(* ===================================================================== *)

(** Runs the store computations of a handler. *)
Ltac run_store :=
  repeat (progress (unfold mbind, Db.M_bind, Db.bind, mret, Db.M_ret, Db.ret, Db.throw,
                      Http.prisma, Importer.prisma, Db.findFirst, Db.findUnique,
                      Db.findMany, Db.count, Db.query; simpl)).

Example trim_example : Str.trim "  Predictive Maintenance  " = "Predictive Maintenance".
Proof. reflexivity. Qed.
Example replace_example :
  Str.replace "ERROR" "_ERROR" (Str.toUpperCase "NotFoundError") = "NOTFOUND_ERROR".
Proof. reflexivity. Qed.
Example parseInt_example : Num.parseInt " +042abc" = Some 42.
Proof. reflexivity. Qed.
Example of_Z_example : Str.of_Z 42 = "42".
Proof. reflexivity. Qed.
Example urlRegex_accepts : Regex.test Regex.urlRegex "https://Example.com/a b/c_d.html" = true.
Proof. vm_compute. reflexivity. Qed.
Example urlRegex_rejects : Regex.test Regex.urlRegex "not a url" = false.
Proof. vm_compute. reflexivity. Qed.
Example urlRegex_rejects_query : Regex.test Regex.urlRegex "http://example.com/?q=1" = false.
Proof. vm_compute. reflexivity. Qed.
Example ilike_example : Db.ilike "dynamic_pricing" "Dynamic Pricing" = inr true.
Proof. reflexivity. Qed.
Example ilike_escape_example : Db.ilike "AC\DC" "AC\DC" = inr false.
Proof. reflexivity. Qed.
Example decodeURIComponent_example : Http.decodeURIComponent "%31%30" = Some "10".
Proof. reflexivity. Qed.

Section StrFacts.
Import Str.

Lemma trimStart_head (s : string) :
  trimStart s = EmptyString \/
  exists c t, trimStart s = String c t /\ isWhiteSpace c = false.
Proof.
  induction s as [|c s IH]; simpl; [by left|].
  destruct (isWhiteSpace c) eqn:Hc; [done|]. right. by exists c, s.
Qed.

Lemma trimEnd_cons_keep (c : ascii) (s : string) :
  isWhiteSpace c = false -> trimEnd (String c s) = String c (trimEnd s).
Proof. intros Hc. simpl. rewrite Hc. by destruct (trimEnd s). Qed.

Lemma trimEnd_idem (s : string) : trimEnd (trimEnd s) = trimEnd s.
Proof.
  induction s as [|c s IH]; [done|]. simpl.
  destruct (trimEnd s) as [|d t] eqn:Ht.
  - destruct (isWhiteSpace c) eqn:Hc; [done|]. simpl. by rewrite Hc.
  - simpl in *. by rewrite IH.
Qed.

Lemma trim_idem (s : string) : trim (trim s) = trim s.
Proof.
  unfold trim. destruct (trimStart_head s) as [->|(c & t & -> & Hc)]; [done|].
  rewrite trimEnd_cons_keep by done. simpl. rewrite Hc.
  rewrite trimEnd_cons_keep by done. by rewrite trimEnd_idem.
Qed.

Lemma truthy_true (s : string) : truthy s = true <-> s <> EmptyString.
Proof. by destruct s. Qed.

Lemma truthy_len (s : string) : truthy s = (0 <? len s).
Proof. destruct s; [done|]. unfold len. simpl. symmetry. apply Z.ltb_lt. lia. Qed.
End StrFacts.
Section NumFacts.
Import Num.

Lemma digits_all (s : string) (acc : Z) (seen : bool) :
  all_digits s = true -> (seen || Str.truthy s)%bool = true ->
  is_Some (digits acc seen s).
Proof.
  revert acc seen. induction s as [|c s IH]; intros acc seen Hall Hne; simpl in *.
  - rewrite orb_false_r in Hne. subst. by eexists.
  - apply andb_true_iff in Hall as [Hc Hs]. rewrite Hc. by apply IH.
Qed.

Lemma sign_or_digit_not_space (c : ascii) :
  (is_minus c || is_plus c || Str.is_digit c)%bool = true -> Str.isWhiteSpace c = false.
Proof. destruct c as [[] [] [] [] [] [] [] []]; by vm_compute. Qed.

Lemma int_shape_trimStart (s : string) : int_shape s = true -> Str.trimStart s = s.
Proof.
  destruct s as [|c s]; [done|]. simpl. intros H.
  rewrite sign_or_digit_not_space; [done|].
  destruct (is_minus c), (is_plus c); try done. simpl in *.
  by apply andb_true_iff in H as [-> _].
Qed.

(** On a string that [isInt] accepts, [parseInt] returns the number that
    [isInt] compared with the bounds. *)
Lemma parseInt_of_int_shape (s : string) :
  int_shape s = true -> parseInt s = Some (toNumber s).
Proof.
  intros H. unfold parseInt. rewrite int_shape_trimStart by done.
  destruct s as [|c s]; [done|]. simpl in *.
  destruct (is_minus c); simpl in H.
  { apply andb_true_iff in H as [Hne Hall].
    destruct (digits_all s 0 false Hall) as [n ->]; done. }
  destruct (is_plus c); simpl in H.
  { apply andb_true_iff in H as [Hne Hall].
    destruct (digits_all s 0 false Hall) as [n ->]; done. }
  destruct (digits_all (String c s) 0 false H) as [n Hn]; [done|].
  simpl in Hn. by rewrite Hn.
Qed.

Lemma isInt_parseInt (lo : Z) (hi : option Z) (s : string) :
  isInt lo hi s = true ->
  exists n, parseInt s = Some n /\ lo <= n /\
            match hi with Some m => n <= m | None => True end.
Proof.
  unfold isInt. intros H.
  apply andb_true_iff in H as [H Hhi]. apply andb_true_iff in H as [Hshape Hlo].
  exists (toNumber s). split; [by apply parseInt_of_int_shape|].
  split; [lia|]. destruct hi; [lia|done].
Qed.

Lemma ceil_div_bounds (a b : Z) :
  0 < b -> (Http.ceil_div a b - 1) * b < a <= Http.ceil_div a b * b.
Proof.
  intros Hb. unfold Http.ceil_div.
  pose proof (Z.div_mod (- a) b ltac:(lia)) as Hdm.
  pose proof (Z.mod_pos_bound (- a) b Hb). nia.
Qed.

End NumFacts.

Section CharFacts.
Import Str Db Props.

(** A check of all 256 characters. *)
Lemma forall_ascii_spec (f : ascii -> bool) :
  forallb f (map ascii_of_nat (List.seq 0%nat 256%nat)) = true -> forall c, f c = true.
Proof.
  intros H c. rewrite forallb_forall in H. apply H.
  rewrite <- (ascii_nat_embedding c). apply in_map, in_seq.
  pose proof (nat_ascii_bounded c). lia.
Qed.

Lemma ascii_check (f g : ascii -> bool) :
  forallb (fun c => Bool.eqb (f c) (g c)) (map ascii_of_nat (List.seq 0%nat 256%nat)) = true ->
  forall c, f c = g c.
Proof. intros H c. apply Bool.eqb_prop. apply (forall_ascii_spec _ H c). Qed.

Lemma literal_char_lower (c : ascii) : literal_char (lower_char c) = literal_char c.
Proof. revert c. apply ascii_check. vm_compute. reflexivity. Qed.


Lemma lower_char_idem (c : ascii) : lower_char (lower_char c) = lower_char c.
Proof.
  apply Ascii.eqb_eq. revert c. apply forall_ascii_spec. vm_compute. reflexivity.
Qed.

Lemma every_lower (f : ascii -> bool) (s : string) :
  (forall c, f (lower_char c) = f c) -> every f (toLowerCase s) = every f s.
Proof.
  intros Hf. unfold toLowerCase. induction s as [|c s IH]; simpl; [done|].
  by rewrite Hf, IH.
Qed.

Lemma literal_lower (s : string) : literal (toLowerCase s) = literal s.
Proof. apply every_lower, literal_char_lower. Qed.


Lemma toLowerCase_idem (s : string) : toLowerCase (toLowerCase s) = toLowerCase s.
Proof.
  unfold toLowerCase. induction s as [|c s IH]; simpl; [done|].
  by rewrite lower_char_idem, IH.
Qed.

Lemma every_impl (f g : ascii -> bool) (s : string) :
  (forall c, f c = true -> g c = true) -> every f s = true -> every g s = true.
Proof.
  intros Hfg. induction s as [|c s IH]; simpl; [done|].
  intros [Hc Hs]%andb_true_iff. by rewrite (Hfg c Hc), IH.
Qed.

Lemma literal_storable (s : string) : literal s = true -> storable s = true.
Proof.
  apply every_impl. intros c. unfold literal_char.
  rewrite negb_true_iff, !orb_false_iff. by intros (_ & ->).
Qed.

Lemma length_lower (s : string) : String.length (toLowerCase s) = String.length s.
Proof. unfold toLowerCase. induction s as [|c s IH]; simpl; [done|]. by rewrite IH. Qed.

Lemma toLowerCase_append (a b : string) :
  toLowerCase (String.append a b) = String.append (toLowerCase a) (toLowerCase b).
Proof.
  induction a as [|c a IH]; [reflexivity|].
  change (String (lower_char c) (toLowerCase (String.append a b)) =
          String (lower_char c) (String.append (toLowerCase a) (toLowerCase b))).
  by rewrite IH.
Qed.

Lemma every_trimStart (f : ascii -> bool) (s : string) :
  every f s = true -> every f (trimStart s) = true.
Proof.
  induction s as [|c s IH]; simpl; [done|]. intros H.
  destruct (isWhiteSpace c); [|done]. apply andb_true_iff in H as [_ H]. by apply IH.
Qed.

Lemma every_trimEnd (f : ascii -> bool) (s : string) :
  every f s = true -> every f (trimEnd s) = true.
Proof.
  induction s as [|c s IH]; simpl; [done|]. intros [Hc Hs]%andb_true_iff.
  specialize (IH Hs). destruct (trimEnd s) as [|d t].
  - destruct (isWhiteSpace c); simpl; [done|]. by rewrite Hc.
  - simpl in *. by rewrite Hc, IH.
Qed.

Lemma every_trim (f : ascii -> bool) (s : string) :
  every f s = true -> every f (trim s) = true.
Proof. intros H. by apply every_trimEnd, every_trimStart. Qed.

Lemma literal_char_plain (c : ascii) :
  literal_char c = true ->
  is_backslash c = false /\ is_percent c = false /\ is_underscore c = false.
Proof.
  unfold literal_char. rewrite negb_true_iff, !orb_false_iff. tauto.
Qed.

Lemma startsWith_length (w x : string) :
  startsWith w x = true -> (String.length w <= String.length x)%nat.
Proof.
  revert x. induction w as [|c w IH]; intros x; simpl; [lia|].
  destruct x as [|a x]; [done|]. intros [_ H]%andb_true_iff. simpl.
  specialize (IH x H). lia.
Qed.

Lemma includes_length (w x : string) :
  includes w x = true -> (String.length w <= String.length x)%nat.
Proof.
  induction x as [|a x IH]; simpl.
  - rewrite orb_false_r. apply startsWith_length.
  - intros [H|H]%orb_true_iff.
    + apply startsWith_length in H. simpl in H. done.
    + specialize (IH H). lia.
Qed.
End CharFacts.

Section LikeFacts.
Import Str Db Props.

(** A literal pattern matches exactly the equal text. *)
Lemma MatchText_literal (p : string) :
  literal p = true ->
  forall (depth : nat) (t : string), (String.length p < depth)%nat ->
    match MatchText depth t p with
    | LIKE_TRUE => t = p
    | LIKE_ERROR => False
    | _ => t <> p
    end.
Proof.
  induction p as [|c p IH]; intros Hlit depth t Hdepth;
    (destruct depth as [|depth]; [simpl in Hdepth; lia|]); cbn [MatchText].
  - by destruct t.
  - simpl in Hlit. apply andb_true_iff in Hlit as [Hc Hp].
    destruct (literal_char_plain c Hc) as (Hb & Hpc & Hu).
    destruct t as [|a t].
    + unfold at_end_of_text. simpl. rewrite Hpc. done.
    + rewrite Hb, Hpc, Hu. destruct (Ascii.eqb_spec c a) as [->|Hne].
      * specialize (IH Hp depth t ltac:(simpl in Hdepth; lia)).
        destruct (MatchText depth t p); congruence.
      * congruence.
Qed.

Lemma ilike_literal (p t : string) :
  literal p = true -> ilike p t = inr (ci_equals t p).
Proof.
  intros Hlit. unfold ilike, ci_equals.
  pose proof (MatchText_literal (toLowerCase p) ltac:(by rewrite literal_lower)
                (S (String.length p)) (toLowerCase t)
                ltac:(rewrite length_lower; lia)) as H.
  destruct (MatchText _ _ _); try done.
  - by rewrite H, String.eqb_refl.
  - by apply String.eqb_neq in H as ->.
  - by apply String.eqb_neq in H as ->.
Qed.

(** A literal text followed by a percent sign matches the texts that
    start with it. *)
Lemma MatchText_prefix (w : string) :
  literal w = true ->
  forall (depth : nat) (x : string), (S (String.length w) < depth)%nat ->
    match MatchText depth x (String.append w "%") with
    | LIKE_TRUE => startsWith w x = true
    | LIKE_FALSE => startsWith w x = false
    | LIKE_ABORT =>
        startsWith w x = false /\ (String.length x < String.length w)%nat
    | LIKE_ERROR => False
    end.
Proof.
  induction w as [|c w IH]; intros Hlit depth x Hdepth;
    (destruct depth as [|depth]; [simpl in Hdepth; lia|]).
  - change (String.append EmptyString "%") with "%"%string. cbn [MatchText].
    destruct x as [|a x]; reflexivity.
  - change (String.append (String c w) "%") with (String c (String.append w "%")).
    cbn [MatchText].
    simpl in Hlit. apply andb_true_iff in Hlit as [Hc Hw].
    destruct (literal_char_plain c Hc) as (Hb & Hpc & Hu).
    destruct x as [|a x].
    + unfold at_end_of_text. simpl. rewrite Hpc. simpl. split; [done|lia].
    + rewrite Hb, Hpc, Hu. simpl.
      destruct (Ascii.eqb c a) eqn:E; [|done]. simpl.
      specialize (IH Hw depth x ltac:(simpl in Hdepth; lia)).
      destruct (MatchText depth x (String.append w "%")); try done.
      destruct IH as [? ?]. split; [done|lia].
Qed.

Lemma scan_includes (rest : string -> Like) (c : ascii) (w : string) :
  (forall y,
     match rest y with
     | LIKE_TRUE => startsWith (String c w) y = true
     | LIKE_FALSE => startsWith (String c w) y = false
     | LIKE_ABORT =>
         startsWith (String c w) y = false /\
         (String.length y < String.length (String c w))%nat
     | LIKE_ERROR => False
     end) ->
  forall x,
    match scan rest c x with
    | LIKE_TRUE => includes (String c w) x = true
    | LIKE_ERROR => False
    | _ => includes (String c w) x = false
    end.
Proof.
  intros Hrest x. induction x as [|a x IH]; [reflexivity|].
  cbn [scan]. cbn [includes].
  destruct (Ascii.eqb a c) eqn:E.
  - pose proof (Hrest (String a x)) as Hr.
    destruct (rest (String a x)).
    + by rewrite Hr.
    + rewrite Hr. simpl. exact IH.
    + destruct Hr as [Hs Hlen]. rewrite Hs. simpl.
      destruct (includes (String c w) x) eqn:Hi; [|done].
      apply includes_length in Hi. simpl in *. lia.
    + done.
  - assert (startsWith (String c w) (String a x) = false) as ->.
    { simpl. rewrite Ascii.eqb_sym, E. done. }
    simpl. exact IH.
Qed.

Lemma ilike_contains (v t : string) :
  literal v = true -> truthy v = true ->
  ilike (pattern_of (Contains v)) t = inr (ci_contains v t).
Proof.
  intros Hlit Hne. unfold ilike, ci_contains, pattern_of.
  change (toLowerCase (String "%" (String.append v "%")))
    with (String "%" (toLowerCase (String.append v "%"))).
  rewrite toLowerCase_append. change (toLowerCase "%") with "%"%string.
  assert (literal (toLowerCase v) = true) as Hlow by by rewrite literal_lower.
  assert (String.length (toLowerCase v) = String.length v) as Hlen by apply length_lower.
  destruct (toLowerCase v) as [|c w] eqn:Hv.
  { destruct v; done. }
  assert (String.length (String "%" (String.append v "%")) = S (S (String.length v))) as ->.
  { simpl. f_equal. clear. induction v as [|a v IH]; [done|].
    change (S (String.length (String.append v "%")) = S (S (String.length v))).
    by rewrite IH. }
  remember (S (S (String.length v))) as d eqn:Hd.
  cbn [MatchText].
  pose proof Hlow as Hlow'. simpl in Hlow'. apply andb_true_iff in Hlow' as [Hc Hw].
  destruct (literal_char_plain c Hc) as (Hb & Hpc & Hu).
  destruct (toLowerCase t) as [|a x].
  { unfold at_end_of_text. simpl. rewrite Hpc. simpl. done. }
  change (is_backslash "%") with false. change (is_percent "%") with true. cbv iota.
  change (String.append (String c w) "%") with (String c (String.append w "%")).
  cbn [skip_wild]. rewrite Hpc, Hu. cbn [first_pattern_char]. rewrite Hb.
  pose proof (scan_includes
                (fun y => MatchText d y (String.append (String c w) "%")) c w) as Hscan.
  specialize (Hscan
    (fun y => MatchText_prefix (String c w) Hlow d y
                ltac:(rewrite Hlen, Hd; lia)) (String a x)).
  change (String.append (String c w) "%") with (String c (String.append w "%")) in Hscan.
  destruct (scan _ c (String a x)); (done || by rewrite Hscan).
Qed.

End LikeFacts.

Section SelectFacts.
Import Str Db Http Props.

Lemma cond_holds_literal (r : UseCase) (c : Cond) :
  literal_cond c = true -> cond_holds r c = inr (cond_reads r c).
Proof.
  destruct c as [col f]. unfold literal_cond, cond_holds, cond_reads, filter_holds,
    filter_reads. simpl. destruct (column col r) as [s|]; [|done].
  destruct f as [v|v]; intros H.
  - by apply ilike_literal.
  - apply andb_true_iff in H as [Hl Ht]. by apply ilike_contains.
Qed.

Lemma all_hold_literal (r : UseCase) (cs : list Cond) :
  forallb literal_cond cs = true -> all_hold r cs = inr (forallb (cond_reads r) cs).
Proof.
  induction cs as [|c cs IH]; simpl; [done|]. intros [Hc Hcs]%andb_true_iff.
  rewrite (cond_holds_literal r c Hc). destruct (cond_reads r c); simpl; [by apply IH|done].
Qed.

Lemma any_holds_literal (r : UseCase) (cs : list Cond) :
  forallb literal_cond cs = true -> any_holds r cs = inr (existsb (cond_reads r) cs).
Proof.
  induction cs as [|c cs IH]; simpl; [done|]. intros [Hc Hcs]%andb_true_iff.
  rewrite (cond_holds_literal r c Hc). destruct (cond_reads r c); simpl; [done|by apply IH].
Qed.

Lemma where_holds_literal (w : WhereInput) (r : UseCase) :
  literal_where w = true -> where_holds w r = inr (where_reads w r).
Proof.
  unfold literal_where, where_holds, where_reads. rewrite forallb_app.
  intros [Hc Ho]%andb_true_iff. rewrite (all_hold_literal r _ Hc).
  destruct (forallb (cond_reads r) (where_columns w)); simpl; [|done].
  destruct (where_OR w) as [cs|]; [|done]. by apply any_holds_literal.
Qed.

Lemma rows_where_literal (w : WhereInput) (rows : list UseCase) :
  literal_where w = true ->
  rows_where w rows = inr (filter (fun r => where_reads w r = true) rows).
Proof.
  intros Hw. induction rows as [|r rows IH]; simpl; [done|].
  rewrite (where_holds_literal w r Hw), IH, filter_cons.
  destruct (where_reads w r); case_decide; done.
Qed.

Lemma literal_cond_storable (c : Cond) :
  literal_cond c = true -> storable (filter_value (snd c)) = true.
Proof.
  destruct c as [col [v|v]]; unfold literal_cond; simpl; intros H.
  - by apply literal_storable.
  - apply andb_true_iff in H as [H _]. by apply literal_storable.
Qed.

Lemma parameters_storable (w : WhereInput) :
  literal_where w = true -> forallb storable (parameters w) = true.
Proof.
  unfold literal_where, parameters. induction (_ ++ _) as [|c cs IH]; simpl; [done|].
  intros [Hc Hcs]%andb_true_iff. by rewrite (literal_cond_storable c Hc), IH.
Qed.

(** Under the literal reading a query selects the rows its filters read
    as true. *)
Lemma select_literal (w : WhereInput) (rows : list UseCase) :
  literal_where w = true ->
  select w rows = inr (filter (fun r => where_reads w r = true) rows).
Proof.
  intros Hw. unfold select. rewrite (parameters_storable w Hw).
  by apply rows_where_literal.
Qed.

Lemma rows_where_all (w : WhereInput) (rows : list UseCase) :
  where_columns w = [] -> where_OR w = None -> rows_where w rows = inr rows.
Proof.
  intros Hc Ho. induction rows as [|r rows IH]; simpl; [done|].
  unfold where_holds. rewrite Hc, Ho. simpl. by rewrite IH.
Qed.

Lemma select_all (w : WhereInput) (rows : list UseCase) :
  where_columns w = [] -> where_OR w = None -> select w rows = inr rows.
Proof.
  intros Hc Ho. unfold select, parameters. rewrite Hc, Ho. simpl.
  by apply rows_where_all.
Qed.






(** A query selects rows of the table, in the order of the table. *)
Lemma rows_where_sublist (w : WhereInput) (rows l : list UseCase) :
  rows_where w rows = inr l -> l `sublist_of` rows.
Proof.
  revert l. induction rows as [|r rows IH]; simpl; intros l.
  - intros [= <-]. constructor.
  - destruct (where_holds w r) as [e|b]; [done|].
    destruct (rows_where w rows) as [e|l']; [done|]. intros [= <-].
    specialize (IH l' eq_refl). destruct b; by constructor.
Qed.

Lemma select_sublist (w : WhereInput) (rows l : list UseCase) :
  select w rows = inr l -> l `sublist_of` rows.
Proof.
  unfold select. destruct (forallb storable (parameters w)); [|done].
  apply rows_where_sublist.
Qed.
End SelectFacts.

Section ListFacts.
Import Db Http Props.

Lemma check_nil (ok : bool) (p m : string) : check ok p m = [] <-> ok = true.
Proof. by destruct ok. Qed.

Lemma fmap_trim_idem (v : option string) : Str.trim <$> (Str.trim <$> v) = Str.trim <$> v.
Proof. destruct v; simpl; [by rewrite trim_idem|done]. Qed.

Lemma valid_page_limit (q : PaginationQuery) :
  paginationValidation (sanitizeQuery q) = [] ->
  exists p l, page_of q = Some p /\ limit_of q = Some l /\ 1 <= p /\ 1 <= l <= 100.
Proof.
  unfold paginationValidation, page_of, limit_of. simpl. intros H.
  apply app_eq_nil in H as [Hp H]. apply app_eq_nil in H as [Hl _].
  assert (exists p, Num.parseInt (default "1" (query_page q)) = Some p /\ 1 <= p) as (p & -> & ?).
  { destruct (query_page q) as [v|]; simpl in *.
    - apply check_nil, isInt_parseInt in Hp as (n & ? & ? & _). eauto.
    - exists 1. by vm_compute. }
  assert (exists l, Num.parseInt (default "20" (query_limit q)) = Some l /\ 1 <= l <= 100)
    as (l & -> & ?).
  { destruct (query_limit q) as [v|]; simpl in *.
    - apply check_nil, isInt_parseInt in Hl as (n & ? & ? & ?). eauto.
    - exists 20. split; [by vm_compute|lia]. }
  eauto 10.
Qed.

Lemma list_where_sanitized (q : PaginationQuery) :
  list_where (sanitizeQuery q) = list_where q.
Proof. unfold list_where. simpl. by rewrite !fmap_trim_idem. Qed.

(** The list handler, run on a query that parses. *)
Lemma listUseCases_run (q : PaginationQuery) (p l : Z) (db : Db.t) :
  page_of q = Some p -> limit_of q = Some l ->
  listUseCases (sanitizeQuery q) db =
    (db,
     if INT8_MAX <? (p - 1) * l then inl (of_client out_of_int8)
     else match select (list_where q) (table db) with
          | inl e => inl (of_client e)
          | inr sel => inr (list_response q p l sel)
          end).
Proof.
  unfold page_of, limit_of. intros Hp Hl. unfold listUseCases.
  cbn [query_page query_limit sanitizeQuery]. rewrite Hp, Hl.
  change (build_where _ _ _ _) with (list_where (sanitizeQuery q)).
  rewrite list_where_sanitized. run_store.
  destruct (INT8_MAX <? (p - 1) * l); [done|].
  destruct (select (list_where q) (table db)) as [e|sel] eqn:Hs; simpl; [done|].
  rewrite Hs. simpl. unfold list_response. by rewrite !fmap_trim_idem.
Qed.

Lemma app_GET_use_cases_run (cfg : Config) (now : Z) (db : Db.t) (q : PaginationQuery)
    (p l : Z) :
  paginationValidation (sanitizeQuery q) = [] ->
  page_of q = Some p -> limit_of q = Some l ->
  app cfg now (GET_use_cases q) db =
    (db,
     if INT8_MAX <? (p - 1) * l then errorHandler cfg (of_client out_of_int8)
     else match select (list_where q) (table db) with
          | inl e => errorHandler cfg (of_client e)
          | inr sel => list_response q p l sel
          end).
Proof.
  intros Hv Hp Hl. unfold app, GET_use_cases, router. simpl.
  rewrite Hv. simpl. unfold mbind, M_bind, bind. simpl.
  rewrite (listUseCases_run q p l db Hp Hl).
  destruct (INT8_MAX <? (p - 1) * l); [done|].
  by destruct (select (list_where q) (table db)).
Qed.

(** The response of the list endpoint to a query that passes validation
    and that the store answers. *)
Lemma app_GET_use_cases (cfg : Config) (now : Z) (db : Db.t) (q : PaginationQuery)
    (p l : Z) (sel : list UseCase) :
  paginationValidation (sanitizeQuery q) = [] ->
  page_of q = Some p -> limit_of q = Some l ->
  (p - 1) * l <= INT8_MAX ->
  select (list_where q) (table db) = inr sel ->
  app cfg now (GET_use_cases q) db = (db, list_response q p l sel).
Proof.
  intros Hv Hp Hl Hr Hs. rewrite (app_GET_use_cases_run cfg now db q p l Hv Hp Hl), Hs.
  by apply Z.ltb_ge in Hr as ->.
Qed.

Lemma errorHandler_body (cfg : Config) (e : Error) :
  exists text code details, body (errorHandler cfg e) = ErrorBody text code details.
Proof.
  destruct e as [| | | |c m|m|m]; simpl; try (by eexists _, _, _).
  destruct (String.eqb c "P2002"); [by eexists _, _, _|].
  destruct (String.eqb c "P2025"); by eexists _, _, _.
Qed.

Lemma errorHandler_not_list (cfg : Config) (e : Error) (st : Z) (r : PaginatedResponse) :
  errorHandler cfg e <> {| status := st; body := ListBody r |}.
Proof.
  intros H. destruct (errorHandler_body cfg e) as (t & c & d & Hb).
  rewrite H in Hb. done.
Qed.

(** What a 200 of the list endpoint tells. *)
Lemma app_GET_use_cases_inv (cfg : Config) (now : Z) (db db' : Db.t) (q : PaginationQuery)
    (st : Z) (r : PaginatedResponse) :
  paginationValidation (sanitizeQuery q) = [] ->
  app cfg now (GET_use_cases q) db = (db', {| status := st; body := ListBody r |}) ->
  exists p l sel,
    page_of q = Some p /\ limit_of q = Some l /\ 1 <= p /\ 1 <= l <= 100 /\
    (p - 1) * l <= INT8_MAX /\
    select (list_where q) (table db) = inr sel /\
    db' = db /\ {| status := st; body := ListBody r |} = list_response q p l sel.
Proof.
  intros Hv Happ. destruct (valid_page_limit q Hv) as (p & l & Hp & Hl & Hp1 & Hl1).
  rewrite (app_GET_use_cases_run cfg now db q p l Hv Hp Hl) in Happ.
  destruct (INT8_MAX <? (p - 1) * l) eqn:Hr.
  { apply (f_equal snd) in Happ. cbn [snd] in Happ.
    by apply errorHandler_not_list in Happ. }
  destruct (select (list_where q) (table db)) as [e|sel] eqn:Hs.
  { apply (f_equal snd) in Happ. cbn [snd] in Happ.
    by apply errorHandler_not_list in Happ. }
  pose proof (f_equal fst Happ) as H1. pose proof (f_equal snd Happ) as H2.
  cbn [fst snd] in H1, H2. apply Z.ltb_ge in Hr. exists p, l, sel. done.
Qed.

Lemma orderBy_length (l : list UseCase) : length (orderBy_createdAt_desc l) = length l.
Proof. unfold orderBy_createdAt_desc. by rewrite merge_sort_Permutation. Qed.
End ListFacts.

Section CreateFacts.
Import Db Http Props.

Lemma where_reads_name (name : string) (r : UseCase) :
  where_reads (name_equals name) r = ci_equals (useCase r) name.
Proof. unfold where_reads, cond_reads. simpl. by rewrite !andb_true_r. Qed.

Lemma literal_name_equals (name : string) :
  literal name = true -> literal_where (name_equals name) = true.
Proof. intros H. unfold literal_where, literal_cond. simpl. by rewrite H. Qed.

(** The duplicate check for a name that is taken literally. *)
Lemma select_name (name : string) (rows : list UseCase) :
  literal name = true ->
  select (name_equals name) rows =
    inr (filter (fun r => ci_equals (useCase r) name = true) rows).
Proof.
  intros H. rewrite (select_literal _ rows (literal_name_equals name H)). f_equal.
  apply list_filter_iff. intros r. by rewrite where_reads_name.
Qed.

Lemma filter_name_taken (name : string) (rows : list UseCase) :
  match filter (fun r => ci_equals (useCase r) name = true) rows with
  | [] => existsb (fun r => ci_equals (useCase r) name) rows = false
  | _ :: _ => existsb (fun r => ci_equals (useCase r) name) rows = true
  end.
Proof.
  induction rows as [|r rows IH]; [done|].
  rewrite filter_cons. cbn [existsb].
  destruct (ci_equals (useCase r) name) eqn:E; case_decide; done.
Qed.

Lemma select_name_free (name : string) (db : Db.t) :
  literal name = true -> name_taken name db = false ->
  select (name_equals name) (table db) = inr [].
Proof.
  intros Hl Ht. rewrite (select_name name _ Hl). f_equal.
  pose proof (filter_name_taken name (table db)) as H. unfold name_taken in Ht.
  destruct (filter _ (table db)); [done|congruence].
Qed.

Lemma select_name_taken (name : string) (db : Db.t) :
  literal name = true -> name_taken name db = true ->
  exists r l, select (name_equals name) (table db) = inr (r :: l).
Proof.
  intros Hl Ht. rewrite (select_name name _ Hl).
  pose proof (filter_name_taken name (table db)) as H. unfold name_taken in Ht.
  destruct (filter _ (table db)) as [|r l]; [congruence|]. by exists r, l.
Qed.

(** What the duplicate check tells when it finds no row. *)
Lemma select_name_none (name : string) (db : Db.t) :
  select (name_equals name) (table db) = inr [] ->
  forall r, r ∈ table db -> ilike name (useCase r) = inr false.
Proof.
  unfold select. destruct (forallb storable _); [|done].
  induction (table db) as [|x rows IH]; intros Hs r Hr; [by apply elem_of_nil in Hr|].
  simpl in Hs. unfold where_holds in Hs at 1. simpl in Hs. unfold cond_holds in Hs at 1.
  simpl in Hs.
  destruct (ilike name (useCase x)) as [e|[]] eqn:Hx; simpl in Hs; try done.
  - destruct (rows_where (name_equals name) rows); done.
  - destruct (rows_where (name_equals name) rows) as [e|l] eqn:Hrows; [done|].
    injection Hs as ->. apply elem_of_cons in Hr as [->|Hr]; [done|]. by apply IH.
Qed.

Lemma create_run (now : Z) (d : CreateInput) (db : Db.t) :
  storable_input d = true -> next_id db <= INT4_MAX ->
  create now d db =
    (insert_row (new_row (next_id db) now d) db, inr (new_row (next_id db) now d)).
Proof.
  intros Hs Hn. unfold create. rewrite Hs. simpl.
  by apply Z.ltb_ge in Hn as ->.
Qed.

Lemma create_cases (now : Z) (d : CreateInput) (db : Db.t) :
  (exists e, create now d db = (db, inl e)) \/
  (storable_input d = true /\ next_id db <= INT4_MAX /\
   create now d db =
     (insert_row (new_row (next_id db) now d) db, inr (new_row (next_id db) now d))).
Proof.
  unfold create. destruct (storable_input d); simpl; [|by left; eexists].
  destruct (INT4_MAX <? next_id db) eqn:E; [by left; eexists|].
  right. apply Z.ltb_ge in E. done.
Qed.

Lemma storable_opt_trim (v : option string) :
  storable_opt v = true -> storable_opt (Str.trim <$> v) = true.
Proof. destruct v as [s|]; simpl; [apply every_trim|done]. Qed.

Lemma storable_required_trim (v : option string) :
  storable_opt v = true -> storable (Str.trim (default EmptyString v)) = true.
Proof. destruct v as [s|]; simpl; [apply every_trim|done]. Qed.

Lemma storable_create_input (b : RawBody) :
  storable_body b = true -> storable_input (create_input b) = true.
Proof.
  unfold storable_body, storable_input, create_input. simpl.
  rewrite !andb_true_iff. intros (((((((H1 & H2) & H3) & H4) & H5) & H6) & H7) & H8).
  repeat split; by (apply storable_required_trim || apply storable_opt_trim).
Qed.

Lemma created_row_new (now : Z) (b : RawBody) (db : Db.t) :
  created_row now b db = new_row (next_id db) now (create_input b).
Proof. reflexivity. Qed.

(** The create handler, run on a sanitized body. *)
Lemma createUseCase_run (now : Z) (b : RawBody) (db : Db.t) :
  createUseCase now (sanitizeCreate b) db =
    match select (name_equals (Str.trim (default EmptyString (raw_useCase b)))) (table db) with
    | inl e => (db, inl (of_client e))
    | inr (_ :: _) => (db, inl (AppError "A use case with this name already exists" 409))
    | inr [] =>
        match create now (create_input b) db with
        | (db', inl e) => (db', inl (of_client e))
        | (db', inr row) =>
            (db', inr {| status := 201;
                         body := CreatedBody "Use case created successfully" row |})
        end
    end.
Proof.
  unfold createUseCase. run_store. rewrite trim_idem.
  destruct (select _ (table db)) as [e|[|x l]]; simpl; try done.
  assert (forall d, d = create_input b ->
            (let (db', s) := create now d db in
             match s with
             | inl e => (db', inl (of_client e))
             | inr a => (db', inr a)
             end) =
            (let (db', s) := create now (create_input b) db in
             match s with
             | inl e => (db', inl (of_client e))
             | inr a => (db', inr a)
             end)) as Hd by (by intros d ->).
  rewrite Hd.
  - by destruct (create now (create_input b) db) as [db' [e|row]].
  - unfold create_input. by rewrite !trim_idem, !fmap_trim_idem.
Qed.

Lemma authorized_next (cfg : Config) (key : option string) :
  next_error (apiKeyAuthMiddleware cfg "POST" key) =
    if authorized cfg key then None else Some UnauthorizedError.
Proof.
  unfold authorized, apiKeyAuthMiddleware. simpl.
  destruct (Str.truthy (API_KEY cfg)); simpl; [|done].
  by destruct (negb (truthy_opt key) || negb (bool_decide (key = Some (API_KEY cfg))))%bool.
Qed.

(** The create endpoint, step by step. *)
Lemma app_POST_run (cfg : Config) (now : Z) (db : Db.t) (key : option string) (b : RawBody) :
  app cfg now (POST_use_cases key b) db =
    if authorized cfg key then
      match createUseCaseValidation (sanitizeCreate b) with
      | [] =>
          match createUseCase now (sanitizeCreate b) db with
          | (db', inr r) => (db', r)
          | (db', inl e) => (db', errorHandler cfg e)
          end
      | errors => (db, errorHandler cfg (ValidationAppError errors))
      end
    else (db, errorHandler cfg UnauthorizedError).
Proof.
  unfold app. cbn [under_api POST_use_cases segments method x_api_key].
  change (is_literal "api" "api") with true. cbv iota.
  rewrite authorized_next. destruct (authorized cfg key); [|done].
  unfold router. simpl. unfold mbind, M_bind, bind, handleValidationErrors.
  destruct (createUseCaseValidation (sanitizeCreate b)); done.
Qed.

Lemma app_POST_unauthorized (cfg : Config) (now : Z) (db : Db.t) (key : option string)
    (b : RawBody) :
  authorized cfg key = false ->
  app cfg now (POST_use_cases key b) db =
    (db, {| status := 401;
            body := ErrorBody "Unauthorized: Invalid or missing API key"
                      "UNAUTHORIZED_ERROR" None |}).
Proof. intros H. by rewrite app_POST_run, H. Qed.

Lemma app_POST_invalid (cfg : Config) (now : Z) (db : Db.t) (key : option string)
    (b : RawBody) :
  authorized cfg key = true ->
  createUseCaseValidation (sanitizeCreate b) <> [] ->
  app cfg now (POST_use_cases key b) db =
    (db, {| status := 400;
            body := ErrorBody "Validation failed" "VALIDATION_ERROR"
                      (Some (map (fun v => {| field := path v; detail_message := msg v |})
                               (createUseCaseValidation (sanitizeCreate b)))) |}).
Proof.
  intros Ha Hne. rewrite app_POST_run, Ha.
  destruct (createUseCaseValidation (sanitizeCreate b)); done.
Qed.

Lemma app_POST_duplicate (cfg : Config) (now : Z) (db : Db.t) (key : option string)
    (b : RawBody) :
  authorized cfg key = true ->
  createUseCaseValidation (sanitizeCreate b) = [] ->
  literal (Str.trim (default EmptyString (raw_useCase b))) = true ->
  name_taken (Str.trim (default EmptyString (raw_useCase b))) db = true ->
  app cfg now (POST_use_cases key b) db =
    (db, {| status := 409;
            body := ErrorBody "A use case with this name already exists" "APP_ERROR" None |}).
Proof.
  intros Ha Hv Hl Ht. rewrite app_POST_run, Ha, Hv, createUseCase_run.
  by destruct (select_name_taken _ db Hl Ht) as (r & l & ->).
Qed.

Lemma app_POST_created (cfg : Config) (now : Z) (db : Db.t) (key : option string)
    (b : RawBody) :
  authorized cfg key = true ->
  createUseCaseValidation (sanitizeCreate b) = [] ->
  literal (Str.trim (default EmptyString (raw_useCase b))) = true ->
  name_taken (Str.trim (default EmptyString (raw_useCase b))) db = false ->
  storable_body b = true -> next_id db <= INT4_MAX ->
  app cfg now (POST_use_cases key b) db =
    (insert_row (created_row now b db) db,
     {| status := 201;
        body := CreatedBody "Use case created successfully" (created_row now b db) |}).
Proof.
  intros Ha Hv Hl Ht Hs Hn.
  rewrite app_POST_run, Ha, Hv, createUseCase_run, (select_name_free _ db Hl Ht).
  by rewrite (create_run now _ db (storable_create_input b Hs) Hn).
Qed.

Lemma errorHandler_client_status (cfg : Config) (e : ClientError) :
  status (errorHandler cfg (of_client e)) ∈ [400; 404; 409; 500].
Proof.
  destruct e as [m|c m|m]; simpl.
  - apply list_elem_of_here.
  - destruct (String.eqb c "P2002"); [|destruct (String.eqb c "P2025")]; simpl;
      repeat (apply list_elem_of_here || apply list_elem_of_further).
  - repeat (apply list_elem_of_here || apply list_elem_of_further).
Qed.

Lemma errorHandler_client_not_201 (cfg : Config) (e : ClientError) :
  status (errorHandler cfg (of_client e)) <> 201.
Proof.
  intros H. pose proof (errorHandler_client_status cfg e) as Hin. rewrite H in Hin.
  repeat (apply elem_of_cons in Hin as [Hin|Hin]; [done|]). by apply elem_of_nil in Hin.
Qed.

(** What a 201 of the create endpoint tells. *)
Lemma app_POST_inv (cfg : Config) (now : Z) (db db' : Db.t) (key : option string)
    (b : RawBody) (r : Response) :
  app cfg now (POST_use_cases key b) db = (db', r) -> status r = 201 ->
  authorized cfg key = true /\
  createUseCaseValidation (sanitizeCreate b) = [] /\
  select (name_equals (Str.trim (default EmptyString (raw_useCase b)))) (table db) = inr [] /\
  storable_input (create_input b) = true /\ next_id db <= INT4_MAX /\
  db' = insert_row (created_row now b db) db /\
  r = {| status := 201;
         body := CreatedBody "Use case created successfully" (created_row now b db) |}.
Proof.
  rewrite app_POST_run. destruct (authorized cfg key); [|by intros [= <- <-]].
  destruct (createUseCaseValidation (sanitizeCreate b)) eqn:Hv; [|by intros [= <- <-]].
  rewrite createUseCase_run.
  destruct (select _ (table db)) as [e|[|x l]] eqn:Hs.
  - intros [= <- <-] H. by apply errorHandler_client_not_201 in H.
  - destruct (create_cases now (create_input b) db) as [[e ->]|(S1 & S2 & ->)].
    + intros [= <- <-] H. by apply errorHandler_client_not_201 in H.
    + intros [= <- <-] _. done.
  - by intros [= <- <-].
Qed.
End CreateFacts.

Section ItemFacts.
Import Db Http Props.

Lemma decode_plain (s : string) :
  Str.every (fun c => negb (is_percent_sign c)) s = true -> decodeURIComponent s = Some s.
Proof.
  induction s as [|c s IH]; [done|]. cbn [Str.every decodeURIComponent].
  intros [Hc Hs]%andb_true_iff. apply negb_true_iff in Hc.
  unfold is_percent_sign in *. rewrite Hc, (IH Hs). done.
Qed.

Lemma digit_not_percent (c : ascii) :
  Str.is_digit c = true -> negb (is_percent_sign c) = true.
Proof.
  intros H. pose proof (forall_ascii_spec
    (fun c => implb (Str.is_digit c) (negb (is_percent_sign c))) ltac:(vm_compute; reflexivity) c)
    as Hc. simpl in Hc. by rewrite H in Hc.
Qed.

Lemma all_digits_plain (s : string) :
  Num.all_digits s = true -> Str.every (fun c => negb (is_percent_sign c)) s = true.
Proof.
  induction s as [|c s IH]; simpl; [done|]. intros [Hc Hs]%andb_true_iff.
  by rewrite (digit_not_percent c Hc), IH.
Qed.

Lemma int_shape_first (s : string) :
  Num.int_shape s = true ->
  exists c t, s = String c t /\
    (Num.is_minus c || Num.is_plus c || Str.is_digit c)%bool = true /\
    Num.all_digits t = true.
Proof.
  destruct s as [|c t]; [done|]. simpl. intros H. exists c, t. split; [done|].
  destruct (Num.is_minus c), (Num.is_plus c); simpl in *;
    try (apply andb_true_iff in H as [_ H]; done).
  by apply andb_true_iff in H.
Qed.

Lemma int_shape_decode (s : string) :
  Num.int_shape s = true -> decodeURIComponent s = Some s.
Proof.
  intros H. apply decode_plain.
  destruct (int_shape_first s H) as (c & t & -> & Hc & Ht). simpl.
  rewrite (all_digits_plain t Ht), andb_true_r.
  pose proof (forall_ascii_spec
    (fun c => implb (Num.is_minus c || Num.is_plus c || Str.is_digit c)
                (negb (is_percent_sign c))) ltac:(vm_compute; reflexivity) c) as H'.
  simpl in H'. by rewrite Hc in H'.
Qed.

Lemma int_shape_route (s : string) :
  Num.int_shape s = true -> Str.truthy s = true /\ is_literal "filters" s = false.
Proof.
  intros H. destruct (int_shape_first s H) as (c & t & -> & Hc & Ht). split; [done|].
  unfold is_literal.
  change (Str.toLowerCase (String c t)) with (String (Str.lower_char c) (Str.toLowerCase t)).
  simpl.
  pose proof (forall_ascii_spec
    (fun c => implb (Num.is_minus c || Num.is_plus c || Str.is_digit c)
                (negb (Ascii.eqb (Str.lower_char c) "f"))) ltac:(vm_compute; reflexivity) c)
    as H'.
  simpl in H'. rewrite Hc in H'. simpl in H'. apply negb_true_iff in H'. by rewrite H'.
Qed.

Lemma plain_segment_decode (s : string) :
  plain_segment s = true -> Str.truthy s = true /\ decodeURIComponent s = Some s.
Proof.
  unfold plain_segment. intros [Ht He]%andb_true_iff. split; [done|].
  apply decode_plain. revert He. apply every_impl. intros c. unfold is_percent_sign.
  rewrite !negb_true_iff, !orb_false_iff. by intros (_ & ->).
Qed.

(** The item endpoint, step by step, for a segment that is not the word
    filters and decodes to itself. *)
Lemma app_GET_use_case_run (cfg : Config) (now : Z) (db : Db.t) (c : string) :
  Str.truthy c = true -> is_literal "filters" c = false -> decodeURIComponent c = Some c ->
  app cfg now (GET_use_case c) db =
    match idParamValidation c with
    | [] =>
        match getUseCase c db with
        | (db', inr r) => (db', r)
        | (db', inl e) => (db', errorHandler cfg e)
        end
    | errors => (db, errorHandler cfg (ValidationAppError errors))
    end.
Proof.
  intros Ht Hf Hd. unfold app, GET_use_case. simpl. unfold router. simpl.
  rewrite Ht. simpl. rewrite Ht, Hf, Hd.
  unfold mbind, M_bind, bind, handleValidationErrors.
  destruct (idParamValidation c); done.
Qed.

Lemma app_GET_use_case_invalid (cfg : Config) (now : Z) (db : Db.t) (c : string) :
  plain_segment c = true -> Num.isInt 1 None c = false ->
  Str.toLowerCase c <> "filters" ->
  app cfg now (GET_use_case c) db =
    (db, {| status := 400;
            body := ErrorBody "Validation failed" "VALIDATION_ERROR"
                      (Some [{| field := "id";
                                detail_message := "ID must be a positive integer" |}]) |}).
Proof.
  intros Hp Hint Hc. destruct (plain_segment_decode c Hp) as [Ht Hd].
  rewrite app_GET_use_case_run; [|done| |done].
  - unfold idParamValidation. by rewrite Hint.
  - unfold is_literal. by apply String.eqb_neq.
Qed.

Lemma getUseCase_run (c : string) (i : Z) (db : Db.t) :
  Num.parseInt c = Some i -> i <= INT4_MAX ->
  getUseCase c db =
    match head (filter (fun r => id r = i) (table db)) with
    | Some u => (db, inr {| status := 200; body := ItemBody u |})
    | None => (db, inl (NotFoundError "UseCase" i))
    end.
Proof.
  intros Hp Hi. unfold getUseCase. rewrite Hp. run_store.
  assert ((INT8_MAX <? i) = false) as -> by (apply Z.ltb_ge; unfold INT4_MAX, INT8_MAX in *; lia).
  apply Z.ltb_ge in Hi as ->. simpl.
  by destruct (head _).
Qed.

Lemma app_GET_use_case_valid (cfg : Config) (now : Z) (db : Db.t) (c : string) (i : Z) :
  Num.isInt 1 None c = true -> Num.parseInt c = Some i -> i <= INT4_MAX ->
  app cfg now (GET_use_case c) db =
    match head (filter (fun r => id r = i) (table db)) with
    | Some u => (db, {| status := 200; body := ItemBody u |})
    | None =>
        (db, {| status := 404;
                body := ErrorBody
                          (String.append "UseCase"
                             (String.append " with id "
                                (String.append (Str.of_Z i) " not found")))
                          "NOTFOUND_ERROR" None |})
    end.
Proof.
  intros Hint Hp Hi.
  assert (Num.int_shape c = true) as Hshape.
  { unfold Num.isInt in Hint. by repeat (apply andb_true_iff in Hint as [Hint _]). }
  destruct (int_shape_route c Hshape) as [Ht Hf].
  rewrite app_GET_use_case_run by (try done; by apply int_shape_decode).
  unfold idParamValidation. rewrite Hint. simpl.
  rewrite (getUseCase_run c i db Hp Hi). by destruct (head _).
Qed.

Lemma findUnique_absent (i : Z) (rows : list UseCase) :
  i ∉ (id <$> rows) -> filter (fun r => id r = i) rows = [].
Proof.
  induction rows as [|r rows IH]; [done|]. rewrite fmap_cons, not_elem_of_cons.
  intros [Hne Hnot]. rewrite filter_cons. rewrite decide_False by done. by apply IH.
Qed.

Lemma wf_next_id_fresh (db : Db.t) : db_wf db -> next_id db ∉ (id <$> table db).
Proof.
  intros (_ & Hall & _) Hin. apply list_elem_of_fmap in Hin as (r & Heq & Hr).
  rewrite Forall_forall in Hall. specialize (Hall r Hr). lia.
Qed.


Lemma insert_row_wf (db : Db.t) (r : UseCase) :
  db_wf db -> id r = next_id db -> next_id db <= INT4_MAX -> db_wf (insert_row r db).
Proof.
  intros Hwf Hid Hmax. pose proof (wf_next_id_fresh db Hwf) as Hfresh.
  destruct Hwf as (Hpos & Hall & Hnd). unfold db_wf, insert_row. simpl.
  split; [lia|]. split.
  - apply Forall_app. split.
    + eapply Forall_impl; [exact Hall|]. simpl. intros; lia.
    + apply Forall_singleton. lia.
  - rewrite fmap_app. apply NoDup_app. split; [done|]. split.
    + intros x Hx. simpl. rewrite list_elem_of_singleton. intros ->. by rewrite Hid in Hx.
    + simpl. apply NoDup_singleton.
Qed.

Lemma empty_wf : db_wf Db.empty.
Proof.
  unfold db_wf, INT4_MAX; simpl. split; [lia|]. split; [done|]. apply NoDup_nil_2.
Qed.
End ItemFacts.

Section DecimalFacts.
Import Num.

Lemma digits_snoc (s : string) (c : ascii) (acc m : Z) (seen : bool) :
  all_digits s = true -> Str.is_digit c = true ->
  digits acc seen s = Some m ->
  digits acc seen (Str.snoc s c) = Some (10 * m + digit_value c).
Proof.
  revert acc seen. induction s as [|a s IH]; intros acc seen Hall Hc Hd; simpl in *.
  - rewrite Hc. destruct seen; by simplify_eq.
  - apply andb_true_iff in Hall as [Ha Hs]. rewrite Ha in *. by apply IH.
Qed.

Lemma all_digits_snoc (s : string) (c : ascii) :
  all_digits s = true -> Str.is_digit c = true -> all_digits (Str.snoc s c) = true.
Proof.
  induction s as [|a s IH]; simpl; intros Hall Hc.
  - by rewrite Hc.
  - apply andb_true_iff in Hall as [-> Hs]. by apply IH.
Qed.

Lemma truthy_snoc (s : string) (c : ascii) : Str.truthy (Str.snoc s c) = true.
Proof. by destruct s. Qed.

Lemma digit_exists (d : Z) :
  0 <= d < 10 -> exists c, Str.is_digit c = true /\ digit_value c = d.
Proof.
  intros Hd. exists (ascii_of_nat (48 + Z.to_nat d)).
  assert (d = 0 \/ d = 1 \/ d = 2 \/ d = 3 \/ d = 4 \/ d = 5 \/ d = 6 \/ d = 7
          \/ d = 8 \/ d = 9) as H by lia.
  repeat (destruct H as [->|H]; [by vm_compute|]). subst. by vm_compute.
Qed.

(** Every natural number has a decimal numeral. *)
Lemma decimal_exists (n : Z) :
  0 <= n ->
  exists s, all_digits s = true /\ Str.truthy s = true /\ digits 0 false s = Some n.
Proof.
  intros Hn. pattern n. apply Zlt_0_ind; [|done]. clear n Hn.
  intros n IH Hn. destruct (Z.lt_ge_cases n 10) as [Hsmall|Hbig].
  - destruct (digit_exists n ltac:(lia)) as (c & Hc & Hv).
    exists (String c EmptyString). simpl. rewrite Hc. split; [done|]. split; [done|].
    f_equal. lia.
  - destruct (IH (n / 10)) as (s & Hall & Hne & Hd).
    { pose proof (Z.div_lt n 10). pose proof (Z.div_pos n 10). lia. }
    destruct (digit_exists (n mod 10)) as (c & Hc & Hv).
    { apply Z.mod_pos_bound. lia. }
    exists (Str.snoc s c). split; [by apply all_digits_snoc|]. split; [apply truthy_snoc|].
    rewrite (digits_snoc s c 0 (n / 10)) by done. f_equal.
    rewrite Hv. pose proof (Z.div_mod n 10). lia.
Qed.

Lemma all_digits_shape (s : string) :
  all_digits s = true -> Str.truthy s = true -> int_shape s = true.
Proof.
  destruct s as [|c s]; [done|]. simpl. intros H _.
  apply andb_true_iff in H as [Hc Hs].
  assert ((is_minus c || is_plus c)%bool = false) as ->; [|by rewrite Hc, Hs].
  revert Hc. clear. destruct c as [[] [] [] [] [] [] [] []]; by vm_compute.
Qed.

Lemma all_digits_toNumber (s : string) (n : Z) :
  all_digits s = true -> Str.truthy s = true -> digits 0 false s = Some n ->
  toNumber s = n.
Proof.
  intros Hall Hne Hd. destruct s as [|c s]; [done|].
  unfold toNumber.
  assert (is_minus c = false /\ is_plus c = false) as [-> ->]; [|by rewrite Hd].
  simpl in Hall. apply andb_true_iff in Hall as [Hc _].
  revert Hc. clear. destruct c as [[] [] [] [] [] [] [] []]; by vm_compute.
Qed.

(** Every integer from [lo] on can be written so that [isInt] accepts it
    and [parseInt] reads it back. *)
Lemma numeral_exists (lo n : Z) (hi : option Z) :
  0 <= n -> lo <= n -> match hi with Some m => n <= m | None => True end ->
  exists s, isInt lo hi s = true /\ parseInt s = Some n.
Proof.
  intros Hn Hlo Hhi. destruct (decimal_exists n Hn) as (s & Hall & Hne & Hd).
  pose proof (all_digits_shape s Hall Hne) as Hshape.
  pose proof (all_digits_toNumber s n Hall Hne Hd) as Hnum.
  exists s. split.
  - unfold isInt. rewrite Hshape, Hnum. simpl.
    apply andb_true_iff. split; [lia|]. destruct hi; [lia|done].
  - rewrite parseInt_of_int_shape by done. by rewrite Hnum.
Qed.
End DecimalFacts.

Section WindowFacts.
Context {A : Type}.
Implicit Types l : list A.

Lemma window_elem l (k n : nat) (x : A) :
  x ∈ take n (drop k l) <-> exists i : nat, (i < n)%nat /\ l !! (k + i)%nat = Some x.
Proof.
  rewrite elem_of_take. split; intros (i & H1 & H2); exists i.
  - by rewrite lookup_drop in H1.
  - by rewrite lookup_drop.
Qed.

(** Every element of the list lies in one of the windows of size [n]. *)
Lemma window_cover l (n : Z) (x : A) :
  1 <= n -> x ∈ l ->
  exists p, 1 <= p /\ x ∈ take (Z.to_nat n) (drop (Z.to_nat ((p - 1) * n)) l).
Proof.
  intros Hn Hx. apply list_elem_of_lookup in Hx as [i Hi].
  exists (Z.of_nat i / n + 1). split.
  { pose proof (Z.div_pos (Z.of_nat i) n). lia. }
  apply window_elem. exists (Z.to_nat (Z.of_nat i mod n)).
  pose proof (Z.mod_pos_bound (Z.of_nat i) n ltac:(lia)).
  pose proof (Z.div_mod (Z.of_nat i) n ltac:(lia)).
  pose proof (Z.div_pos (Z.of_nat i) n ltac:(lia) ltac:(lia)).
  split; [lia|].
  replace (Z.to_nat ((Z.of_nat i / n + 1 - 1) * n) + Z.to_nat (Z.of_nat i mod n))%nat
    with i; [done|]. nia.
Qed.

End WindowFacts.

Section FilterFacts.
Import Db Http Props.

Lemma equals_if_set_reads (c : Column) (v : option string) (r : UseCase) :
  forallb (cond_reads r) (equals_if_set c (Str.trim <$> v)) = true <->
  equals_filter v (column c r).
Proof.
  unfold equals_filter, effective, equals_if_set. destruct v as [s|]; simpl.
  - destruct (Str.truthy (Str.trim s)); simpl.
    + unfold cond_reads. simpl. rewrite andb_true_r. split.
      * intros H v [= <-]. destruct (column c r) as [f|]; [eauto|done].
      * intros H. destruct (H _ eq_refl) as (f & -> & Hf). done.
    + split; [by intros _ v|done].
  - split; [by intros _ v|done].
Qed.

Lemma search_reads (s : option string) (r : UseCase) :
  match where_OR (list_where (mkQuery None None None None None s)) with
  | None => true
  | Some cs => existsb (cond_reads r) cs
  end = true <-> search_filter s r.
Proof.
  unfold search_filter, effective. destruct s as [s|]; simpl.
  - destruct (Str.truthy (Str.trim s)); simpl.
    + unfold cond_reads. simpl. rewrite orb_false_r, !orb_true_iff. split.
      * intros H v [= <-]. destruct H as [H|[H|H]]; [by left|by right; left|].
        right; right. destruct (benefit r) as [b|]; [eauto|done].
      * intros H. destruct (H _ eq_refl) as [H'|[H'|(b & Hb & H')]]; [by left|by right; left|].
        right; right. by rewrite Hb.
    + split; [by intros _ v|done].
  - split; [by intros _ v|done].
Qed.

(** What the filter of the list handler means for a row under the
    literal reading. *)
Lemma list_where_reads (q : PaginationQuery) (r : UseCase) :
  where_reads (list_where q) r = true <-> satisfies q r.
Proof.
  unfold satisfies, where_reads. rewrite andb_true_iff.
  unfold list_where at 1. cbn [where_columns build_where].
  rewrite !forallb_app, !andb_true_iff, !equals_if_set_reads.
  rewrite <- (search_reads (query_search q) r). simpl. tauto.
Qed.

Lemma literal_equals_if_set (c : Column) (v : option string) :
  literal_param v -> forallb literal_cond (equals_if_set c (Str.trim <$> v)) = true.
Proof.
  unfold literal_param, effective, equals_if_set. destruct v as [s|]; simpl; [|done].
  destruct (Str.truthy (Str.trim s)); [|done]. intros H. simpl.
  unfold literal_cond. simpl. by rewrite (H _ eq_refl).
Qed.

Lemma literal_list_where (q : PaginationQuery) :
  literal_query q -> literal_where (list_where q) = true.
Proof.
  intros (H1 & H2 & H3 & H4). unfold literal_where, list_where, build_where.
  cbn [where_columns where_OR]. rewrite !forallb_app.
  rewrite !literal_equals_if_set by done. simpl.
  revert H4. unfold literal_param, effective. destruct (query_search q) as [s|]; [|done].
  simpl. destruct (Str.truthy (Str.trim s)) eqn:Ht; [|done]. intros H. simpl.
  unfold literal_cond. simpl. by rewrite (H _ eq_refl), Ht.
Qed.

(** A query whose parameters are taken literally is answered by the
    store with the rows that pass the filters. *)
Lemma select_list_where (q : PaginationQuery) (db : Db.t) :
  literal_query q ->
  exists sel,
    select (list_where q) (table db) = inr sel /\
    sel = filter (fun r => where_reads (list_where q) r = true) (table db) /\
    forall r, r ∈ sel <-> r ∈ table db /\ satisfies q r.
Proof.
  intros Hq. eexists. split; [by apply select_literal, literal_list_where|].
  split; [done|]. intros r. rewrite list_elem_of_filter, list_where_reads. tauto.
Qed.

#[local] Instance created_desc_total : Total created_desc.
Proof. intros a b. unfold created_desc. lia. Qed.


Lemma orderBy_perm (l : list UseCase) : orderBy_createdAt_desc l ≡ₚ l.
Proof. apply merge_sort_Permutation. Qed.
End FilterFacts.

Section ImporterFacts.
Import Db Http Props Importer.

Lemma normalizeValue_Some (v : option string) (s : string) :
  normalizeValue v = Some s -> Str.truthy s = true /\ Str.trim s = s.
Proof.
  unfold normalizeValue. destruct v as [x|]; [|done].
  destruct (0 <? Str.len (Str.trim x)) eqn:E; [|done]. intros [= <-].
  rewrite truthy_len, trim_idem. done.
Qed.

Lemma ci_equals_refl (s : string) : ci_equals s s = true.
Proof. unfold ci_equals. apply String.eqb_refl. Qed.

Lemma ci_equals_literal (a b : string) :
  ci_equals a b = true -> literal a = literal b.
Proof.
  unfold ci_equals. rewrite String.eqb_eq. intros H.
  by rewrite <- (literal_lower a), <- (literal_lower b), H.
Qed.

Lemma name_taken_insert (n : string) (x : UseCase) (db : Db.t) :
  name_taken n (insert_row x db) = (name_taken n db || ci_equals (useCase x) n)%bool.
Proof. unfold name_taken, insert_row. simpl. rewrite existsb_app. simpl. by rewrite orb_false_r. Qed.

Lemma processRow_invalid (now : Z) (i : nat) (r : CsvRow) (st : Run) :
  valid_row r = false ->
  processRow now i r st =
    {| store := store st;
       stats := add_skipped (Z.of_nat i + 2)
                  (if Http.truthy_opt (row_name r)
                   then "Empty Concept description field" else "Empty Use Case field")
                  (stats st);
       warnings := warnings st |}.
Proof.
  unfold valid_row, row_name, row_description, processRow. intros H.
  destruct (truthy_opt (normalizeValue (csv_Use_Case r))); simpl in *; [|done].
  by rewrite H.
Qed.

Lemma imported_row_new (now : Z) (r : CsvRow) (db : Db.t) :
  imported_row now r db = new_row (next_id db) now (import_input r).
Proof. reflexivity. Qed.

Lemma storable_normalizeValue (v : option string) :
  storable_opt v = true -> storable_opt (normalizeValue v) = true.
Proof.
  destruct v as [s|]; simpl; [|done]. intros H.
  destruct (0 <? Str.len (Str.trim s)); simpl; [by apply every_trim|done].
Qed.

Lemma storable_normalized_required (v : option string) :
  storable_opt v = true -> storable (default EmptyString (normalizeValue v)) = true.
Proof.
  intros H. apply storable_normalizeValue in H. by destruct (normalizeValue v).
Qed.

Lemma storable_import_input (r : CsvRow) :
  storable_row r = true -> storable_input (import_input r) = true.
Proof.
  unfold storable_row, storable_input, import_input, row_name, row_description. simpl.
  rewrite !andb_true_iff. intros (((((((H1 & H2) & H3) & H4) & H5) & H6) & H7) & H8).
  repeat split; by (apply storable_normalized_required || apply storable_normalizeValue).
Qed.

(** The store calls of a valid record, step by step. *)
Lemma insertUnlessExists_run (now : Z) (r : CsvRow) (db : Db.t) :
  insertUnlessExists now (default EmptyString (row_name r))
    (default EmptyString (row_description r)) r db =
    match select (name_equals (default EmptyString (row_name r))) (table db) with
    | inl e => (db, inl (client_message e))
    | inr (_ :: _) => (db, inr None)
    | inr [] =>
        match create now (import_input r) db with
        | (db', inl e) => (db', inl (client_message e))
        | (db', inr _) => (db', inr (Some (url_warning r)))
        end
    end.
Proof.
  unfold insertUnlessExists. run_store.
  destruct (select _ (table db)) as [e|[|x l]]; simpl; try done.
  change (create now _ db) with (create now (import_input r) db).
  destruct (create now (import_input r) db) as [db' [e|row]]; [done|].
  unfold url_warning, truthy_opt.
  destruct (normalizeValue (csv_URL r)) as [u|] eqn:Hu; simpl; [|done].
  destruct (normalizeValue_Some _ _ Hu) as [-> _]. done.
Qed.

(** The three outcomes of a valid record. *)
Lemma processRow_valid (now : Z) (i : nat) (r : CsvRow) (st : Run) :
  valid_row r = true ->
  ((exists x l, select (name_equals (default EmptyString (row_name r)))
                  (table (store st)) = inr (x :: l)) /\
   processRow now i r st =
     {| store := store st; stats := add_duplicate (stats st); warnings := warnings st |}) \/
  (select (name_equals (default EmptyString (row_name r))) (table (store st)) = inr [] /\
   storable_input (import_input r) = true /\ next_id (store st) <= INT4_MAX /\
   processRow now i r st =
     {| store := insert_row (imported_row now r (store st)) (store st);
        stats := add_inserted (stats st);
        warnings := warnings st ++ (if url_warning r then [Z.of_nat i + 2] else []) |}) \/
  (exists why,
     processRow now i r st =
       {| store := store st; stats := add_error (Z.of_nat i + 2) why (stats st);
          warnings := warnings st |}).
Proof.
  intros Hvalid. unfold processRow.
  pose proof Hvalid as Hv. unfold valid_row, row_name, row_description in Hv.
  apply andb_true_iff in Hv as [-> ->]. simpl.
  change (normalizeValue (csv_Use_Case r)) with (row_name r).
  change (normalizeValue (csv_Concept_description r)) with (row_description r).
  rewrite insertUnlessExists_run.
  destruct (select _ (table (store st))) as [e|[|x l]] eqn:Hs.
  - right; right. by eexists.
  - destruct (create_cases now (import_input r) (store st)) as [[e ->]|(S1 & S2 & ->)].
    + right; right. by eexists.
    + right; left. done.
  - left. split; [by eexists _, _|done].
Qed.

Lemma valid_count_cons (r : CsvRow) (records : list CsvRow) :
  valid_count (r :: records) = (if valid_row r then 1 else 0) + valid_count records.
Proof.
  unfold valid_count. rewrite filter_cons.
  destruct (valid_row r); case_decide; try done; simpl; lia.
Qed.

Lemma processRow_counts (now : Z) (i : nat) (r : CsvRow) (st : Run) :
  let st' := processRow now i r st in
  inserted (stats st') + duplicates (stats st') + errors (stats st') =
    inserted (stats st) + duplicates (stats st) + errors (stats st)
    + (if valid_row r then 1 else 0) /\
  skipped (stats st') = skipped (stats st) + (if valid_row r then 0 else 1) /\
  totalRows (stats st') = totalRows (stats st) /\
  inserted (stats st) <= inserted (stats st') /\
  duplicates (stats st) <= duplicates (stats st') /\
  errors (stats st) <= errors (stats st') /\
  Z.of_nat (length (errorDetails (stats st'))) - skipped (stats st') - errors (stats st') =
    Z.of_nat (length (errorDetails (stats st))) - skipped (stats st) - errors (stats st).
Proof.
  destruct (valid_row r) eqn:Hvalid; simpl.
  - destruct (processRow_valid now i r st Hvalid)
      as [[_ ->]|[(_ & _ & _ & ->)|[why ->]]]; simpl; rewrite ?length_app; simpl;
      repeat split; lia.
  - rewrite (processRow_invalid now i r st Hvalid). simpl. rewrite length_app. simpl.
    repeat split; lia.
Qed.

Lemma processRows_counts (clock : nat -> Z) (records : list CsvRow) (i : nat) (st : Run) :
  let st' := processRows clock i records st in
  inserted (stats st') + duplicates (stats st') + errors (stats st') =
    inserted (stats st) + duplicates (stats st) + errors (stats st) + valid_count records /\
  skipped (stats st') =
    skipped (stats st) + (Z.of_nat (length records) - valid_count records) /\
  totalRows (stats st') = totalRows (stats st) /\
  inserted (stats st) <= inserted (stats st') /\
  duplicates (stats st) <= duplicates (stats st') /\
  errors (stats st) <= errors (stats st') /\
  Z.of_nat (length (errorDetails (stats st'))) - skipped (stats st') - errors (stats st') =
    Z.of_nat (length (errorDetails (stats st))) - skipped (stats st) - errors (stats st).
Proof.
  revert i st. induction records as [|r records IH]; intros i st; simpl.
  { unfold valid_count. simpl. repeat split; lia. }
  rewrite valid_count_cons.
  destruct (IH (S i) (processRow (clock i) i r st)) as (H1 & H2 & H3 & H4 & H5 & H6 & H7).
  destruct (processRow_counts (clock i) i r st) as (C1 & C2 & C3 & C4 & C5 & C6 & C7).
  simpl in *. repeat split; try lia; destruct (valid_row r); lia.
Qed.

Lemma processRow_grows (now : Z) (i : nat) (r : CsvRow) (st : Run) :
  let st' := processRow now i r st in
  exists new,
    table (store st') = table (store st) ++ new /\
    Z.of_nat (length new) = inserted (stats st') - inserted (stats st) /\
    next_id (store st') = next_id (store st) + Z.of_nat (length new) /\
    forall x, x ∈ new -> valid_row r = true /\ x = imported_row now r (store st).
Proof.
  assert (forall x : UseCase, x ∈ [] -> valid_row r = true /\
                              x = imported_row now r (store st)) as Hnil.
  { intros x Hx. by apply elem_of_nil in Hx. }
  destruct (valid_row r) eqn:Hvalid; simpl.
  - destruct (processRow_valid now i r st Hvalid)
      as [[_ ->]|[(_ & _ & _ & ->)|[why ->]]].
    + exists []. simpl. rewrite app_nil_r. split; [done|]. split; [lia|]. split; [lia|done].
    + exists [imported_row now r (store st)]. simpl.
      split; [done|]. split; [lia|]. split; [lia|].
      intros x Hx. by apply list_elem_of_singleton in Hx as ->.
    + exists []. simpl. rewrite app_nil_r. split; [done|]. split; [lia|]. split; [lia|done].
  - rewrite (processRow_invalid now i r st Hvalid). exists []. simpl.
    rewrite app_nil_r. split; [done|]. split; [lia|]. split; [lia|done].
Qed.

Lemma processRows_grows (clock : nat -> Z) (records : list CsvRow) (i : nat) (st : Run) :
  let st' := processRows clock i records st in
  exists new,
    table (store st') = table (store st) ++ new /\
    Z.of_nat (length new) = inserted (stats st') - inserted (stats st) /\
    next_id (store st') = next_id (store st) + Z.of_nat (length new) /\
    forall x, x ∈ new ->
      exists (k : nat) (r : CsvRow) (d : Db.t),
        records !! k = Some r /\ valid_row r = true /\
        x = imported_row (clock (i + k)%nat) r d.
Proof.
  revert i st. induction records as [|r records IH]; intros i st; simpl.
  { exists []. rewrite app_nil_r. split; [done|]. split; [simpl; lia|].
    split; [simpl; lia|]. intros x Hx. by apply elem_of_nil in Hx. }
  destruct (processRow_grows (clock i) i r st) as (new1 & T1 & L1 & N1 & P1).
  destruct (IH (S i) (processRow (clock i) i r st)) as (new2 & T2 & L2 & N2 & P2).
  simpl in *. exists (new1 ++ new2).
  rewrite T2, T1, N2, N1, length_app, app_assoc.
  split; [done|]. split; [lia|]. split; [lia|].
  intros x Hx. apply elem_of_app in Hx as [Hx|Hx].
  - destruct (P1 x Hx) as [Hv ->]. exists 0%nat, r, (store st).
    rewrite Nat.add_0_r. done.
  - destruct (P2 x Hx) as (k & r' & d & Hk & Hv & ->). exists (S k), r', d.
    replace (i + S k)%nat with (S i + k)%nat by lia. done.
Qed.

(** A record that is processed without an error leaves its name in the
    store, when the name is taken literally. *)
Lemma processRow_store (now : Z) (i : nat) (r : CsvRow) (st : Run) :
  (forall n, name_taken n (store st) = true ->
             name_taken n (store (processRow now i r st)) = true) /\
  (valid_row r = true -> literal (default EmptyString (row_name r)) = true ->
   errors (stats (processRow now i r st)) = errors (stats st) ->
   name_taken (default EmptyString (row_name r)) (store (processRow now i r st)) = true).
Proof.
  destruct (valid_row r) eqn:Hvalid.
  - destruct (processRow_valid now i r st Hvalid)
      as [[(x & l & Hs) ->]|[(_ & _ & _ & ->)|[why ->]]]; simpl.
    + split; [done|]. intros _ Hl _. rewrite (select_name _ _ Hl) in Hs.
      pose proof (filter_name_taken (default EmptyString (row_name r)) (table (store st)))
        as Hf.
      injection Hs as Hs. rewrite Hs in Hf. done.
    + split.
      * intros n Hn. rewrite name_taken_insert, Hn. done.
      * intros _ _ _. rewrite name_taken_insert. simpl. rewrite ci_equals_refl.
        apply orb_true_r.
    + split; [done|]. intros _ _ He. lia.
  - rewrite (processRow_invalid now i r st Hvalid). simpl. done.
Qed.

Lemma processRows_store (clock : nat -> Z) (records : list CsvRow) (i : nat) (st : Run) :
  let st' := processRows clock i records st in
  (forall n, name_taken n (store st) = true -> name_taken n (store st') = true) /\
  (errors (stats st') = errors (stats st) ->
   forall r, r ∈ records -> valid_row r = true ->
             literal (default EmptyString (row_name r)) = true ->
             name_taken (default EmptyString (row_name r)) (store st') = true).
Proof.
  revert i st. induction records as [|r records IH]; intros i st; simpl.
  { split; [done|]. intros _ r Hr. by apply elem_of_nil in Hr. }
  destruct (IH (S i) (processRow (clock i) i r st)) as (H1 & H2).
  destruct (processRow_store (clock i) i r st) as (S1 & S2).
  destruct (processRow_counts (clock i) i r st) as (_ & _ & _ & _ & _ & E1 & _).
  destruct (processRows_counts clock records (S i) (processRow (clock i) i r st))
    as (_ & _ & _ & _ & _ & E2 & _).
  simpl in *. split.
  - intros n Hn. by apply H1, S1.
  - intros He r' Hr' Hv Hlit. apply elem_of_cons in Hr' as [->|Hr'].
    + apply H1, S2; [done|done|lia].
    + apply H2; [lia|done..].
Qed.


End ImporterFacts.

Section InvariantFacts.
Import Db Http Props.

Lemma distinct_insert (x : UseCase) (db : Db.t) :
  literal_names_distinct db ->
  select (name_equals (useCase x)) (table db) = inr [] ->
  literal_names_distinct (insert_row x db).
Proof.
  intros Hd Hs.
  assert (forall r, r ∈ table db -> ci_equals (useCase r) (useCase x) = true ->
                    literal (useCase r) = false /\ literal (useCase x) = false) as Hnew.
  { intros r Hr Hci. rewrite (ci_equals_literal _ _ Hci).
    destruct (literal (useCase x)) eqn:Hl; [|done]. exfalso.
    pose proof (select_name_none _ db Hs r Hr) as Hno.
    rewrite (ilike_literal _ _ Hl), Hci in Hno. done. }
  assert (forall a b, ci_equals a b = ci_equals b a) as Hsym.
  { intros a b. unfold ci_equals. apply String.eqb_sym. }
  intros i j r1 r2 Hi Hj Hij Hci. simpl in Hi, Hj.
  destruct (decide (i < length (table db))%nat) as [Hi'|Hi'];
    destruct (decide (j < length (table db))%nat) as [Hj'|Hj'].
  - rewrite lookup_app_l in Hi, Hj by done. by apply (Hd i j).
  - rewrite lookup_app_l in Hi by done. rewrite lookup_app_r in Hj by lia.
    apply list_lookup_singleton_Some in Hj as [_ <-].
    apply Hnew; [by eapply list_elem_of_lookup_2|done].
  - rewrite lookup_app_l in Hj by done. rewrite lookup_app_r in Hi by lia.
    apply list_lookup_singleton_Some in Hi as [_ <-].
    rewrite Hsym in Hci. apply and_comm.
    apply Hnew; [by eapply list_elem_of_lookup_2|done].
  - rewrite lookup_app_r in Hi, Hj by lia.
    apply list_lookup_singleton_Some in Hi as [Hi _].
    apply list_lookup_singleton_Some in Hj as [Hj _]. lia.
Qed.

Lemma store_inv_empty : store_inv Db.empty.
Proof.
  split; [|split].
  - intros r Hr. by apply elem_of_nil in Hr.
  - intros i j r1 r2 Hi. done.
  - apply empty_wf.
Qed.

Lemma store_inv_insert (x : UseCase) (db : Db.t) :
  store_inv db -> id x = next_id db -> next_id db <= INT4_MAX ->
  Str.trim (useCase x) <> EmptyString -> Str.trim (conceptDescription x) <> EmptyString ->
  select (name_equals (useCase x)) (table db) = inr [] ->
  store_inv (insert_row x db).
Proof.
  intros (Hreq & Hnd & Hwf) Hid Hmax Hu Hc Ht. split; [|split].
  - intros r Hr. simpl in Hr. apply elem_of_app in Hr as [Hr|Hr]; [by apply Hreq|].
    apply list_elem_of_singleton in Hr as ->. done.
  - by apply distinct_insert.
  - by apply insert_row_wf.
Qed.

Lemma validation_required (b : RawBody) :
  createUseCaseValidation (sanitizeCreate b) = [] ->
  Str.truthy (Str.trim (default EmptyString (raw_useCase b))) = true /\
  Str.truthy (Str.trim (default EmptyString (raw_conceptDescription b))) = true.
Proof.
  unfold createUseCaseValidation. simpl. intros H.
  apply app_eq_nil in H as [H1 H]. apply app_eq_nil in H as [_ H].
  apply app_eq_nil in H as [H3 _]. by apply check_nil in H1, H3.
Qed.

Lemma created_row_required (now : Z) (b : RawBody) (db : Db.t) :
  createUseCaseValidation (sanitizeCreate b) = [] ->
  Str.trim (useCase (created_row now b db)) <> EmptyString /\
  Str.trim (conceptDescription (created_row now b db)) <> EmptyString.
Proof.
  intros H. destruct (validation_required b H) as [H1 H2]. simpl.
  rewrite !trim_idem. by split; apply truthy_true.
Qed.

Lemma valid_row_names (r : Importer.CsvRow) :
  valid_row r = true ->
  exists n d, row_name r = Some n /\ row_description r = Some d /\
              Str.trim n = n /\ Str.trim d = d /\ n <> EmptyString /\ d <> EmptyString.
Proof.
  unfold valid_row, row_name, row_description. intros H.
  apply andb_true_iff in H as [H1 H2].
  destruct (Importer.normalizeValue (Importer.csv_Use_Case r)) as [n|] eqn:Hn; [|done].
  destruct (Importer.normalizeValue (Importer.csv_Concept_description r)) as [d|] eqn:Hd;
    [|done].
  destruct (normalizeValue_Some _ _ Hn) as [Hn1 Hn2].
  destruct (normalizeValue_Some _ _ Hd) as [Hd1 Hd2].
  exists n, d. repeat split; try done; by apply truthy_true.
Qed.

Lemma processRow_inv (now : Z) (i : nat) (r : Importer.CsvRow) (st : Importer.Run) :
  store_inv (Importer.store st) -> store_inv (Importer.store (Importer.processRow now i r st)).
Proof.
  intros Hinv. destruct (valid_row r) eqn:Hvalid.
  - destruct (processRow_valid now i r st Hvalid)
      as [[_ ->]|[(Hs & _ & Hmax & ->)|[why ->]]]; [done| |done].
    simpl. destruct (valid_row_names r Hvalid) as (n & d & Hn & Hd & Hn' & Hd' & ? & ?).
    apply store_inv_insert; simpl; try done.
    + rewrite Hn. simpl. congruence.
    + rewrite Hd. simpl. congruence.
  - by rewrite (processRow_invalid now i r st Hvalid).
Qed.

Lemma processRows_inv (clock : nat -> Z) (records : list Importer.CsvRow) (i : nat)
    (st : Importer.Run) :
  store_inv (Importer.store st) ->
  store_inv (Importer.store (Importer.processRows clock i records st)).
Proof.
  revert i st. induction records as [|r records IH]; intros i st Hinv; simpl; [done|].
  by apply IH, processRow_inv.
Qed.

(** The create handler leaves the store alone unless it inserts. *)
Lemma createUseCase_store (now : Z) (b : RawBody) (db : Db.t) :
  fst (createUseCase now (sanitizeCreate b) db) = db \/
  (select (name_equals (Str.trim (default EmptyString (raw_useCase b)))) (table db) = inr [] /\
   next_id db <= INT4_MAX /\
   createUseCase now (sanitizeCreate b) db =
     (insert_row (created_row now b db) db,
      inr {| status := 201;
             body := CreatedBody "Use case created successfully" (created_row now b db) |})).
Proof.
  rewrite createUseCase_run.
  destruct (select _ (table db)) as [e|[|x l]] eqn:Hs; [by left| |by left].
  destruct (create_cases now (create_input b) db) as [[e ->]|(S1 & S2 & ->)]; [by left|].
  right. done.
Qed.

Lemma router_store (now : Z) (req : Request) (db : Db.t) :
  fst (router now req db) = db \/
  (method req = "POST" /\
   createUseCaseValidation (sanitizeCreate (req_body req)) = [] /\
   select (name_equals (Str.trim (default EmptyString (raw_useCase (req_body req)))))
     (table db) = inr [] /\
   next_id db <= INT4_MAX /\
   router now req db =
     (insert_row (created_row now (req_body req) db) db,
      inr {| status := 201;
             body := CreatedBody "Use case created successfully"
                       (created_row now (req_body req) db) |})).
Proof.
  unfold router.
  destruct (strip_slash (segments req)) as [|a [|b [|c [|]]]]; simpl; try by left.
  - destruct (_ && _)%bool; by left.
  - destruct (_ && _)%bool; [|by left].
    destruct (String.eqb (method req) "GET").
    { destruct (paginationValidation _); simpl; [|by left].
      unfold listUseCases.
      destruct (Num.parseInt _); [|by left]. destruct (Num.parseInt _); [|by left].
      run_store. destruct (INT8_MAX <? _); [by left|].
      destruct (select _ (table db)) as [e|sel] eqn:Hs; simpl; [by left|].
      rewrite Hs. simpl. by left. }
    destruct (String.eqb_spec (method req) "POST") as [Hpost|_]; [|by left].
    destruct (createUseCaseValidation (sanitizeCreate (req_body req))) eqn:Hv; [|by left].
    unfold mbind, M_bind, bind. simpl.
    destruct (createUseCase_store now (req_body req) db) as [H|(H1 & H2 & H3)]; [by left|].
    right. done.
  - destruct (_ && _)%bool; [|by left].
    destruct (is_literal "filters" c); [by left|].
    destruct (decodeURIComponent c) as [idParam|]; [|by left].
    destruct (idParamValidation idParam); simpl; [|by left].
    unfold getUseCase. destruct (Num.parseInt idParam); [|by left]. run_store.
    destruct (INT8_MAX <? _); [by left|]. destruct (INT4_MAX <? _); [by left|].
    simpl. destruct (head _); by left.
Qed.

(** A request leaves the store alone unless it creates a row. *)
Lemma app_store (cfg : Config) (now : Z) (req : Request) (db : Db.t) :
  fst (app cfg now req db) = db \/
  exists b, createUseCaseValidation (sanitizeCreate b) = [] /\
            select (name_equals (Str.trim (default EmptyString (raw_useCase b))))
              (table db) = inr [] /\
            next_id db <= INT4_MAX /\
            fst (app cfg now req db) = insert_row (created_row now b db) db.
Proof.
  unfold app. destruct (if under_api req then _ else _); [by left|].
  destruct (router_store now req db) as [H|(_ & H1 & H2 & H3 & ->)].
  - left. by destruct (router now req db) as [db' [e|r]].
  - right. by exists (req_body req).
Qed.

Lemma step_inv (cfg : Config) (db : Db.t) (op : System.Op) :
  store_inv db -> store_inv (System.step cfg db op).
Proof.
  intros Hinv. destruct op as [now req|clock records]; simpl.
  - destruct (app_store cfg now req db) as [->|(b & Hv & Ht & Hmax & ->)]; [done|].
    destruct (created_row_required now b db Hv) as [H1 H2].
    by apply store_inv_insert.
  - by apply processRows_inv.
Qed.

Lemma run_inv (cfg : Config) (ops : list System.Op) (db : Db.t) :
  store_inv db -> store_inv (System.run cfg ops db).
Proof.
  revert db. induction ops as [|op ops IH]; intros db Hinv; simpl; [done|].
  by apply IH, step_inv.
Qed.
End InvariantFacts.

(* ===================================================================== *)
(** ** The list endpoint *)
(* ===================================================================== *)

Section ListEndpoint.
Import Db Http Props.

Lemma app_GET_list_valid (cfg : Config) (now : Z) (db db' : Db.t) (q : PaginationQuery)
    (st : Z) (r : PaginatedResponse) :
  app cfg now (GET_use_cases q) db = (db', {| status := st; body := ListBody r |}) ->
  paginationValidation (sanitizeQuery q) = [].
Proof.
  unfold app, GET_use_cases, router. simpl.
  destruct (paginationValidation (sanitizeQuery q)); [done|]. simpl. done.
Qed.

Lemma with_page_valid (q : PaginationQuery) (p : string) :
  paginationValidation (sanitizeQuery q) = [] -> Num.isInt 1 None p = true ->
  paginationValidation (sanitizeQuery (with_page p q)) = [].
Proof.
  intros Hv Hp. revert Hv. unfold paginationValidation. simpl. rewrite Hp. simpl.
  intros Hv. apply app_eq_nil in Hv as [_ Hv]. done.
Qed.

Lemma matched_elem (q : PaginationQuery) (db : Db.t) (u : UseCase) :
  u ∈ matched q db <-> u ∈ table db /\ satisfies q u.
Proof. unfold matched. rewrite list_elem_of_filter, list_where_reads. tauto. Qed.

Lemma select_matched (q : PaginationQuery) (db : Db.t) :
  literal_query q -> select (list_where q) (table db) = inr (matched q db).
Proof. intros Hq. by apply select_literal, literal_list_where. Qed.



(** C5, amended.  A filter parameter counts after trimming and only when
    something is left of it; the store compares it as a pattern, so the
    statement is about parameters that are taken literally.  For such a
    query that passes validation: a row that is returned, on whatever
    page, is stored and passes all the filters together (its industry,
    value chain step and department equal the respective trimmed parameter
    up to case, and the trimmed search string occurs up to case in its
    name, description or benefit); when the rows that pass the filters fit
    on one page, the first page returns exactly those rows; and when the
    creation times of the table are distinct, every row that passes the
    filters is returned on some page. *)
Theorem list_filter_semantics (cfg : Config) (now : Z) (db : Db.t) (q : PaginationQuery)
    (u : UseCase) :
  paginationValidation (sanitizeQuery q) = [] ->
  literal_query q ->
  (forall p r,
     app cfg now (GET_use_cases (with_page p q)) db =
       (db, {| status := 200; body := ListBody r |}) ->
     u ∈ data r -> u ∈ table db /\ satisfies q u) /\
  (forall l,
     limit_of q = Some l -> Z.of_nat (length (matched q db)) <= l ->
     exists r,
       app cfg now (GET_use_cases (with_page "1" q)) db =
         (db, {| status := 200; body := ListBody r |}) /\
       (u ∈ data r <-> u ∈ table db /\ satisfies q u)) /\
  (NoDup (createdAt <$> table db) ->
   Z.of_nat (length (table db)) <= Num.MAX_SAFE_INTEGER ->
   u ∈ table db -> satisfies q u ->
   exists p r, Num.isInt 1 None p = true /\
               app cfg now (GET_use_cases (with_page p q)) db =
                 (db, {| status := 200; body := ListBody r |}) /\
               u ∈ data r).
Proof.
  intros Hv Hq.
  destruct (valid_page_limit q Hv) as (p0 & l & _ & Hl & _ & Hl1).
  assert (forall x, x ∈ orderBy_createdAt_desc (matched q db) <->
                    x ∈ table db /\ satisfies q x) as Hm.
  { intros x. rewrite orderBy_perm. apply matched_elem. }
  split; [|split].
  - intros p r Happ Hu.
    pose proof (app_GET_list_valid _ _ _ _ _ _ _ Happ) as Hv'.
    destruct (app_GET_use_cases_inv _ _ _ _ _ _ _ Hv' Happ)
      as (p2 & l2 & sel & _ & _ & _ & _ & _ & Hs & _ & Hresp).
    change (list_where (with_page p q)) with (list_where q) in Hs.
    rewrite (select_matched q db Hq) in Hs. injection Hs as <-.
    injection Hresp as ->. simpl in Hu.
    apply window_elem in Hu as (i & _ & Hi).
    apply Hm. by apply list_elem_of_lookup_2 in Hi.
  - intros l' Hl' Hfit. assert (l' = l) as -> by congruence.
    eexists. split.
    { apply (app_GET_use_cases cfg now db (with_page "1" q) 1 l (matched q db)).
      - by apply with_page_valid.
      - reflexivity.
      - exact Hl.
      - unfold INT8_MAX. lia.
      - by apply (select_matched q db). }
    cbn [data body]. replace (Z.to_nat ((1 - 1) * l)) with 0%nat by lia.
    rewrite drop_0, take_ge by (rewrite orderBy_length; lia). apply Hm.
  - intros _ Hsize Hu Hsat.
    assert (u ∈ orderBy_createdAt_desc (matched q db)) as Hin by by apply Hm.
    apply list_elem_of_lookup in Hin as [i Hi].
    assert (i < length (table db))%nat as Hlt.
    { apply lookup_lt_Some in Hi. rewrite orderBy_length in Hi.
      pose proof (length_filter (fun r => where_reads (list_where q) r = true) (table db)).
      unfold matched in Hi. lia. }
    set (n := Z.of_nat i / l + 1).
    pose proof (Z.mod_pos_bound (Z.of_nat i) l ltac:(lia)) as Hmod.
    pose proof (Z.div_mod (Z.of_nat i) l ltac:(lia)) as Hdm.
    pose proof (Z.div_pos (Z.of_nat i) l ltac:(lia) ltac:(lia)) as Hdiv.
    destruct (numeral_exists 1 n None ltac:(unfold n; lia) ltac:(unfold n; lia) I)
      as (p & Hp & Hparse).
    exists p. eexists. split; [done|]. split.
    + apply (app_GET_use_cases cfg now db (with_page p q) n l (matched q db)).
      * by apply with_page_valid.
      * exact Hparse.
      * exact Hl.
      * unfold INT8_MAX, Num.MAX_SAFE_INTEGER in *. unfold n. nia.
      * by apply (select_matched q db).
    + simpl. apply window_elem. exists (Z.to_nat (Z.of_nat i mod l)).
      split; [lia|].
      replace (Z.to_nat ((n - 1) * l) + Z.to_nat (Z.of_nat i mod l))%nat with i; [done|].
      unfold n. nia.
Qed.
End ListEndpoint.

(* ===================================================================== *)
(** ** The create endpoint *)
(* ===================================================================== *)

Section CreateEndpoint.
Import Db Http Props.

Lemma name_count_insert (n : string) (x : UseCase) (db : Db.t) :
  name_taken n db = false -> ci_equals (useCase x) n = true ->
  length (filter (fun r => ci_equals (useCase r) n = true) (table (insert_row x db))) = 1%nat.
Proof.
  unfold name_taken. intros Ht Hx. simpl. rewrite filter_app, length_app.
  rewrite filter_cons, decide_True by done. simpl.
  assert (filter (fun r => ci_equals (useCase r) n = true) (table db) = []) as ->; [|done].
  induction (table db) as [|r rows IH]; [done|]. simpl in Ht.
  apply orb_false_iff in Ht as [Hr Hrows].
  rewrite filter_cons, decide_False by congruence. by apply IH.
Qed.

(** C1, as the code has it.  For a name that the store takes literally
    (it holds no percent sign, underscore, backslash or zero character):
    creating the same name twice in a row, up to case and surrounding
    white space, stores one row; the first request is answered with 201
    and the second with 409.  In any store, a create request whose trimmed
    name equals a stored name up to case stores nothing and is answered
    with 409.  The code of that error body is APP_ERROR, not
    DUPLICATE_ENTRY. *)
Theorem duplicate_name_conflict (cfg : Config) (now1 now2 : Z) (db : Db.t)
    (key1 key2 : option string) (b1 b2 : RawBody) :
  authorized cfg key1 = true -> authorized cfg key2 = true ->
  createUseCaseValidation (sanitizeCreate b1) = [] ->
  createUseCaseValidation (sanitizeCreate b2) = [] ->
  literal (Str.trim (default EmptyString (raw_useCase b1))) = true ->
  ci_equals (Str.trim (default EmptyString (raw_useCase b1)))
    (Str.trim (default EmptyString (raw_useCase b2))) = true ->
  name_taken (Str.trim (default EmptyString (raw_useCase b1))) db = false ->
  storable_body b1 = true -> next_id db <= INT4_MAX ->
  exists db1 r1,
    app cfg now1 (POST_use_cases key1 b1) db = (db1, r1) /\ status r1 = 201 /\
    app cfg now2 (POST_use_cases key2 b2) db1 =
      (db1, {| status := 409;
               body := ErrorBody "A use case with this name already exists"
                         "APP_ERROR" None |}) /\
    length (filter (fun r => ci_equals (useCase r)
                               (Str.trim (default EmptyString (raw_useCase b1))) = true)
              (table db1)) = 1%nat /\
    (forall now' db',
       name_taken (Str.trim (default EmptyString (raw_useCase b2))) db' = true ->
       app cfg now' (POST_use_cases key2 b2) db' =
         (db', {| status := 409;
                  body := ErrorBody "A use case with this name already exists"
                            "APP_ERROR" None |})).
Proof.
  intros Ha1 Ha2 Hv1 Hv2 Hl Hci Ht Hs Hn.
  assert (literal (Str.trim (default EmptyString (raw_useCase b2))) = true) as Hl2.
  { by rewrite <- (ci_equals_literal _ _ Hci). }
  eexists _, _. split; [by apply app_POST_created|]. split; [done|].
  split; [|split].
  - apply app_POST_duplicate; [done..|].
    rewrite name_taken_insert. simpl. rewrite Hci. apply orb_true_r.
  - apply name_count_insert; [done|]. simpl. apply ci_equals_refl.
  - intros now' db' Ht'. by apply app_POST_duplicate.
Qed.

Lemma url_rule_invalid (b : RawBody) (u : string) :
  raw_url b = Some u -> Str.trim u <> EmptyString ->
  Regex.test Regex.urlRegex (Str.trim u) = false ->
  {| path := "url"; msg := "Invalid URL format" |}
    ∈ createUseCaseValidation (sanitizeCreate b).
Proof.
  intros Hu Hne Hre. unfold createUseCaseValidation. simpl. rewrite Hu. simpl.
  unfold url_rule. rewrite <- truthy_len, Hre.
  apply truthy_true in Hne. rewrite Hne. simpl.
  rewrite !elem_of_app. do 9 right. apply list_elem_of_here.
Qed.

Lemma url_rule_valid (b : RawBody) (u : string) :
  createUseCaseValidation (sanitizeCreate b) = [] -> raw_url b = Some u ->
  Str.trim u = EmptyString \/ Regex.test Regex.urlRegex (Str.trim u) = true.
Proof.
  intros Hv Hu. destruct (Str.trim u) as [|c t] eqn:Ht; [by left|]. right.
  destruct (Regex.test Regex.urlRegex (String c t)) eqn:Hre; [done|]. exfalso.
  pose proof (url_rule_invalid b u Hu) as Hin. rewrite Ht, Hv in Hin.
  by apply elem_of_nil in Hin.
Qed.

(** C2, amended.  The importer stores the normalized URL of a record
    whatever its shape, and only warns when the shape is invalid: whenever
    it counts a record as inserted, the row it appended carries the
    normalized URL.  The create endpoint is strict: a URL that is not
    empty after trimming and does not match the pattern fails validation
    with 400 and nothing is stored; whenever the endpoint answers 201, the
    stored row carries the trimmed URL, which is then empty or matches the
    pattern. *)
Theorem url_validation_by_path (cfg : Config) (now : Z) (db : Db.t) (key : option string)
    (b : RawBody) (i : nat) (c : Importer.CsvRow) (st : Importer.Run) :
  (Importer.inserted (Importer.stats (Importer.processRow now i c st)) =
     Importer.inserted (Importer.stats st) + 1 ->
   exists row,
     Importer.store (Importer.processRow now i c st) = insert_row row (Importer.store st) /\
     url row = Importer.normalizeValue (Importer.csv_URL c) /\
     Importer.warnings (Importer.processRow now i c st) =
       Importer.warnings st ++ (if url_warning c then [Z.of_nat i + 2] else [])) /\
  (authorized cfg key = true ->
   forall u, raw_url b = Some u -> Str.trim u <> EmptyString ->
     Regex.test Regex.urlRegex (Str.trim u) = false ->
     exists details,
       app cfg now (POST_use_cases key b) db =
         (db, {| status := 400;
                 body := ErrorBody "Validation failed" "VALIDATION_ERROR" (Some details) |}) /\
       {| field := "url"; detail_message := "Invalid URL format" |} ∈ details) /\
  (forall db' r,
     app cfg now (POST_use_cases key b) db = (db', r) -> status r = 201 ->
     exists row,
       body r = CreatedBody "Use case created successfully" row /\
       table db' = table db ++ [row] /\
       url row = Str.trim <$> raw_url b /\
       forall u, url row = Some u ->
                 u = EmptyString \/ Regex.test Regex.urlRegex u = true).
Proof.
  split; [|split].
  - intros Hins. destruct (valid_row c) eqn:Hvalid.
    + destruct (processRow_valid now i c st Hvalid)
        as [[_ Hp]|[(_ & _ & _ & Hp)|[why Hp]]]; rewrite Hp in Hins |- *; simpl in *;
        try lia.
      eexists. done.
    + rewrite (processRow_invalid now i c st Hvalid) in Hins. simpl in Hins. lia.
  - intros Ha u Hu Hne Hre. eexists. split.
    + apply app_POST_invalid; [done|]. intros Hnil.
      pose proof (url_rule_invalid b u Hu Hne Hre) as Hin. rewrite Hnil in Hin.
      by apply elem_of_nil in Hin.
    + apply (list_elem_of_fmap_2 (fun v => {| field := path v; detail_message := msg v |})
               _ _ (url_rule_invalid b u Hu Hne Hre)).
  - intros db' r Happ Hst.
    destruct (app_POST_inv cfg now db db' key b r Happ Hst)
      as (_ & Hv & _ & _ & _ & -> & ->).
    eexists. split; [reflexivity|]. split; [done|]. split; [done|].
    simpl. intros u Hu. destruct (raw_url b) as [u0|] eqn:Hu0; [|done].
    simpl in Hu. injection Hu as <-. by apply (url_rule_valid b u0).
Qed.


(** C8.  With a configured secret, a POST under /api whose x-api-key
    header is missing or differs from the secret is answered with 401 and
    no handler touches the store; without a configured secret the check
    only logs a warning and every POST proceeds to its route; a request
    that is not a POST is never stopped by the check. *)
Theorem api_key_gate (cfg : Config) (now : Z) (req : Request) (db : Db.t) :
  (API_KEY cfg <> EmptyString -> method req = "POST" -> under_api req = true ->
   x_api_key req <> Some (API_KEY cfg) ->
   app cfg now req db =
     (db, {| status := 401;
             body := ErrorBody "Unauthorized: Invalid or missing API key"
                       "UNAUTHORIZED_ERROR" None |})) /\
  (API_KEY cfg <> EmptyString -> method req = "POST" ->
   x_api_key req = Some (API_KEY cfg) ->
   next_error (apiKeyAuthMiddleware cfg (method req) (x_api_key req)) = None) /\
  (API_KEY cfg = EmptyString -> method req = "POST" ->
   apiKeyAuthMiddleware cfg (method req) (x_api_key req) =
     {| console := ["WARNING: API_KEY is not configured. POST requests are unprotected."];
        next_error := None |} /\
   app cfg now req db =
     match router now req db with
     | (db', inr r) => (db', r)
     | (db', inl e) => (db', errorHandler cfg e)
     end) /\
  (method req <> "POST" ->
   apiKeyAuthMiddleware cfg (method req) (x_api_key req) =
     {| console := []; next_error := None |}).
Proof.
  unfold app, apiKeyAuthMiddleware. split; [|split; [|split]].
  - intros Hkey -> -> Hne. simpl. apply truthy_true in Hkey. rewrite Hkey. simpl.
    destruct (x_api_key req) as [k|]; simpl; [|done].
    rewrite bool_decide_eq_false_2 by done. simpl. by rewrite orb_true_r.
  - intros Hkey -> ->. simpl. apply truthy_true in Hkey. rewrite Hkey. simpl.
    rewrite bool_decide_eq_true_2 by done. done.
  - intros Hkey ->. simpl. rewrite Hkey. simpl. split; [done|].
    by destruct (under_api req).
  - intros Hm. destruct (String.eqb_spec (method req) "POST"); done.
Qed.
End CreateEndpoint.

(* ===================================================================== *)
(** ** The item endpoint *)
(* ===================================================================== *)

Section ItemEndpoint.
Import Db Http Props.

Lemma findUnique_present (rows : list UseCase) (r : UseCase) :
  NoDup (id <$> rows) -> r ∈ rows -> filter (fun x => id x = id r) rows = [r].
Proof.
  induction rows as [|x rows IH]; intros Hnd Hr; [by apply elem_of_nil in Hr|].
  rewrite fmap_cons in Hnd. apply NoDup_cons in Hnd as [Hx Hnd].
  rewrite filter_cons. apply elem_of_cons in Hr as [->|Hr].
  - rewrite decide_True by done. by rewrite findUnique_absent.
  - rewrite decide_False; [by apply IH|].
    intros Heq. apply Hx. rewrite Heq. by apply list_elem_of_fmap_2.
Qed.

(** C4, as the code has it.  A request for a positive integer id within
    the 32 bits of the id column that no stored row carries is answered
    with 404; the code of the error body is NOTFOUND_ERROR, not NOT_FOUND.
    A request for the id of a stored row is answered with 200 and the full
    row.  An id that is not a positive integer fails validation with 400
    (the id being a path segment that is not the word filters and needs no
    decoding). *)
Theorem get_by_id_responses (cfg : Config) (now : Z) (db : Db.t) (idParam : string) :
  (Num.isInt 1 None idParam = true ->
   exists i,
     Num.parseInt idParam = Some i /\ 1 <= i /\
     (i <= INT4_MAX -> (forall r, r ∈ table db -> id r <> i) ->
      app cfg now (GET_use_case idParam) db =
        (db, {| status := 404;
                body := ErrorBody
                          (String.append "UseCase"
                             (String.append " with id "
                                (String.append (Str.of_Z i) " not found")))
                          "NOTFOUND_ERROR" None |})) /\
     (forall r, i <= INT4_MAX -> NoDup (id <$> table db) -> r ∈ table db -> id r = i ->
                app cfg now (GET_use_case idParam) db =
                  (db, {| status := 200; body := ItemBody r |}))) /\
  (Num.isInt 1 None idParam = false -> plain_segment idParam = true ->
   Str.toLowerCase idParam <> "filters" ->
   app cfg now (GET_use_case idParam) db =
     (db, {| status := 400;
             body := ErrorBody "Validation failed" "VALIDATION_ERROR"
                       (Some [{| field := "id";
                                 detail_message := "ID must be a positive integer" |}]) |})).
Proof.
  split; [|intros; by apply app_GET_use_case_invalid].
  intros Hint. destruct (isInt_parseInt _ _ _ Hint) as (i & Hparse & Hi & _).
  exists i. split; [done|]. split; [done|]. split.
  - intros Hmax Hnone.
    rewrite (app_GET_use_case_valid cfg now db idParam i Hint Hparse Hmax).
    rewrite findUnique_absent; [done|].
    intros Hin. apply list_elem_of_fmap in Hin as (r & Heq & Hr). by apply (Hnone r).
  - intros r Hmax Hnd Hr <-.
    rewrite (app_GET_use_case_valid cfg now db idParam _ Hint Hparse Hmax).
    by rewrite findUnique_present.
Qed.
End ItemEndpoint.

(* ===================================================================== *)
(** ** The importer *)
(* ===================================================================== *)

Section ImporterRuns.
Import Db Props Importer.

End ImporterRuns.

(* ===================================================================== *)
(** ** Invariants of the store *)
(* ===================================================================== *)

Section StoreInvariants.
Import Db Props.

(** C9, as the code has it.  After any sequence of requests to the
    application and runs of the importer, starting from the empty store,
    the name and the description of every stored row are not empty after
    trimming, and two rows carry the same name up to case only if that
    name holds a character that the duplicate check does not take
    literally (a percent sign, an underscore or a backslash). *)
Theorem stored_rows_invariant (cfg : Http.Config) (ops : list System.Op) :
  required_present (System.run cfg ops Db.empty) /\
  literal_names_distinct (System.run cfg ops Db.empty).
Proof.
  destruct (run_inv cfg ops Db.empty store_inv_empty) as (Hreq & Hnd & _). done.
Qed.

(** The stores the system reaches satisfy the key guarantees that the
    create endpoint relies on. *)
Lemma reachable_wf (cfg : Http.Config) (ops : list System.Op) :
  db_wf (System.run cfg ops Db.empty).
Proof. by destruct (run_inv cfg ops Db.empty store_inv_empty) as (_ & _ & ?). Qed.
End StoreInvariants.

(* ===================================================================== *)
(** ** The properties on concrete inputs *)
(* ===================================================================== *)

(** Decides that the parameters of a concrete query are taken literally. *)
Ltac literal_concrete :=
  repeat split; intros v Hv; vm_compute in Hv;
  first [discriminate | injection Hv as <-; reflexivity].

Section Concrete.
Import Db Http Props.



Lemma satisfies_pricing : satisfies Fixtures.search_pricing Fixtures.retail_row.
Proof.
  split; [|split; [|split]].
  - intros v Hv. vm_compute in Hv. injection Hv as <-. eexists. split; reflexivity.
  - intros v Hv. vm_compute in Hv. discriminate.
  - intros v Hv. vm_compute in Hv. discriminate.
  - intros v Hv. vm_compute in Hv. injection Hv as <-. left. reflexivity.
Defined.

Lemma list_filter_semantics_witness :
  paginationValidation (sanitizeQuery Fixtures.search_pricing) = [] /\
  (exists r,
     app Fixtures.cfg 0 (GET_use_cases (with_page "1" Fixtures.search_pricing))
       Fixtures.retail_db = (Fixtures.retail_db, {| status := 200; body := ListBody r |}) /\
     Fixtures.retail_row ∈ data r) /\
  (exists p r,
     Num.isInt 1 None p = true /\
     app Fixtures.cfg 0 (GET_use_cases (with_page p Fixtures.search_pricing))
       Fixtures.retail_db = (Fixtures.retail_db, {| status := 200; body := ListBody r |}) /\
     Fixtures.retail_row ∈ data r).
Proof.
  split; [vm_compute; reflexivity|].
  destruct (list_filter_semantics Fixtures.cfg 0 Fixtures.retail_db Fixtures.search_pricing
              Fixtures.retail_row) as (_ & Hone & Hsome);
    [vm_compute; reflexivity|literal_concrete|].
  split.
  - destruct (Hone 10) as (r & Happ & Hiff); [reflexivity|vm_compute; discriminate|].
    exists r. split; [exact Happ|]. apply Hiff.
    split; [apply list_elem_of_here|apply satisfies_pricing].
  - apply Hsome.
    + apply NoDup_singleton.
    + vm_compute. discriminate.
    + apply list_elem_of_here.
    + apply satisfies_pricing.
Defined.

(** C5, as stated, fails: the query string [?industry=] supplies an empty
    industry; the only stored row has the industry Retail and is returned
    all the same. *)
Lemma stated_filter_counterexample :
  ~ ((exists p r,
        Num.isInt 1 None p = true /\
        app Fixtures.cfg 0 (GET_use_cases (with_page p Fixtures.empty_industry))
          Fixtures.retail_db = (Fixtures.retail_db, {| status := 200; body := ListBody r |}) /\
        Fixtures.retail_row ∈ data r)
     <-> Fixtures.retail_row ∈ table Fixtures.retail_db /\
         stated_filter Fixtures.empty_industry Fixtures.retail_row = true).
Proof.
  intros [Hreturned _]. destruct Hreturned as [_ Hstated]; [|by vm_compute in Hstated].
  exists "1". eexists. split; [by vm_compute|]. split; [by vm_compute|].
  apply list_elem_of_here.
Qed.
End Concrete.

Section ConcreteCreate.
Import Db Http Props.

Lemma duplicate_name_conflict_witness :
  exists db1 r1,
    app Fixtures.cfg 100 (POST_use_cases Fixtures.key Fixtures.maintenance) Db.empty =
      (db1, r1) /\ status r1 = 201 /\
    app Fixtures.cfg 200 (POST_use_cases Fixtures.key Fixtures.maintenance_shouted) db1 =
      (db1, {| status := 409;
               body := ErrorBody "A use case with this name already exists"
                         "APP_ERROR" None |}) /\
    length (filter (fun r => ci_equals (useCase r) "Predictive Maintenance" = true)
              (table db1)) = 1%nat /\
    app Fixtures.cfg 300 (POST_use_cases Fixtures.key Fixtures.maintenance_shouted)
      Fixtures.maintenance_db =
      (Fixtures.maintenance_db,
       {| status := 409;
          body := ErrorBody "A use case with this name already exists"
                    "APP_ERROR" None |}).
Proof.
  destruct (duplicate_name_conflict Fixtures.cfg 100 200 Db.empty Fixtures.key
              Fixtures.key Fixtures.maintenance Fixtures.maintenance_shouted)
    as (db1 & r1 & Hfirst & Hstatus & Hsecond & Hcount & Hany);
    [vm_compute; reflexivity..|vm_compute; discriminate|].
  exists db1, r1. split; [exact Hfirst|]. split; [exact Hstatus|].
  split; [exact Hsecond|]. split; [exact Hcount|].
  apply Hany. vm_compute. reflexivity.
Defined.

(** C2, as stated, fails on the create endpoint: the URL [not a url] does
    not match the pattern, and the request that carries it is answered
    with 400 and stores nothing. *)
Lemma create_rejects_invalid_url :
  Regex.test Regex.urlRegex "not a url" = false /\
  app Fixtures.cfg 100 (POST_use_cases Fixtures.key Fixtures.maintenance_bad_url) Db.empty =
    (Db.empty,
     {| status := 400;
        body := ErrorBody "Validation failed" "VALIDATION_ERROR"
                  (Some [{| field := "url"; detail_message := "Invalid URL format" |}]) |}).
Proof. split; vm_compute; reflexivity. Qed.

Lemma url_validation_by_path_witness :
  (exists row,
     Importer.store
       (Importer.importUseCases Fixtures.noon [Fixtures.csv_pricing] Db.empty) =
       insert_row row Db.empty /\
     url row = Some "see intranet" /\
     Importer.isValidUrl "see intranet" = false) /\
  (exists details,
     app Fixtures.cfg 100 (POST_use_cases Fixtures.key Fixtures.maintenance_bad_url)
       Db.empty =
       (Db.empty,
        {| status := 400;
           body := ErrorBody "Validation failed" "VALIDATION_ERROR" (Some details) |}) /\
     {| field := "url"; detail_message := "Invalid URL format" |} ∈ details) /\
  (exists db' r row,
     app Fixtures.cfg 100 (POST_use_cases Fixtures.key Fixtures.maintenance) Db.empty =
       (db', r) /\ status r = 201 /\
     body r = CreatedBody "Use case created successfully" row /\
     table db' = [row] /\ url row = None).
Proof.
  pose (st0 := {| Importer.store := Db.empty;
                  Importer.stats := Importer.mkStats 1 0 0 0 0 [];
                  Importer.warnings := [] |}).
  split; [|split].
  - destruct (url_validation_by_path Fixtures.cfg 1000 Db.empty Fixtures.key
                Fixtures.maintenance 0 Fixtures.csv_pricing st0) as (Himport & _ & _).
    destruct Himport as (row & Hstore & Hurl & _); [vm_compute; reflexivity|].
    exists row. split; [exact Hstore|]. split; [exact Hurl|]. vm_compute. reflexivity.
  - destruct (url_validation_by_path Fixtures.cfg 100 Db.empty Fixtures.key
                Fixtures.maintenance_bad_url 0 Fixtures.csv_pricing st0) as (_ & Hstrict & _).
    apply (Hstrict eq_refl "not a url"); [reflexivity|discriminate|vm_compute; reflexivity].
  - destruct (url_validation_by_path Fixtures.cfg 100 Db.empty Fixtures.key
                Fixtures.maintenance 0 Fixtures.csv_pricing st0) as (_ & _ & Haccept).
    destruct (app Fixtures.cfg 100 (POST_use_cases Fixtures.key Fixtures.maintenance)
                Db.empty) as [db' r] eqn:Happ.
    assert (status r = 201) as Hst.
    { vm_compute in Happ. injection Happ as _ <-. reflexivity. }
    destruct (Haccept db' r eq_refl Hst) as (row & Hbody & Htable & Hurl & _).
    exists db', r, row. split; [reflexivity|]. split; [exact Hst|].
    split; [exact Hbody|]. split; [exact Htable|exact Hurl].
Defined.


Lemma api_key_gate_witness :
  app Fixtures.cfg 100 (POST_use_cases Fixtures.wrong_key Fixtures.maintenance) Db.empty =
    (Db.empty,
     {| status := 401;
        body := ErrorBody "Unauthorized: Invalid or missing API key"
                  "UNAUTHORIZED_ERROR" None |}) /\
  app Fixtures.cfg 100 (POST_use_cases None Fixtures.maintenance) Db.empty =
    (Db.empty,
     {| status := 401;
        body := ErrorBody "Unauthorized: Invalid or missing API key"
                  "UNAUTHORIZED_ERROR" None |}) /\
  next_error (apiKeyAuthMiddleware Fixtures.cfg "POST" Fixtures.key) = None /\
  next_error (apiKeyAuthMiddleware Fixtures.open_cfg "POST" None) = None /\
  apiKeyAuthMiddleware Fixtures.cfg "GET" None = {| console := []; next_error := None |}.
Proof.
  split; [|split; [|split; [|split]]].
  - apply (api_key_gate Fixtures.cfg 100
             (POST_use_cases Fixtures.wrong_key Fixtures.maintenance) Db.empty);
      [discriminate|reflexivity|reflexivity|discriminate].
  - apply (api_key_gate Fixtures.cfg 100
             (POST_use_cases None Fixtures.maintenance) Db.empty);
      [discriminate|reflexivity|reflexivity|discriminate].
  - apply (api_key_gate Fixtures.cfg 100
             (POST_use_cases Fixtures.key Fixtures.maintenance) Db.empty);
      [discriminate|reflexivity|reflexivity].
  - destruct (api_key_gate Fixtures.open_cfg 100
                (POST_use_cases None Fixtures.maintenance) Db.empty)
      as (_ & _ & Hopen & _).
    destruct Hopen as [Hwarn _]; [reflexivity..|].
    simpl in Hwarn. rewrite Hwarn. reflexivity.
  - apply (api_key_gate Fixtures.cfg 100 (GET_use_case "1") Db.empty). discriminate.
Defined.

Lemma get_by_id_responses_witness :
  app Fixtures.cfg 100 (GET_use_case "2") Fixtures.maintenance_db =
    (Fixtures.maintenance_db,
     {| status := 404;
        body := ErrorBody "UseCase with id 2 not found" "NOTFOUND_ERROR" None |}) /\
  app Fixtures.cfg 100 (GET_use_case "1") Fixtures.maintenance_db =
    (Fixtures.maintenance_db,
     {| status := 200; body := ItemBody Fixtures.maintenance_row |}) /\
  app Fixtures.cfg 100 (GET_use_case "0") Fixtures.maintenance_db =
    (Fixtures.maintenance_db,
     {| status := 400;
        body := ErrorBody "Validation failed" "VALIDATION_ERROR"
                  (Some [{| field := "id";
                            detail_message := "ID must be a positive integer" |}]) |}) /\
  app Fixtures.cfg 100 (GET_use_case "1.5") Fixtures.maintenance_db =
    (Fixtures.maintenance_db,
     {| status := 400;
        body := ErrorBody "Validation failed" "VALIDATION_ERROR"
                  (Some [{| field := "id";
                            detail_message := "ID must be a positive integer" |}]) |}).
Proof.
  split; [|split; [|split]].
  - destruct (get_by_id_responses Fixtures.cfg 100 Fixtures.maintenance_db "2")
      as [Hvalid _].
    destruct Hvalid as (i & Hparse & _ & Hmissing & _); [vm_compute; reflexivity|].
    vm_compute in Hparse. injection Hparse as <-. apply Hmissing.
    + vm_compute. discriminate.
    + intros r Hr. apply list_elem_of_singleton in Hr as ->. discriminate.
  - destruct (get_by_id_responses Fixtures.cfg 100 Fixtures.maintenance_db "1")
      as [Hvalid _].
    destruct Hvalid as (i & Hparse & _ & _ & Hfound); [vm_compute; reflexivity|].
    vm_compute in Hparse. injection Hparse as <-. apply Hfound.
    + vm_compute. discriminate.
    + apply NoDup_singleton.
    + apply list_elem_of_here.
    + reflexivity.
  - apply (get_by_id_responses Fixtures.cfg 100 Fixtures.maintenance_db "0");
      [vm_compute; reflexivity|vm_compute; reflexivity|discriminate].
  - apply (get_by_id_responses Fixtures.cfg 100 Fixtures.maintenance_db "1.5");
      [vm_compute; reflexivity|vm_compute; reflexivity|discriminate].
Defined.
End ConcreteCreate.

Section ConcreteImport.
Import Db Http Props Importer.




(** C9, as stated, fails: a backslash in a name makes the duplicate check
    look for another text, so the same name is stored twice. *)
Lemma escaped_name_stored_twice :
  let db := System.run Fixtures.cfg
              [System.Serve 100 (POST_use_cases Fixtures.key Samples.escaped);
               System.Serve 200 (POST_use_cases Fixtures.key Samples.escaped)] Db.empty in
  (useCase <$> table db = ["AC\DC"; "AC\DC"]%string) /\ ~ names_distinct db.
Proof.
  split; [vm_compute; reflexivity|].
  intros H. specialize (H 0%nat 1%nat _ _ eq_refl eq_refl ltac:(lia)).
  vm_compute in H. discriminate.
Qed.
End ConcreteImport.

(** ** The store client and the router at their edges *)

Section Boundary.
Import Db Http Props Terms.

(** An underscore in a submitted name stands for any character: the name
    is refused because of a stored name that differs from it. *)
Example underscore_name_conflict :
  app Fixtures.cfg 100
    (POST_use_cases Fixtures.key
       (mkRawBody (Some "Dynamic_Pricing") (Some "Prices that follow demand")
          None None None None None None))
    Fixtures.retail_db =
    (Fixtures.retail_db,
     {| status := 409;
        body := ErrorBody "A use case with this name already exists" "APP_ERROR" None |}).
Proof. vm_compute. reflexivity. Qed.

(** A percent sign as search string selects every row. *)
Example percent_search_selects_all :
  exists r,
    app Fixtures.cfg 100
      (GET_use_cases (mkQuery None None None None None (Some "%"))) Samples.three_db =
      (Samples.three_db, {| status := 200; body := ListBody r |}) /\
    total (pagination r) = 3.
Proof. eexists. split; vm_compute; reflexivity. Qed.

(** An id beyond the 32 bits of the column makes the store client fail. *)
Example id_beyond_column :
  status (snd (app Fixtures.cfg 100 (GET_use_case "2147483648") Samples.three_db)) = 500.
Proof. vm_compute. reflexivity. Qed.

(** A page that passes validation and whose offset is beyond 64 bits is
    refused by the store client. *)
Example page_beyond_skip :
  paginationValidation
    (sanitizeQuery (mkQuery (Some "99999999999999999999") (Some "100") None None None None))
    = [] /\
  status (snd (app Fixtures.cfg 100
                 (GET_use_cases
                    (mkQuery (Some "99999999999999999999") (Some "100")
                       None None None None))
                 Samples.three_db)) = 400.
Proof. split; vm_compute; reflexivity. Qed.

(** Routes are matched without regard to case and with a trailing slash. *)
Example filters_route_any_case :
  app Fixtures.cfg 100
    {| method := "GET"; segments := ["API"; "use-cases"; "FILTERS"; EmptyString];
       x_api_key := None; query := no_query; req_body := no_body |}
    Samples.three_db =
  app Fixtures.cfg 100 GET_filters Samples.three_db.
Proof. vm_compute. reflexivity. Qed.
End Boundary.

(* ===================================================================== *)
(** * Further properties of the code *)
(* ===================================================================== *)

(** ** The URL pattern *)

Section UrlPattern.
Import Regex RegexSem.

Lemma nullable_lang (r : re) : nullable r = true -> lang r EmptyString.
Proof.
  induction r as [| |p|a IHa b IHb|a IHa b IHb|a IHa]; simpl; intros H; try done.
  - constructor.
  - apply orb_true_iff in H as [H|H]; [apply lang_alt_l|apply lang_alt_r]; auto.
  - apply andb_true_iff in H as [Ha Hb].
    apply (lang_seq a b EmptyString EmptyString); auto.
  - constructor.
Qed.

Lemma lang_Void (s : string) : ~ lang Void s.
Proof. intros H. inversion H. Qed.

Lemma alt_lang (a b : re) (s : string) : lang (alt a b) s -> lang (Alt a b) s.
Proof.
  destruct a, b; simpl; intros H;
    try (by apply lang_alt_l); try (by apply lang_alt_r);
    try (by apply lang_Void in H); done.
Qed.

Lemma seq_lang (a b : re) (s : string) : lang (seq a b) s -> lang (Seq a b) s.
Proof.
  destruct a, b; simpl; intros H; try (by apply lang_Void in H); try done;
    by apply (lang_seq Eps _ EmptyString s); [constructor|].
Qed.

Lemma deriv_lang (c : ascii) (r : re) (s : string) :
  lang (deriv c r) s -> lang r (String c s).
Proof.
  revert s. induction r as [| |p|a IHa b IHb|a IHa b IHb|a IHa]; simpl; intros s H.
  - by apply lang_Void in H.
  - by apply lang_Void in H.
  - destruct (p c) eqn:Hp; [|by apply lang_Void in H].
    inversion H; subst. by constructor.
  - apply alt_lang in H. inversion H; subst; [apply lang_alt_l|apply lang_alt_r]; auto.
  - destruct (nullable a) eqn:Hn.
    + apply alt_lang in H. inversion H as [| |? ? ? H'|? ? ? H'| | |]; subst.
      * apply seq_lang in H'. inversion H'; subst.
        apply (lang_seq a b (String c _) _); auto.
      * apply (lang_seq a b EmptyString (String c s)); [by apply nullable_lang|auto].
    + apply seq_lang in H. inversion H; subst.
      apply (lang_seq a b (String c _) _); auto.
  - apply seq_lang in H. inversion H; subst.
    apply (lang_star_step a (String c _) _); auto.
Qed.

(** A string the matcher accepts belongs to the language of the pattern. *)
Lemma test_lang (r : re) (s : string) : test r s = true -> lang r s.
Proof.
  revert r. induction s as [|c s IH]; simpl; intros r H.
  - by apply nullable_lang.
  - by apply deriv_lang, IH.
Qed.

Lemma all_chars_append (P : ascii -> bool) (s1 s2 : string) :
  all_chars P (String.append s1 s2) = (all_chars P s1 && all_chars P s2)%bool.
Proof. induction s1 as [|c s1 IH]; simpl; [done|]. by rewrite IH, andb_assoc. Qed.

Lemma lang_chars (P : ascii -> bool) (r : re) (s : string) :
  classes_in P r -> lang r s -> all_chars P s = true.
Proof.
  intros Hc H. induction H; simpl in *; try done.
  - by rewrite (Hc c H).
  - apply IHlang, Hc.
  - apply IHlang, Hc.
  - rewrite all_chars_append, IHlang1, IHlang2; [done|apply Hc..].
  - rewrite all_chars_append, IHlang1, IHlang2; done.
Qed.

Lemma class_within (p P : ascii -> bool) :
  forallb (fun c => implb (p c) (P c)) (map ascii_of_nat (List.seq 0%nat 256%nat)) = true ->
  forall c, p c = true -> P c = true.
Proof.
  intros H c Hp. pose proof (forall_ascii_spec _ H c) as Hc. simpl in Hc.
  by rewrite Hp in Hc.
Qed.

Lemma urlRegex_classes : classes_in url_char urlRegex.
Proof.
  unfold urlRegex, opt, plus. simpl.
  repeat split; try done; apply class_within; vm_compute; reflexivity.
Qed.
End UrlPattern.

Section UrlShape.
Import Regex RegexSem.

Lemma append_assoc (a b c : string) :
  String.append (String.append a b) c = String.append a (String.append b c).
Proof.
  induction a as [|x a IH]; [reflexivity|].
  change (String x (String.append (String.append a b) c) =
          String x (String.append a (String.append b c))).
  by rewrite IH.
Qed.

Lemma length_append (a b : string) :
  String.length (String.append a b) = (String.length a + String.length b)%nat.
Proof.
  induction a as [|x a IH]; [reflexivity|].
  change (S (String.length (String.append a b)) =
          S (String.length a + String.length b)).
  by rewrite IH.
Qed.

Lemma chr_i_dot (s : string) : lang (chr_i ".") s -> s = ".".
Proof.
  intros H. inversion H as [|p c Hc| | | | |]; subst. f_equal.
  revert Hc. clear. destruct c as [[] [] [] [] [] [] [] []]; vm_compute; congruence.
Qed.

(** X1.  A string that the URL check accepts consists of letters, digits
    and the characters colon, slash, dot, underscore, dash and space: a
    URL with a query string, a fragment, a percent escape or a character
    outside ASCII is never accepted. *)
Theorem valid_url_alphabet (url : string) :
  Importer.isValidUrl url = true -> all_chars url_char url = true.
Proof.
  intros H. apply (lang_chars url_char urlRegex); [apply urlRegex_classes|].
  by apply test_lang.
Qed.

(** X2.  A string that the URL check accepts contains a dot with at least
    one character before it and at least two after it. *)
Theorem valid_url_has_dot (url : string) :
  Importer.isValidUrl url = true ->
  exists host rest,
    url = String.append host (String "." rest) /\
    host <> EmptyString /\ (2 <= String.length rest)%nat.
Proof.
  intros H. apply test_lang in H. unfold urlRegex, plus in H. simpl in H.
  inversion H as [| | | |? ? scheme s1 _ H1| |]; subst. clear H.
  inversion H1 as [| | | |? ? host s2 Hhost H2| |]; subst. clear H1.
  inversion H2 as [| | | |? ? dot s3 Hdot H3| |]; subst. clear H2.
  apply chr_i_dot in Hdot as ->.
  inversion H3 as [| | | |? ? tld s4 Htld _| |]; subst. clear H3.
  inversion Hhost as [| | | |? ? h1 h2 Hh1 _| |]; subst. clear Hhost.
  inversion Hh1; subst.
  inversion Htld as [| | | |? ? t1 t2 Ht1 Ht2| |]; subst. clear Htld.
  inversion Ht1; subst.
  inversion Ht2 as [| | | |? ? t3 t4 Ht3 _| |]; subst. clear Ht2.
  inversion Ht3; subst.
  eexists (String.append scheme (String.append (String _ EmptyString) h2)), _.
  split; [|split].
  - rewrite !append_assoc. simpl. reflexivity.
  - destruct scheme; done.
  - simpl. rewrite !length_append. simpl. lia.
Qed.
End UrlShape.

Section UrlShapeConcrete.
Import Regex RegexSem.

Lemma valid_url_alphabet_witness :
  Importer.isValidUrl "https://Example.com/a b/c_d.html" = true /\
  all_chars url_char "https://Example.com/a b/c_d.html" = true.
Proof.
  split; [vm_compute; reflexivity|].
  apply (valid_url_alphabet "https://Example.com/a b/c_d.html"). vm_compute. reflexivity.
Defined.

Lemma valid_url_has_dot_witness :
  exists host rest,
    "example.com" = String.append host (String "." rest) /\
    host <> EmptyString /\ (2 <= String.length rest)%nat.
Proof. apply (valid_url_has_dot "example.com"). vm_compute. reflexivity. Defined.
End UrlShapeConcrete.

(** ** The importer *)

Section ImporterMore.
Import Db Props Importer.

(** X3.  [normalizeValue] returns null for a missing or blank value and
    otherwise the trimmed value, which is not empty and has no white space
    at either end; normalizing twice changes nothing. *)
Theorem normalizeValue_normal (value : option string) :
  match normalizeValue value with
  | Some s =>
      s <> EmptyString /\ Str.trim s = s /\ exists v, value = Some v /\ s = Str.trim v
  | None => value = None \/ exists v, value = Some v /\ Str.trim v = EmptyString
  end /\
  normalizeValue (normalizeValue value) = normalizeValue value.
Proof.
  destruct value as [v|]; simpl; [|by split; [left|]].
  rewrite <- truthy_len. destruct (Str.truthy (Str.trim v)) eqn:Ht; simpl.
  - rewrite trim_idem, <- truthy_len, Ht. split; [|done].
    split; [by apply truthy_true|]. split; [done|]. by exists v.
  - split; [|done]. right. exists v. split; [done|]. by destruct (Str.trim v).
Qed.

(** X4.  Every record of the file is counted exactly once: the counters
    of a run add up to the number of records, the records without a name
    or a description are the skipped ones, every other record is inserted,
    counted as a duplicate or counted as an error, and the diagnostics
    hold one entry for each skipped or failed record. *)
Theorem import_accounting (clock : nat -> Z) (records : list CsvRow) (db : Db.t) :
  let run := importUseCases clock records db in
  totalRows (stats run) = Z.of_nat (length records) /\
  inserted (stats run) + skipped (stats run) + duplicates (stats run) + errors (stats run)
    = totalRows (stats run) /\
  skipped (stats run) = Z.of_nat (length records) - valid_count records /\
  inserted (stats run) + duplicates (stats run) + errors (stats run) = valid_count records /\
  0 <= inserted (stats run) /\ 0 <= duplicates (stats run) /\ 0 <= errors (stats run) /\
  Z.of_nat (length (errorDetails (stats run))) = skipped (stats run) + errors (stats run).
Proof.
  intros run. subst run. unfold importUseCases.
  set (st0 := {| store := db; stats := _; warnings := [] |}).
  destruct (processRows_counts clock records 0 st0) as (H1 & H2 & H3 & H4 & H5 & H6 & H7).
  simpl in *. repeat split; lia.
Qed.

(** X5.  A run of the importer only appends: the rows stored before the
    run are the first rows of the table afterwards, unchanged and in the
    same order; the number of rows added is the inserted count, and the
    id sequence advances by as much. *)
Theorem import_appends (clock : nat -> Z) (records : list CsvRow) (db : Db.t) :
  let run := importUseCases clock records db in
  table db `prefix_of` table (store run) /\
  Z.of_nat (length (table (store run))) =
    Z.of_nat (length (table db)) + inserted (stats run) /\
  next_id (store run) = next_id db + inserted (stats run).
Proof.
  intros run. subst run. unfold importUseCases.
  set (st0 := {| store := db; stats := _; warnings := [] |}).
  destruct (processRows_grows clock records 0 st0) as (new & T & L & N & _).
  simpl in *. rewrite T, N, length_app.
  split; [by exists new|]. split; lia.
Qed.

(** X6.  Every row a run adds comes from a valid record of the file: its
    name and description are the normalized cells of that record, every
    optional field is the normalized cell (null when the cell is missing
    or blank), the URL is stored whatever its shape, and both timestamps
    are the time at which the record was processed. *)
Theorem import_provenance (clock : nat -> Z) (records : list CsvRow) (db : Db.t)
    (x : UseCase) :
  x ∈ table (store (importUseCases clock records db)) ->
  x ∈ table db \/
  exists (k : nat) (r : CsvRow),
    records !! k = Some r /\
    Some (useCase x) = normalizeValue (csv_Use_Case r) /\
    Some (conceptDescription x) = normalizeValue (csv_Concept_description r) /\
    concreteImplementation x = normalizeValue (csv_Concrete_implementation r) /\
    benefit x = normalizeValue (csv_Benefit r) /\
    industry x = normalizeValue (csv_Industry r) /\
    department x = normalizeValue (csv_Department r) /\
    valueChainStep x = normalizeValue (csv_Value_Chain_Step r) /\
    url x = normalizeValue (csv_URL r) /\
    createdAt x = clock k /\ updatedAt x = clock k.
Proof.
  unfold importUseCases.
  set (st0 := {| store := db; stats := _; warnings := [] |}).
  destruct (processRows_grows clock records 0 st0) as (new & T & _ & _ & P).
  simpl in *. rewrite T. intros Hx. apply elem_of_app in Hx as [Hx|Hx]; [by left|].
  right. destruct (P x Hx) as (k & r & d & Hk & Hv & ->).
  destruct (valid_row_names r Hv) as (n & dsc & Hn & Hd & _).
  exists k, r. unfold row_name, row_description in *. simpl.
  unfold row_name, row_description. rewrite Hn, Hd. done.
Qed.
End ImporterMore.

Section ImporterDiagnostics.
Import Db Http Props Importer.

Lemma processRow_details (now : Z) (i : nat) (r : CsvRow) (st : Run) :
  let st' := processRow now i r st in
  exists extra,
    errorDetails (stats st') = errorDetails (stats st) ++ extra /\
    (forall d, d ∈ extra -> row d = Z.of_nat i + 2) /\
    (valid_row r = false -> exists why, extra = [{| row := Z.of_nat i + 2; reason := why |}]) /\
    (valid_row r = true -> errors (stats st') = errors (stats st) -> extra = []).
Proof.
  destruct (valid_row r) eqn:Hvalid; simpl.
  - destruct (processRow_valid now i r st Hvalid)
      as [[_ ->]|[(_ & _ & _ & ->)|[why ->]]]; simpl.
    + exists []. rewrite app_nil_r. split; [done|]. split; [|done].
      intros d Hd. by apply elem_of_nil in Hd.
    + exists []. rewrite app_nil_r. split; [done|]. split; [|done].
      intros d Hd. by apply elem_of_nil in Hd.
    + eexists. split; [done|]. split; [|split; [done|intros _ ?; lia]].
      intros d Hd. by apply list_elem_of_singleton in Hd as ->.
  - rewrite (processRow_invalid now i r st Hvalid). simpl.
    eexists. split; [done|]. split; [|split; [by eexists|done]].
    intros d Hd. by apply list_elem_of_singleton in Hd as ->.
Qed.

Lemma processRows_details (clock : nat -> Z) (records : list CsvRow) (i : nat) (st : Run) :
  let st' := processRows clock i records st in
  exists extra,
    errorDetails (stats st') = errorDetails (stats st) ++ extra /\
    (forall line : Z, line ∈ (row <$> extra) ->
       exists (k : nat) (r : CsvRow),
         records !! k = Some r /\ line = Z.of_nat (i + k) + 2) /\
    (forall (k : nat) (r : CsvRow),
       records !! k = Some r -> valid_row r = false ->
       (Z.of_nat (i + k) + 2) ∈ (row <$> extra)) /\
    (errors (stats st') = errors (stats st) ->
     forall line : Z, line ∈ (row <$> extra) ->
       exists (k : nat) (r : CsvRow),
         records !! k = Some r /\ valid_row r = false /\ line = Z.of_nat (i + k) + 2).
Proof.
  revert i st. induction records as [|r records IH]; intros i st; simpl.
  { exists []. rewrite app_nil_r. split; [done|].
    split; [intros line H; by apply elem_of_nil in H|].
    split; [by intros k r Hk|]. intros _ line H. by apply elem_of_nil in H. }
  destruct (IH (S i) (processRow (clock i) i r st)) as (extra & -> & Hsome & Hinv & Hclean).
  destruct (processRow_details (clock i) i r st) as (extra1 & -> & Hrow & Hskip & Hok).
  destruct (processRow_counts (clock i) i r st) as (_ & _ & _ & _ & _ & E1 & _).
  destruct (processRows_counts clock records (S i) (processRow (clock i) i r st))
    as (_ & _ & _ & _ & _ & E2 & _).
  simpl in *.
  exists (extra1 ++ extra). rewrite <- app_assoc. split; [done|].
  split; [|split].
  - intros line. rewrite fmap_app, elem_of_app. intros [H|H].
    + apply list_elem_of_fmap in H as (d & -> & Hd). rewrite (Hrow d Hd).
      exists 0%nat, r. rewrite Nat.add_0_r. done.
    + destruct (Hsome line H) as (k & r' & Hk & ->). exists (S k), r'.
      split; [done|]. lia.
  - intros k r' Hk Hv. rewrite fmap_app, elem_of_app. destruct k as [|k]; simpl in Hk.
    + injection Hk as <-. left. destruct (Hskip Hv) as [why ->]. simpl.
      rewrite Nat.add_0_r. apply list_elem_of_here.
    + right. replace (Z.of_nat (i + S k)) with (Z.of_nat (S i + k)) by lia.
      by apply (Hinv k r').
  - intros He line. rewrite fmap_app, elem_of_app. intros [H|H].
    + apply list_elem_of_fmap in H as (d & -> & Hd). rewrite (Hrow d Hd).
      destruct (valid_row r) eqn:Hvalid.
      * rewrite Hok in Hd by (try done; lia). by apply elem_of_nil in Hd.
      * exists 0%nat, r. rewrite Nat.add_0_r. done.
    + destruct (Hclean ltac:(lia) line H) as (k & r' & Hk & Hv & ->). exists (S k), r'.
      split; [done|]. split; [done|]. lia.
Qed.

(** X7.  The diagnostics carry the right row numbers.  The row number
    of a record is its index among the records the parser yields, plus 2
    (one for the header, one because rows are counted from 1).  The row
    number of every record that lacks a name or a description is
    reported; every reported number is the row number of a record of the
    file; and when the run counts no error, the reported numbers are
    exactly those of the records that lack a name or a description. *)
Theorem import_reported_lines (clock : nat -> Z) (records : list CsvRow) (db : Db.t) :
  let run := importUseCases clock records db in
  (forall (k : nat) (r : CsvRow),
     records !! k = Some r -> valid_row r = false ->
     (Z.of_nat k + 2) ∈ (row <$> errorDetails (stats run))) /\
  (forall line : Z,
     line ∈ (row <$> errorDetails (stats run)) ->
     exists (k : nat) (r : CsvRow), records !! k = Some r /\ line = Z.of_nat k + 2) /\
  (errors (stats run) = 0 ->
   forall line : Z,
     line ∈ (row <$> errorDetails (stats run)) <->
     exists (k : nat) (r : CsvRow),
       records !! k = Some r /\ valid_row r = false /\ line = Z.of_nat k + 2).
Proof.
  intros run. subst run. unfold importUseCases.
  set (st0 := {| store := db; stats := _; warnings := [] |}).
  destruct (processRows_details clock records 0 st0) as (extra & -> & Hsome & Hinv & Hclean).
  simpl in *. split; [|split].
  - intros k r Hk Hv. by apply (Hinv k r).
  - exact Hsome.
  - intros He line. split; [by apply Hclean|].
    intros (k & r & Hk & Hv & ->). by apply (Hinv k r).
Qed.

Lemma name_taken_ci (a b : string) (db : Db.t) :
  ci_equals a b = true -> name_taken a db = name_taken b db.
Proof.
  unfold ci_equals, name_taken. rewrite String.eqb_eq. intros Hab.
  induction (table db) as [|r rows IH]; [done|]. simpl.
  unfold ci_equals at 1 3. by rewrite Hab, IH.
Qed.

(** X8.  The importer and the create endpoint share one rule for
    duplicates: after a run that counted no error, a create request whose
    trimmed name equals, up to case, the normalized name of a valid record
    of the file is answered with 409 and stores nothing, when that name is
    taken literally by the store. *)
Theorem import_then_create_conflict (cfg : Config) (clock : nat -> Z)
    (records : list CsvRow) (db : Db.t) (now : Z) (key : option string) (b : RawBody)
    (r : CsvRow) :
  r ∈ records -> valid_row r = true ->
  literal (default EmptyString (row_name r)) = true ->
  errors (stats (importUseCases clock records db)) = 0 ->
  authorized cfg key = true ->
  createUseCaseValidation (sanitizeCreate b) = [] ->
  ci_equals (Str.trim (default EmptyString (raw_useCase b)))
    (default EmptyString (row_name r)) = true ->
  app cfg now (POST_use_cases key b) (store (importUseCases clock records db)) =
    (store (importUseCases clock records db),
     {| status := 409;
        body := ErrorBody "A use case with this name already exists" "APP_ERROR" None |}).
Proof.
  intros Hr Hvalid Hlit Herr Ha Hv Hci. apply app_POST_duplicate; [done..| |].
  - by rewrite (ci_equals_literal _ _ Hci).
  - rewrite (name_taken_ci _ _ _ Hci). revert Herr. unfold importUseCases.
    set (st0 := {| store := db; stats := _; warnings := [] |}). intros Herr.
    destruct (processRows_store clock records 0 st0) as (_ & Htaken).
    by apply Htaken.
Qed.
End ImporterDiagnostics.

(** ** The application *)

Section ServerMore.
Import Db Http Props Terms.








End ServerMore.

(** ** The list endpoint, continued *)

Section ListMore.
Import Db Http Props Terms.

Lemma window_length {A : Type} (m : list A) (k n : nat) :
  length (take n (drop k m)) = Nat.min n (length m - k).
Proof. by rewrite length_take, length_drop. Qed.

(** X11.  The sizes of the pages.  For a valid query, every page before
    the last carries exactly [limit] rows, the last page carries the
    remaining rows (at least one, at most [limit]), and therefore no page
    from 1 to [totalPages] is empty. *)
Theorem list_page_sizes (cfg : Config) (now : Z) (db : Db.t) (q : PaginationQuery)
    (p l : Z) (r : PaginatedResponse) :
  paginationValidation (sanitizeQuery q) = [] ->
  page_of q = Some p -> limit_of q = Some l ->
  app cfg now (GET_use_cases q) db = (db, {| status := 200; body := ListBody r |}) ->
  Z.of_nat (length (data r)) <= l /\
  (p < totalPages (pagination r) -> Z.of_nat (length (data r)) = l) /\
  (p = totalPages (pagination r) ->
   Z.of_nat (length (data r)) = total (pagination r) - (p - 1) * l /\
   1 <= Z.of_nat (length (data r))) /\
  (p <= totalPages (pagination r) -> data r <> []).
Proof.
  intros Hv Hp Hl Happ.
  destruct (app_GET_use_cases_inv _ _ _ _ _ _ _ Hv Happ)
    as (p' & l' & sel & Hp' & Hl' & Hp1 & Hl1 & _ & _ & _ & Hresp).
  assert (p' = p) as -> by congruence. assert (l' = l) as -> by congruence.
  injection Hresp as ->. simpl.
  pose proof (ceil_div_bounds (Z.of_nat (length sel)) l ltac:(lia)) as Hb.
  pose proof (window_length (orderBy_createdAt_desc sel) (Z.to_nat ((p - 1) * l))
                (Z.to_nat l)) as Hlen.
  rewrite orderBy_length in Hlen.
  set (d := take (Z.to_nat l) (drop (Z.to_nat ((p - 1) * l)) (orderBy_createdAt_desc sel)))
    in *.
  assert (p <= ceil_div (Z.of_nat (length sel)) l -> 1 <= Z.of_nat (length d))
    as Hne by (intros; nia).
  split; [lia|]. split; [intros; nia|]. split; [intros; split; nia|].
  intros Hle Hd. specialize (Hne Hle). rewrite Hd in Hne. simpl in Hne. lia.
Qed.

Lemma effective_None_columns (c : Column) (v : option string) :
  effective v = None -> equals_if_set c (Str.trim <$> v) = [].
Proof.
  unfold effective, equals_if_set. destruct v as [s|]; simpl; [|done].
  by destruct (Str.truthy (Str.trim s)).
Qed.

Lemma select_unfiltered (q : PaginationQuery) (db : Db.t) :
  effective (query_industry q) = None -> effective (query_valueChainStep q) = None ->
  effective (query_department q) = None -> effective (query_search q) = None ->
  select (list_where q) (table db) = inr (table db).
Proof.
  intros Hi Hs Hd Hq. apply select_all.
  - unfold list_where, build_where. simpl. by rewrite !effective_None_columns.
  - unfold list_where, build_where. simpl. revert Hq. unfold effective.
    destruct (query_search q) as [s|]; simpl; [|done].
    by destruct (Str.truthy (Str.trim s)).
Qed.

(** X12.  Without filters the list endpoint counts the whole table: when
    every filter parameter is missing or blank and the page is within the
    range of exact integers, [total] is the number of stored rows.  A
    missing page is page 1 and a missing limit is 20. *)
Theorem list_unfiltered_total (cfg : Config) (now : Z) (db : Db.t) (q : PaginationQuery) :
  paginationValidation (sanitizeQuery q) = [] ->
  effective (query_industry q) = None -> effective (query_valueChainStep q) = None ->
  effective (query_department q) = None -> effective (query_search q) = None ->
  (forall p l, page_of q = Some p -> limit_of q = Some l -> in_range p l) ->
  exists r,
    app cfg now (GET_use_cases q) db = (db, {| status := 200; body := ListBody r |}) /\
    total (pagination r) = Z.of_nat (length (table db)) /\
    (query_page q = None -> page (pagination r) = 1) /\
    (query_limit q = None -> limit (pagination r) = 20).
Proof.
  intros Hv Hi Hs Hd Hq Hr.
  destruct (valid_page_limit q Hv) as (p & l & Hp & Hl & _).
  specialize (Hr p l Hp Hl).
  eexists. split.
  { apply (app_GET_use_cases cfg now db q p l (table db)); try done.
    - unfold in_range, Num.MAX_SAFE_INTEGER in Hr. unfold INT8_MAX. lia.
    - by apply select_unfiltered. }
  simpl. split; [done|]. split.
  - intros Hnone. unfold page_of in Hp. rewrite Hnone in Hp. vm_compute in Hp. congruence.
  - intros Hnone. unfold limit_of in Hl. rewrite Hnone in Hl. vm_compute in Hl. congruence.
Qed.

Lemma matched_insert (q : PaginationQuery) (x : UseCase) (db : Db.t) :
  length (matched q (insert_row x db)) =
    (length (matched q db) + (if where_reads (list_where q) x then 1 else 0))%nat.
Proof.
  unfold matched. simpl. rewrite filter_app, length_app, filter_cons.
  destruct (where_reads (list_where q) x); case_decide; done.
Qed.

(** X13.  Create and list compose: after a create request is answered
    with 201, the total of a valid list query, with filter parameters that
    are taken literally and a page within the range of exact integers, has
    grown by one if the new row passes the filters of the query, and is
    unchanged otherwise. *)
Theorem create_then_list (cfg : Config) (now later : Z) (db db' : Db.t)
    (key : option string) (b : RawBody) (row : UseCase) (q : PaginationQuery) (p l : Z) :
  app cfg now (POST_use_cases key b) db =
    (db', {| status := 201; body := CreatedBody "Use case created successfully" row |}) ->
  paginationValidation (sanitizeQuery q) = [] -> literal_query q ->
  page_of q = Some p -> limit_of q = Some l -> in_range p l ->
  exists before after,
    app cfg later (GET_use_cases q) db =
      (db, {| status := 200; body := ListBody before |}) /\
    app cfg later (GET_use_cases q) db' =
      (db', {| status := 200; body := ListBody after |}) /\
    (satisfies q row ->
     total (pagination after) = total (pagination before) + 1) /\
    (~ satisfies q row ->
     total (pagination after) = total (pagination before)).
Proof.
  intros Hpost Hvq Hq Hp Hl Hr.
  destruct (app_POST_inv cfg now db db' key b _ Hpost eq_refl)
    as (_ & _ & _ & _ & _ & -> & Hrow).
  injection Hrow as ->.
  assert ((p - 1) * l <= INT8_MAX) as Hr'.
  { unfold in_range, Num.MAX_SAFE_INTEGER in Hr. unfold INT8_MAX. lia. }
  eexists _, _.
  split; [exact (app_GET_use_cases cfg later db q p l _ Hvq Hp Hl Hr'
                   (select_matched q db Hq))|].
  split; [exact (app_GET_use_cases cfg later _ q p l _ Hvq Hp Hl Hr'
                   (select_matched q _ Hq))|].
  simpl. rewrite matched_insert. rewrite <- !list_where_reads.
  destruct (where_reads (list_where q) (created_row now b db)); split; intros H;
    try done; lia.
Qed.
End ListMore.

(** ** The filter options, validation and the error handler *)

Section FilterOptions.
Import Db Http Props Terms.

Lemma StronglySorted_filter {A : Type} (R : relation A) (P : A -> Prop)
    `{forall x, Decision (P x)} (l : list A) :
  StronglySorted R l -> StronglySorted R (filter P l).
Proof.
  induction 1 as [|x l Hl IH Hx]; [constructor|].
  rewrite filter_cons. case_decide; [|done]. constructor; [done|].
  apply list.Forall_forall. intros y Hy.
  apply list_elem_of_filter in Hy as [_ Hy].
  by apply (proj1 (list.Forall_forall _ _) Hx).
Qed.

Lemma distinct_asc_spec (c : Column) (rows : list UseCase) :
  NoDup (distinct_asc c rows) /\
  StronglySorted String.le (distinct_asc c rows) /\
  forall s, s ∈ distinct_asc c rows <->
            s <> EmptyString /\ exists r, r ∈ rows /\ column c r = Some s.
Proof.
  unfold distinct_asc. split; [|split].
  - apply NoDup_filter. rewrite merge_sort_Permutation. apply NoDup_remove_dups.
  - apply StronglySorted_filter. apply StronglySorted_merge_sort; apply _.
  - intros s. rewrite list_elem_of_filter, merge_sort_Permutation, elem_of_remove_dups,
      list_elem_of_omap, truthy_true. done.
Qed.

(** X14.  The filter options.  GET /api/use-cases/filters needs no key
    and answers 200 with three lists, for industry, value chain step and
    department.  Each list has no duplicates, is in ascending order, and
    holds exactly the values of its column that are neither null nor empty. *)
Theorem filter_options (cfg : Config) (now : Z) (db : Db.t) :
  exists industries valueChainSteps departments,
    app cfg now GET_filters db =
      (db, {| status := 200;
              body := FilterOptionsBody industries valueChainSteps departments |}) /\
    (NoDup industries /\ StronglySorted String.le industries /\
     forall s, s ∈ industries <->
               s <> EmptyString /\ exists r, r ∈ table db /\ industry r = Some s) /\
    (NoDup valueChainSteps /\ StronglySorted String.le valueChainSteps /\
     forall s, s ∈ valueChainSteps <->
               s <> EmptyString /\ exists r, r ∈ table db /\ valueChainStep r = Some s) /\
    (NoDup departments /\ StronglySorted String.le departments /\
     forall s, s ∈ departments <->
               s <> EmptyString /\ exists r, r ∈ table db /\ department r = Some s).
Proof.
  eexists _, _, _. split; [reflexivity|].
  split; [|split]; apply distinct_asc_spec.
Qed.

Lemma optional_length (cap : Z) (v : option string) (p m : string) :
  optional (Str.trim <$> v) (fun s => check (isLength 0 cap s) p m) = [] <->
  within 0 cap v.
Proof.
  unfold within, isLength. destruct v as [s|]; simpl.
  - rewrite check_nil, andb_true_iff, Z.leb_le, Z.leb_le. split.
    + intros H x [= <-]. done.
    + intros H. by apply H.
  - split; [by intros _ s|done].
Qed.

Lemma required_length (lo hi : Z) (v : option string) :
  0 < lo ->
  (Str.truthy (Str.trim (default EmptyString v)) = true /\
   isLength lo hi (Str.trim (default EmptyString v)) = true) <->
  required_within lo hi v.
Proof.
  intros Hlo. unfold required_within, isLength.
  rewrite andb_true_iff, Z.leb_le, Z.leb_le. destruct v as [s|]; simpl.
  - split.
    + intros (_ & H). by exists s.
    + intros (x & [= <-] & H). split; [|done]. rewrite truthy_len. apply Z.ltb_lt. lia.
  - split; [|by intros (x & ? & _)].
    intros (_ & H & _). change (Str.len (Str.trim EmptyString)) with 0 in H. lia.
Qed.

Lemma url_rule_ok (v : option string) :
  optional (Str.trim <$> v) url_rule = [] <-> url_ok v.
Proof.
  unfold url_ok, url_rule. destruct v as [s|]; simpl.
  - rewrite check_nil, <- truthy_len. split.
    + intros H x [= <-]. destruct (Str.trim s) eqn:E; [by left|]. right.
      destruct (Regex.test Regex.urlRegex (String a s0)); [done|]. by cbv in H.
    + intros H. destruct (H s eq_refl) as [->| ->]; [done|].
      by destruct (Str.truthy (Str.trim s)).
  - split; [by intros _ s|done].
Qed.

Lemma validation_accepts_iff (b : RawBody) :
  createUseCaseValidation (sanitizeCreate b) = [] <->
  required_within 3 500 (raw_useCase b) /\
  required_within 10 10000 (raw_conceptDescription b) /\
  within 0 10000 (raw_concreteImplementation b) /\
  within 0 5000 (raw_benefit b) /\
  within 0 200 (raw_industry b) /\
  within 0 200 (raw_department b) /\
  within 0 200 (raw_valueChainStep b) /\
  url_ok (raw_url b).
Proof.
  unfold createUseCaseValidation. simpl.
  rewrite !app_nil, !check_nil, !optional_length, url_rule_ok.
  rewrite <- (required_length 3 500) by lia.
  rewrite <- (required_length 10 10000) by lia. tauto.
Qed.

(** X15.  What the create endpoint accepts.  A body passes validation
    exactly when, after trimming, the name has 3 to 500 characters, the
    description has 10 to 10000, each optional text that is present is
    within its bound (10000 for the implementation, 5000 for the benefit,
    200 for industry, department and value chain step), and the URL, if
    present, is empty or matches the URL pattern. *)
Theorem create_validation_accepts (b : RawBody) :
  createUseCaseValidation (sanitizeCreate b) = [] <->
  required_within 3 500 (raw_useCase b) /\
  required_within 10 10000 (raw_conceptDescription b) /\
  within 0 10000 (raw_concreteImplementation b) /\
  within 0 5000 (raw_benefit b) /\
  within 0 200 (raw_industry b) /\
  within 0 200 (raw_department b) /\
  within 0 200 (raw_valueChainStep b) /\
  url_ok (raw_url b).
Proof. apply validation_accepts_iff. Qed.

(** X16.  In production the error handler discloses nothing of an error
    that is not one of the application's own: whatever the message of a
    store error or of an unknown error, the text of the response is one of
    four fixed texts, and the status is 400, 404, 409 or 500. *)
Theorem production_errors_redacted (cfg : Config) (e : Error) :
  NODE_ENV cfg = "production" -> statusCode e = None ->
  exists text code,
    body (errorHandler cfg e) = ErrorBody text code None /\
    text ∈ fixed_error_texts /\
    status (errorHandler cfg e) ∈ [400; 404; 409; 500].
Proof.
  intros Hprod Hcode. unfold fixed_error_texts.
  destruct e as [| | | |c m|m|m]; try done; simpl; rewrite ?Hprod; simpl.
  - destruct (String.eqb c "P2002"); [|destruct (String.eqb c "P2025")];
      eexists _, _; (split; [reflexivity|]); simpl;
      split; repeat (apply list_elem_of_here || apply list_elem_of_further).
  - eexists _, _. split; [reflexivity|].
    split; repeat (apply list_elem_of_here || apply list_elem_of_further).
  - eexists _, _. split; [reflexivity|].
    split; repeat (apply list_elem_of_here || apply list_elem_of_further).
Qed.
End FilterOptions.

(** ** The client against the server *)

Section ClientServer.
Import Db Http Props Terms Client.

Lemma required_sent (lo hi : Z) (field : string) :
  required_within lo hi (Some (Str.trim field)) <-> lo <= Str.len (Str.trim field) <= hi.
Proof.
  unfold required_within. split.
  - intros (s & [= <-] & H). by rewrite trim_idem in H.
  - intros H. exists (Str.trim field). by rewrite trim_idem.
Qed.

Lemma optional_sent (cap : Z) (field : string) :
  0 <= cap ->
  within 0 cap (or_undefined (Str.trim field)) <-> Str.len (Str.trim field) <= cap.
Proof.
  intros Hcap. unfold within, or_undefined.
  destruct (Str.trim field) as [|c t] eqn:E; simpl.
  - split; [intros _; unfold Str.len; simpl; lia|by intros _ s].
  - rewrite <- E. split.
    + intros H. specialize (H _ eq_refl). rewrite trim_idem in H. lia.
    + intros H s [= <-]. rewrite trim_idem. unfold Str.len in *. lia.
Qed.

Lemma url_sent (field : string) :
  url_ok (or_undefined (Str.trim field)) <->
  (Str.truthy (Str.trim field) = true ->
   Regex.test Regex.urlRegex (Str.trim field) = true).
Proof.
  unfold url_ok, or_undefined. destruct (Str.truthy (Str.trim field)) eqn:Ht.
  - split.
    + intros H _. destruct (H _ eq_refl) as [H'|H']; rewrite trim_idem in H'; [|done].
      by rewrite H' in Ht.
    + intros H s [= <-]. rewrite trim_idem. right. by apply H.
  - split; [done|by intros _ s].
Qed.

Lemma validateForm_true (f : FormData) :
  validateForm f = true <->
  3 <= Str.len (Str.trim (form_useCase f)) /\
  10 <= Str.len (Str.trim (form_conceptDescription f)) /\
  (Str.truthy (Str.trim (form_url f)) = true ->
   Regex.test Regex.urlRegex (Str.trim (form_url f)) = true).
Proof.
  unfold validateForm, newErrors. rewrite !truthy_len.
  destruct (0 <? Str.len (Str.trim (form_useCase f))) eqn:E1;
    destruct (Str.len (Str.trim (form_useCase f)) <? 3) eqn:E2;
    destruct (0 <? Str.len (Str.trim (form_conceptDescription f))) eqn:E3;
    destruct (Str.len (Str.trim (form_conceptDescription f)) <? 10) eqn:E4;
    destruct (0 <? Str.len (Str.trim (form_url f))) eqn:E5;
    destruct (Regex.test Regex.urlRegex (Str.trim (form_url f))) eqn:E6; simpl;
    split; try done; try lia; intros (? & ? & ?); try lia; try discriminate;
    try (by exfalso; auto).
Qed.

Lemma form_validation_iff (f : FormData) :
  validateForm f = true /\ form_within_bounds f <->
  createUseCaseValidation (sanitizeCreate (requestBody f)) = [].
Proof.
  rewrite validation_accepts_iff, validateForm_true. unfold requestBody. simpl.
  rewrite !required_sent, !optional_sent, url_sent by lia.
  unfold form_within_bounds. tauto.
Qed.

(** X17.  The form and the server agree.  A form passes the client's
    check and keeps within the server's upper bounds exactly when the body
    it sends passes the validation of the create endpoint. *)
Theorem form_agrees_with_server (f : FormData) :
  validateForm f = true /\ form_within_bounds f <->
  createUseCaseValidation (sanitizeCreate (requestBody f)) = [].
Proof. apply form_validation_iff. Qed.

Lemma stored_sent (field : string) :
  Str.trim <$> or_undefined (Str.trim field) = stored_optional field.
Proof.
  unfold or_undefined, stored_optional.
  destruct (Str.truthy (Str.trim field)); simpl; [by rewrite trim_idem|done].
Qed.

Lemma storable_or_undefined (field : string) :
  storable field = true -> storable_opt (or_undefined (Str.trim field)) = true.
Proof.
  intros H. unfold or_undefined. destruct (Str.truthy (Str.trim field)); [|done].
  simpl. by apply every_trim.
Qed.

(** X18.  From the form to the store.  When the server has no key or the
    key the client sends, a form that passes the client's check, keeps
    within the bounds and carries a new name that is taken literally, all
    of whose texts the database can store, is answered with 201; the
    stored row has the trimmed name and description, and every optional
    field that was left blank is stored as null, not as an empty text. *)
Theorem form_submission_stored (cfg : Config) (now : Z) (db : Db.t) (f : FormData) :
  API_KEY cfg = EmptyString \/ API_KEY cfg = "demo-api-key" ->
  validateForm f = true -> form_within_bounds f ->
  literal (Str.trim (form_useCase f)) = true ->
  storable_form f = true -> next_id db <= INT4_MAX ->
  name_taken (Str.trim (form_useCase f)) db = false ->
  exists req db' stored,
    handleSubmit f = Some req /\
    app cfg now req db =
      (db', {| status := 201;
               body := CreatedBody "Use case created successfully" stored |}) /\
    table db' = table db ++ [stored] /\
    useCase stored = Str.trim (form_useCase f) /\
    conceptDescription stored = Str.trim (form_conceptDescription f) /\
    concreteImplementation stored = stored_optional (form_concreteImplementation f) /\
    benefit stored = stored_optional (form_benefit f) /\
    industry stored = stored_optional (form_industry f) /\
    department stored = stored_optional (form_department f) /\
    valueChainStep stored = stored_optional (form_valueChainStep f) /\
    url stored = stored_optional (form_url f).
Proof.
  intros Hkey Hvalid Hbounds Hlit Hst Hmax Ht.
  pose proof (proj1 (form_validation_iff f) (conj Hvalid Hbounds)) as Hv.
  unfold handleSubmit. rewrite Hvalid. eexists _, _, _. split; [reflexivity|].
  split.
  - apply app_POST_created; [|done| | | |done].
    + unfold authorized, apiKeyAuthMiddleware. simpl.
      destruct Hkey as [-> | ->]; reflexivity.
    + simpl. by rewrite trim_idem.
    + simpl. by rewrite trim_idem.
    + revert Hst. unfold storable_form, storable_body, requestBody. simpl.
      rewrite !andb_true_iff.
      intros (((((((H1 & H2) & H3) & H4) & H5) & H6) & H7) & H8).
      repeat split; try (by apply storable_or_undefined); by apply every_trim.
  - simpl. rewrite !trim_idem, !stored_sent. done.
Qed.

(** X19.  The client sends one fixed key.  When the server is configured
    with any other key, every submission of the form is answered with 401
    and nothing is stored. *)
Theorem form_submission_rejected (cfg : Config) (now : Z) (db : Db.t) (f : FormData)
    (req : Request) :
  API_KEY cfg <> EmptyString -> API_KEY cfg <> "demo-api-key" ->
  handleSubmit f = Some req ->
  app cfg now req db =
    (db, {| status := 401;
            body := ErrorBody "Unauthorized: Invalid or missing API key"
                      "UNAUTHORIZED_ERROR" None |}).
Proof.
  intros Hset Hother. unfold handleSubmit.
  destruct (validateForm f); [|done]. intros [= <-].
  apply app_POST_unauthorized. unfold authorized, apiKeyAuthMiddleware. simpl.
  apply truthy_true in Hset. rewrite Hset. simpl.
  rewrite bool_decide_eq_false_2; [done|]. congruence.
Qed.

(** X20.  The buttons of the pagination control stay within the pages.
    Whenever the explore page renders the control for the answer to a valid
    query, the page an enabled button asks for lies between 1 and
    [totalPages]. *)
Theorem pagination_buttons_in_range (cfg : Config) (now : Z) (db : Db.t)
    (q : PaginationQuery) (r : PaginatedResponse) (n : Z) :
  paginationValidation (sanitizeQuery q) = [] ->
  app cfg now (GET_use_cases q) db = (db, {| status := 200; body := ListBody r |}) ->
  shows_pagination r = true ->
  next_page (pagination r) = Some n \/ previous_page (pagination r) = Some n ->
  1 <= n <= totalPages (pagination r).
Proof.
  intros Hv Happ Hshow Hbutton.
  destruct (app_GET_use_cases_inv _ _ _ _ _ _ _ Hv Happ)
    as (p & l & sel & Hp & Hl & Hp1 & Hl1 & _ & _ & _ & Hresp).
  injection Hresp as ->. unfold shows_pagination, next_page, previous_page in *.
  simpl in *.
  pose proof (ceil_div_bounds (Z.of_nat (length sel)) l ltac:(lia)) as Hb.
  pose proof (window_length (orderBy_createdAt_desc sel) (Z.to_nat ((p - 1) * l))
                (Z.to_nat l)) as Hlen.
  rewrite orderBy_length in Hlen.
  apply andb_true_iff in Hshow as [Hrows Hpages].
  apply negb_true_iff, Nat.eqb_neq in Hrows.
  assert (p <= ceil_div (Z.of_nat (length sel)) l) as Hin by nia.
  destruct Hbutton as [H|H].
  - destruct (p <? _) eqn:E; [|done]. injection H as <-. apply Z.ltb_lt in E. lia.
  - destruct (1 <? p) eqn:E; [|done]. injection H as <-. apply Z.ltb_lt in E. lia.
Qed.

(** X21.  The landing page shows the number of stored rows: the total it
    reads from the answer to its request is the size of the table. *)
Theorem landing_total (cfg : Config) (now : Z) (db : Db.t) :
  fetchStats (snd (app cfg now (GET_use_cases stats_query) db)) =
    Some (Z.of_nat (length (table db))).
Proof.
  rewrite (app_GET_use_cases cfg now db stats_query 1 1 (table db)); try reflexivity.
  - unfold INT8_MAX. lia.
  - by apply select_unfiltered.
Qed.
End ClientServer.

(** ** Round trips and case *)

Section RoundTrips.
Import Db Http Props Terms.

(** X22.  Every row in the store can be fetched.  In any store the
    system reaches from the empty one, by requests and by runs of the
    importer, a request for the id of a stored row is answered with 200 and
    exactly that row; and every stored id can be written as a path
    parameter. *)
Theorem stored_rows_fetchable (cfg : Config) (ops : list System.Op) (now : Z)
    (x : UseCase) :
  x ∈ table (System.run cfg ops Db.empty) ->
  (exists idParam, Num.isInt 1 None idParam = true /\
                   Num.parseInt idParam = Some (id x)) /\
  forall idParam,
    Num.isInt 1 None idParam = true -> Num.parseInt idParam = Some (id x) ->
    app cfg now (GET_use_case idParam) (System.run cfg ops Db.empty) =
      (System.run cfg ops Db.empty, {| status := 200; body := ItemBody x |}).
Proof.
  intros Hx.
  destruct (run_inv cfg ops Db.empty store_inv_empty) as (_ & _ & Hpos & Hall & Hnd).
  apply (proj1 (list.Forall_forall _ _) Hall) in Hx as Hid.
  split.
  - apply (numeral_exists 1 (id x) None); [lia|lia|done].
  - intros idParam Hint Hparse.
    rewrite (app_GET_use_case_valid cfg now _ idParam _ Hint Hparse) by lia.
    by rewrite findUnique_present.
Qed.






End RoundTrips.

(** ** The further properties on concrete inputs *)

Section MoreConcrete.
Import Db Http Props Terms Client.

Lemma import_provenance_witness :
  Samples.pricing_stored
    ∈ table (Importer.store (Importer.importUseCases Fixtures.noon Fixtures.csv_file Db.empty)) /\
  exists (k : nat) (r : Importer.CsvRow),
    Fixtures.csv_file !! k = Some r /\
    url Samples.pricing_stored = Importer.normalizeValue (Importer.csv_URL r) /\
    createdAt Samples.pricing_stored = Fixtures.noon k.
Proof.
  assert (Samples.pricing_stored
            ∈ table (Importer.store
                       (Importer.importUseCases Fixtures.noon Fixtures.csv_file Db.empty)))
    as Hin by (vm_compute; apply list_elem_of_here).
  split; [exact Hin|].
  destruct (import_provenance Fixtures.noon Fixtures.csv_file Db.empty
              Samples.pricing_stored Hin)
    as [Hold|(k & r & Hk & _ & _ & _ & _ & _ & _ & _ & Hurl & Hcreated & _)].
  - apply elem_of_nil in Hold. destruct Hold.
  - exists k, r. split; [exact Hk|]. split; [exact Hurl|exact Hcreated].
Defined.


Lemma import_reported_lines_witness :
  Importer.row <$> Importer.errorDetails
            (Importer.stats
               (Importer.importUseCases Fixtures.noon Fixtures.csv_file Db.empty)) = [4] /\
  forall line : Z,
    line ∈ (Importer.row <$> Importer.errorDetails
                      (Importer.stats
                         (Importer.importUseCases Fixtures.noon Fixtures.csv_file Db.empty))) <->
    exists (k : nat) (r : Importer.CsvRow),
      Fixtures.csv_file !! k = Some r /\ valid_row r = false /\ line = Z.of_nat k + 2.
Proof.
  split; [vm_compute; reflexivity|].
  destruct (import_reported_lines Fixtures.noon Fixtures.csv_file Db.empty)
    as (_ & _ & Hexact).
  apply Hexact. vm_compute. reflexivity.
Defined.

Lemma import_then_create_conflict_witness :
  app Fixtures.cfg 3000 (POST_use_cases Fixtures.key Samples.pricing_shouted)
    (Importer.store (Importer.importUseCases Fixtures.noon Fixtures.csv_file Db.empty)) =
    (Importer.store (Importer.importUseCases Fixtures.noon Fixtures.csv_file Db.empty),
     {| status := 409;
        body := ErrorBody "A use case with this name already exists" "APP_ERROR" None |}).
Proof.
  apply (import_then_create_conflict Fixtures.cfg Fixtures.noon Fixtures.csv_file Db.empty
           3000 Fixtures.key Samples.pricing_shouted Fixtures.csv_pricing);
    [apply list_elem_of_here|vm_compute; reflexivity..].
Defined.



Lemma list_page_sizes_witness :
  exists r1 r2,
    app Fixtures.cfg 100 (GET_use_cases Samples.first_of_two) Samples.three_db =
      (Samples.three_db, {| status := 200; body := ListBody r1 |}) /\
    app Fixtures.cfg 100 (GET_use_cases Samples.second_of_two) Samples.three_db =
      (Samples.three_db, {| status := 200; body := ListBody r2 |}) /\
    Z.of_nat (length (data r1)) = 2 /\ Z.of_nat (length (data r2)) = 1.
Proof.
  pose proof (app_GET_use_cases Fixtures.cfg 100 Samples.three_db Samples.first_of_two 1 2
                (table Samples.three_db) eq_refl eq_refl eq_refl
                ltac:(vm_compute; discriminate) ltac:(vm_compute; reflexivity)) as H1.
  pose proof (app_GET_use_cases Fixtures.cfg 100 Samples.three_db Samples.second_of_two 2 2
                (table Samples.three_db) eq_refl eq_refl eq_refl
                ltac:(vm_compute; discriminate) ltac:(vm_compute; reflexivity)) as H2.
  destruct (list_page_sizes Fixtures.cfg 100 Samples.three_db Samples.first_of_two 1 2
              _ eq_refl eq_refl eq_refl H1) as (_ & Hfull & _).
  destruct (list_page_sizes Fixtures.cfg 100 Samples.three_db Samples.second_of_two 2 2
              _ eq_refl eq_refl eq_refl H2) as (_ & _ & Hlast & _).
  eexists _, _. split; [exact H1|]. split; [exact H2|]. split.
  - apply Hfull. vm_compute. reflexivity.
  - destruct Hlast as [Hlast _]; [vm_compute; reflexivity|].
    rewrite Hlast. vm_compute. reflexivity.
Defined.

Lemma list_unfiltered_total_witness :
  exists r,
    app Fixtures.cfg 100 (GET_use_cases Samples.blank_filters) Samples.three_db =
      (Samples.three_db, {| status := 200; body := ListBody r |}) /\
    total (pagination r) = 3 /\ page (pagination r) = 1 /\ limit (pagination r) = 20.
Proof.
  destruct (list_unfiltered_total Fixtures.cfg 100 Samples.three_db Samples.blank_filters)
    as (r & Happ & Htotal & Hpage & Hlimit); [vm_compute; reflexivity..| |].
  { intros p l Hp Hl. vm_compute in Hp, Hl. injection Hp as <-. injection Hl as <-.
    vm_compute. discriminate. }
  exists r. split; [exact Happ|]. split; [exact Htotal|].
  split; [apply Hpage|apply Hlimit]; reflexivity.
Defined.

Lemma satisfies_maintenance :
  satisfies Samples.search_maintenance
    (created_row 100 Fixtures.maintenance Samples.three_db).
Proof.
  split; [|split; [|split]].
  - intros v Hv. vm_compute in Hv. discriminate.
  - intros v Hv. vm_compute in Hv. discriminate.
  - intros v Hv. vm_compute in Hv. discriminate.
  - intros v Hv. vm_compute in Hv. injection Hv as <-. left. vm_compute. reflexivity.
Defined.

Lemma create_then_list_witness :
  exists db' before after,
    fst (app Fixtures.cfg 100 (POST_use_cases Fixtures.key Fixtures.maintenance)
           Samples.three_db) = db' /\
    app Fixtures.cfg 200 (GET_use_cases Samples.search_maintenance) Samples.three_db =
      (Samples.three_db, {| status := 200; body := ListBody before |}) /\
    app Fixtures.cfg 200 (GET_use_cases Samples.search_maintenance) db' =
      (db', {| status := 200; body := ListBody after |}) /\
    total (pagination before) = 0 /\ total (pagination after) = 1.
Proof.
  assert (app Fixtures.cfg 100 (POST_use_cases Fixtures.key Fixtures.maintenance)
            Samples.three_db =
          (insert_row (created_row 100 Fixtures.maintenance Samples.three_db)
             Samples.three_db,
           {| status := 201;
              body := CreatedBody "Use case created successfully"
                        (created_row 100 Fixtures.maintenance Samples.three_db) |}))
    as Hpost by (vm_compute; reflexivity).
  destruct (create_then_list Fixtures.cfg 100 200 Samples.three_db _ Fixtures.key
              Fixtures.maintenance _ Samples.search_maintenance 1 20 Hpost)
    as (before & after & Hbefore & Hafter & Hgrows & _);
    [vm_compute; reflexivity|literal_concrete|vm_compute; reflexivity..|
     unfold in_range; vm_compute; discriminate|].
  eexists _, before, after. split; [rewrite Hpost; reflexivity|].
  split; [exact Hbefore|]. split; [exact Hafter|].
  assert (total (pagination before) = 0) as Hzero.
  { pose proof Hbefore as H. vm_compute in H. injection H as <-. reflexivity. }
  split; [exact Hzero|].
  rewrite Hgrows; [rewrite Hzero; reflexivity|apply satisfies_maintenance].
Defined.

Lemma production_errors_redacted_witness :
  exists text code,
    body (errorHandler Fixtures.cfg (OtherError "connect ECONNREFUSED 10.0.0.5:5432")) =
      ErrorBody text code None /\
    text ∈ fixed_error_texts.
Proof.
  destruct (production_errors_redacted Fixtures.cfg
              (OtherError "connect ECONNREFUSED 10.0.0.5:5432") eq_refl eq_refl)
    as (text & code & Hbody & Htext & _).
  exists text, code. split; [exact Hbody|exact Htext].
Defined.

Lemma form_submission_stored_witness :
  exists req db' stored,
    handleSubmit Samples.form = Some req /\
    app Samples.demo_cfg 100 req Db.empty =
      (db', {| status := 201;
               body := CreatedBody "Use case created successfully" stored |}) /\
    useCase stored = "Predictive Maintenance" /\
    benefit stored = None /\ industry stored = Some "Manufacturing" /\ url stored = None.
Proof.
  destruct (form_submission_stored Samples.demo_cfg 100 Db.empty Samples.form)
    as (req & db' & stored & Hreq & Happ & _ & Hname & _ & _ & Hbenefit & Hindustry & _ & _
        & Hurl);
    [right; reflexivity|vm_compute; reflexivity| |vm_compute; reflexivity..|
     vm_compute; discriminate|vm_compute; reflexivity|].
  { unfold form_within_bounds. vm_compute. repeat split; discriminate. }
  exists req, db', stored. split; [exact Hreq|]. split; [exact Happ|].
  split; [exact Hname|]. split; [exact Hbenefit|]. split; [exact Hindustry|exact Hurl].
Defined.

Lemma form_submission_rejected_witness :
  exists req,
    handleSubmit Samples.form = Some req /\
    app Fixtures.cfg 100 req Db.empty =
      (Db.empty,
       {| status := 401;
          body := ErrorBody "Unauthorized: Invalid or missing API key"
                    "UNAUTHORIZED_ERROR" None |}).
Proof.
  eexists. split; [vm_compute; reflexivity|].
  apply (form_submission_rejected Fixtures.cfg 100 Db.empty Samples.form);
    [discriminate|discriminate|vm_compute; reflexivity].
Defined.

Lemma pagination_buttons_in_range_witness :
  exists r,
    app Fixtures.cfg 100 (GET_use_cases Samples.first_of_two) Samples.three_db =
      (Samples.three_db, {| status := 200; body := ListBody r |}) /\
    shows_pagination r = true /\ next_page (pagination r) = Some 2 /\
    1 <= 2 <= totalPages (pagination r).
Proof.
  eexists. split; [vm_compute; reflexivity|]. split; [vm_compute; reflexivity|].
  split; [vm_compute; reflexivity|].
  eapply (pagination_buttons_in_range Fixtures.cfg 100 Samples.three_db
            Samples.first_of_two);
    [vm_compute; reflexivity..|]. left. vm_compute. reflexivity.
Defined.
End MoreConcrete.

Section MoreConcrete2.
Import Db Http Props Terms.

Lemma stored_rows_fetchable_witness :
  app Fixtures.cfg 500 (GET_use_case "1")
    (System.run Fixtures.cfg
       [System.RunImport Fixtures.noon Fixtures.csv_file] Db.empty) =
    (System.run Fixtures.cfg [System.RunImport Fixtures.noon Fixtures.csv_file] Db.empty,
     {| status := 200; body := ItemBody Samples.pricing_stored |}).
Proof.
  apply (stored_rows_fetchable Fixtures.cfg
           [System.RunImport Fixtures.noon Fixtures.csv_file] 500 Samples.pricing_stored);
    [vm_compute; apply list_elem_of_here|vm_compute; reflexivity..].
Defined.

End MoreConcrete2.
